(** * Kolam geometry engine: a shallow embedding and its verified properties

    The development follows [kolam_geometry.py] and [kolam_generator.py]
    class by class: every Python class becomes a module of the same name,
    every method a definition of the same name.

    Number model.  Python [int] values are [Z].  Python [float] values are
    modelled by the real numbers [R] of the Standard Library: [+ - * /],
    [math.sqrt], [math.cos], [math.sin], [abs] and the comparisons are the
    exact real operations, [math.pi] is [PI].  Rounding, overflow, signed
    zeros and NaN are therefore outside the model; every statement that
    depends on the value of a float (rather than on the shape of the data)
    is a statement about this exact-arithmetic reading of the code.

    Exceptions are modelled by the [result] type below; a function that
    contains no raising operation is a plain total function. *)

From Stdlib Require Import String Reals Lra Lia ZArith List Bool Arith.
From Stdlib Require Import DecimalString FinFun Sorted.
Import ListNotations.

Local Open Scope R_scope.

(** ** Python run-time helpers *)

Module Py.

(** The built-in exceptions the modelled code can run into. *)
Inductive exn : Type :=
| ValueError
| IndexError
| ZeroDivisionError.

Inductive result (A : Type) : Type :=
| Ok (a : A)
| Raise (e : exn).

Arguments Ok {A} a.
Arguments Raise {A} e.

Definition bind {A B : Type} (r : result A) (k : A -> result B) : result B :=
  match r with
  | Ok a => k a
  | Raise e => Raise e
  end.

Definition raises {A : Type} (r : result A) : Prop :=
  exists e, r = Raise e.

(** Comparisons on floats, as booleans. *)
Definition ltb (a b : R) : bool := if Rlt_dec a b then true else false.
Definition gtb (a b : R) : bool := ltb b a.
Definition eqb (a b : R) : bool := if Req_dec_T a b then true else false.

(** [range(n)] and [range(start, stop, step)] for a positive step. *)
Definition range (n : Z) : list Z :=
  map Z.of_nat (seq 0 (Z.to_nat n)).

Definition range3 (start stop step : Z) : list Z :=
  map (fun k => (start + step * Z.of_nat k)%Z)
      (seq 0 (Z.to_nat ((stop - start + step - 1) / step))).

(** [enumerate(l)] *)
Definition enumerate {A : Type} (l : list A) : list (nat * A) :=
  combine (seq 0 (length l)) l.

(** [sum(...)] over floats: left-to-right accumulation from 0. *)
Definition sum (l : list R) : R := fold_left Rplus l 0.

(** [len(l)] as a float operand. *)
Definition len {A : Type} (l : list A) : R := INR (length l).

(** [min(...)] and [max(...)]: [ValueError] on an empty sequence, otherwise
    the first smallest (largest) element. *)
Definition min (l : list R) : result R :=
  match l with
  | [] => Raise ValueError
  | a :: t => Ok (fold_left (fun m v => if ltb v m then v else m) t a)
  end.

Definition max (l : list R) : result R :=
  match l with
  | [] => Raise ValueError
  | a :: t => Ok (fold_left (fun m v => if gtb v m then v else m) t a)
  end.

(** [int(x)] on a float: truncation toward zero. *)
Definition int (v : R) : Z :=
  if Rle_dec 0 v then Zfloor v else Zceil v.

(** [math.atan2(y, x)], the angle in (-pi, pi] of the vector [(x, y)]. *)
Definition atan2 (b a : R) : R :=
  if Rlt_dec 0 a then atan (b / a)
  else if Rlt_dec a 0 then
         (if Rle_dec 0 b then atan (b / a) + PI else atan (b / a) - PI)
       else if Rlt_dec 0 b then PI / 2
            else if Rlt_dec b 0 then - (PI / 2)
                 else 0.

(** [str(n)] for an integer, as used by f-strings. *)
Definition str (n : Z) : string := NilZero.string_of_int (Z.to_int n).

End Py.

Import Py.

(** ** Enumerations *)

Inductive SymmetryType : Type :=
| ROTATIONAL_2
| ROTATIONAL_4
| ROTATIONAL_8
| REFLECTIONAL_VERTICAL
| REFLECTIONAL_HORIZONTAL
| REFLECTIONAL_DIAGONAL
| TRANSLATIONAL
| POINT.

Inductive KolamType : Type :=
| PULLI_KOLAM
| KAMBI_KOLAM
| SIKKU_KOLAM
| CHIKKU_KOLAM
| MARGAZHI_KOLAM.

(** ** [class Point2D] *)

Module Point2D.

Record t : Type := mk { x : R; y : R }.

Definition add (self other : t) : t :=
  mk (x self + x other) (y self + y other).

Definition sub (self other : t) : t :=
  mk (x self - x other) (y self - y other).

Definition mul (self : t) (scalar : R) : t :=
  mk (x self * scalar) (y self * scalar).

Definition distance_to (self other : t) : R :=
  sqrt ((x self - x other) ^ 2 + (y self - y other) ^ 2).

(** [rotate(angle_rad, center)]; a missing center is the origin. *)
Definition rotate (self : t) (angle_rad : R) (center : option t) : t :=
  let center := match center with
                | None => mk 0 0
                | Some c => c
                end in
  let translated := sub self center in
  let cos_a := cos angle_rad in
  let sin_a := sin angle_rad in
  let rotated := mk (x translated * cos_a - y translated * sin_a)
                    (x translated * sin_a + y translated * cos_a) in
  add rotated center.

End Point2D.

(** ** [class DotGrid] *)

Module DotGrid.

Record t : Type := mk {
  rows : Z;
  cols : Z;
  spacing : R;
  dots : list (list Point2D.t)
}.

Definition _generate_grid (rows cols : Z) (spacing : R) : list (list Point2D.t) :=
  map (fun i =>
         map (fun j => Point2D.mk (IZR j * spacing) (IZR i * spacing))
             (range cols))
      (range rows).

(** The object built by [DotGrid(rows, cols, spacing)]: the arguments are
    stored and the dot matrix is generated. *)
Definition new (rows cols : Z) (spacing : R) : t :=
  mk rows cols spacing (_generate_grid rows cols spacing).

(** Outcome of the constructor call.  The body of [__init__] and of
    [_generate_grid] contains no check and no [raise]: the call always
    completes with the object above. *)
Definition __init__ (rows cols : Z) (spacing : R) : result t :=
  Ok (new rows cols spacing).

(** [self.dots[row][col]] for indices already known to be non-negative.
    On a grid built by the constructor the matrix has [rows] rows of [cols]
    dots, so inside the bounds tested by [get_dot] both lookups succeed
    (lemma [get_dot_in_bounds]). *)
Definition index (self : t) (row col : Z) : option Point2D.t :=
  match nth_error (dots self) (Z.to_nat row) with
  | Some r => nth_error r (Z.to_nat col)
  | None => None
  end.

Definition get_dot (self : t) (row col : Z) : option Point2D.t :=
  if ((0 <=? row) && (row <? rows self) && (0 <=? col) && (col <? cols self))%Z
  then index self row col
  else None.

Definition get_neighbors (self : t) (row col radius : Z) : list Point2D.t :=
  flat_map
    (fun dr =>
       flat_map
         (fun dc =>
            if ((dr =? 0) && (dc =? 0))%Z then []
            else match get_dot self (row + dr) (col + dc) with
                 | Some dot => [dot]
                 | None => []
                 end)
         (range3 (- radius) (radius + 1) 1))
    (range3 (- radius) (radius + 1) 1).

Definition get_all_dots (self : t) : list Point2D.t :=
  concat (dots self).

End DotGrid.

(** ** [class CurveGenerator] *)

Module CurveGenerator.

Record t : Type := mk { grid : DotGrid.t }.

(** The start and end angle chosen for the arc around [dot], the dot of the
    [i]-th entry of [dot_positions].  Under the test [i < len - 1] the entry
    [i + 1] exists; the [None] branch of the list lookup is never taken. *)
Definition sweep (self : t) (dot_positions : list (Z * Z)) (i : nat)
    (dot : Point2D.t) : R * R :=
  let start_angle := 0 in
  let end_angle := 2 * PI in
  if (Z.of_nat i <? Z.of_nat (length dot_positions) - 1)%Z then
    match nth_error dot_positions (i + 1) with
    | Some (row', col') =>
        match DotGrid.get_dot (grid self) row' col' with
        | Some next_dot =>
            let dx := Point2D.x next_dot - Point2D.x dot in
            let dy := Point2D.y next_dot - Point2D.y dot in
            let angle_to_next := atan2 dy dx in
            let start_angle := angle_to_next + PI / 2 in
            let end_angle := start_angle + 3 * PI / 2 in
            (start_angle, end_angle)
        | None => (start_angle, end_angle)
        end
    | None => (start_angle, end_angle)
    end
  else (start_angle, end_angle).

(** The inner loop: [num_points] samples of the arc from [start_angle] to
    [end_angle] around [dot]. *)
Definition arc (dot : Point2D.t) (curve_radius start_angle end_angle : R)
    : list Point2D.t :=
  let num_points := 20%Z in
  map (fun j =>
         let angle := start_angle
                      + (end_angle - start_angle) * IZR j / IZR (num_points - 1) in
         Point2D.mk (Point2D.x dot + curve_radius * cos angle)
                    (Point2D.y dot + curve_radius * sin angle))
      (range num_points).

Definition generate_loop_around_dots (self : t) (dot_positions : list (Z * Z))
    (curve_radius : R) : list Point2D.t :=
  match dot_positions with
  | [] => []
  | _ =>
      flat_map
        (fun entry : nat * (Z * Z) =>
           let '(i, (row, col)) := entry in
           match DotGrid.get_dot (grid self) row col with
           | None => []
           | Some dot =>
               let '(start_angle, end_angle) := sweep self dot_positions i dot in
               arc dot curve_radius start_angle end_angle
           end)
        (enumerate dot_positions)
  end.

Definition generate_spiral_pattern (self : t) (center : Point2D.t)
    (radius turns : R) : list Point2D.t :=
  let num_points := int (100 * turns) in
  map (fun i =>
         let t := IZR i / IZR num_points in
         let angle := t * turns * 2 * PI in
         let r := radius * t in
         Point2D.mk (Point2D.x center + r * cos angle)
                    (Point2D.y center + r * sin angle))
      (range num_points).

Definition generate_petal_pattern (self : t) (center : Point2D.t)
    (radius : R) (num_petals : Z) : list Point2D.t :=
  let num_points := 200%Z in
  map (fun i =>
         let t := IZR i / IZR num_points * 2 * PI in
         let k := IZR num_petals / 2 in
         let r := radius * Rabs (cos (k * t)) in
         Point2D.mk (Point2D.x center + r * cos t)
                    (Point2D.y center + r * sin t))
      (range num_points).

End CurveGenerator.

(** ** [class SymmetryAnalyzer] *)

Module SymmetryAnalyzer.

(** The matching loop shared by both tests: every transformed point has an
    original point closer than [tolerance]. *)
Definition all_matched (transformed points : list Point2D.t) (tolerance : R)
    : bool :=
  forallb (fun rp =>
             existsb (fun op => ltb (Point2D.distance_to rp op) tolerance)
                     points)
          transformed.

Definition _test_rotational_symmetry (points : list Point2D.t)
    (center : Point2D.t) (fold : Z) (tolerance : R) : bool :=
  let angle := 2 * PI / IZR fold in
  let rotated_points :=
    map (fun p => Point2D.rotate p angle (Some center)) points in
  all_matched rotated_points points tolerance.

Definition _test_reflection_symmetry (points : list Point2D.t)
    (center : Point2D.t) (axis : string) (tolerance : R) : bool :=
  if String.eqb axis "vertical" then
    let reflected_points :=
      map (fun p => Point2D.mk (2 * Point2D.x center - Point2D.x p)
                               (Point2D.y p)) points in
    all_matched reflected_points points tolerance
  else if String.eqb axis "horizontal" then
    let reflected_points :=
      map (fun p => Point2D.mk (Point2D.x p)
                               (2 * Point2D.y center - Point2D.y p)) points in
    all_matched reflected_points points tolerance
  else false.

(** Default value of the [tolerance] parameter of both tests. *)
Definition tolerance : R := 0.1.

(** [getattr(SymmetryType, f"ROTATIONAL_{fold}")] for the folds tested. *)
Definition rotational (fold : Z) : list SymmetryType :=
  if (fold =? 2)%Z then [ROTATIONAL_2]
  else if (fold =? 4)%Z then [ROTATIONAL_4]
  else if (fold =? 8)%Z then [ROTATIONAL_8]
  else [].

Definition detect_symmetries (points : list Point2D.t) : list SymmetryType :=
  match points with
  | [] => []
  | _ =>
      let centroid :=
        Point2D.mk (sum (map Point2D.x points) / len points)
                   (sum (map Point2D.y points) / len points) in
      let symmetries :=
        flat_map (fun fold =>
                    if _test_rotational_symmetry points centroid fold tolerance
                    then rotational fold else [])
                 [2; 4; 8]%Z in
      let symmetries :=
        if _test_reflection_symmetry points centroid "vertical" tolerance
        then symmetries ++ [REFLECTIONAL_VERTICAL] else symmetries in
      let symmetries :=
        if _test_reflection_symmetry points centroid "horizontal" tolerance
        then symmetries ++ [REFLECTIONAL_HORIZONTAL] else symmetries in
      symmetries
  end.

Definition apply_symmetry (points : list Point2D.t) (center : Point2D.t)
    (symmetry_type : SymmetryType) : list Point2D.t :=
  match symmetry_type with
  | ROTATIONAL_4 =>
      fold_left
        (fun all_points i =>
           let angle := IZR i * PI / 2 in
           let rotated :=
             map (fun p => Point2D.rotate p angle (Some center)) points in
           all_points ++ rotated)
        (range3 1 4 1) points
  | REFLECTIONAL_VERTICAL =>
      let reflected :=
        map (fun p => Point2D.mk (2 * Point2D.x center - Point2D.x p)
                                 (Point2D.y p)) points in
      points ++ reflected
  | REFLECTIONAL_HORIZONTAL =>
      let reflected :=
        map (fun p => Point2D.mk (Point2D.x p)
                                 (2 * Point2D.y center - Point2D.y p)) points in
      points ++ reflected
  | _ => points
  end.

End SymmetryAnalyzer.

(** ** [class KolamPattern] *)

Module KolamPattern.

Record t : Type := mk {
  name : string;
  kolam_type : KolamType;
  grid : option DotGrid.t;
  curves : list (list Point2D.t);
  symmetries : list SymmetryType;
  properties : list (string * string)
}.

Definition __init__ (name : string) (kolam_type : KolamType) : t :=
  mk name kolam_type None [] [] [].

Definition set_grid (self : t) (rows cols : Z) (spacing : R) : t :=
  mk (name self) (kolam_type self) (Some (DotGrid.new rows cols spacing))
     (curves self) (symmetries self) (properties self).

Definition add_curve (self : t) (curve_points : list Point2D.t) : t :=
  mk (name self) (kolam_type self) (grid self)
     (curves self ++ [curve_points]) (symmetries self) (properties self).

Definition analyze_symmetries (self : t) : t :=
  let all_points := concat (curves self) in
  match all_points with
  | [] => self
  | _ =>
      mk (name self) (kolam_type self) (grid self) (curves self)
         (SymmetryAnalyzer.detect_symmetries all_points) (properties self)
  end.

Definition get_bounding_box (self : t) : result (Point2D.t * Point2D.t) :=
  match curves self with
  | [] => Ok (Point2D.mk 0 0, Point2D.mk 0 0)
  | _ =>
      let all_points := concat (curves self) in
      bind (min (map Point2D.x all_points)) (fun min_x =>
      bind (max (map Point2D.x all_points)) (fun max_x =>
      bind (min (map Point2D.y all_points)) (fun min_y =>
      bind (max (map Point2D.y all_points)) (fun max_y =>
      Ok (Point2D.mk min_x min_y, Point2D.mk max_x max_y)))))
  end.

(** The states of a pattern: what the constructor returns, and what the
    three mutating methods make of such a state.  Nothing else in the
    program writes [curves] or [symmetries]. *)
Inductive reachable : t -> Prop :=
| reach_init (name : string) (kolam_type : KolamType) :
    reachable (__init__ name kolam_type)
| reach_set_grid (self : t) (rows cols : Z) (spacing : R) :
    reachable self -> reachable (set_grid self rows cols spacing)
| reach_add_curve (self : t) (curve_points : list Point2D.t) :
    reachable self -> reachable (add_curve self curve_points)
| reach_analyze_symmetries (self : t) :
    reachable self -> reachable (analyze_symmetries self).

End KolamPattern.

(** ** [class PatternRecognizer] *)

Module PatternRecognizer.

Record t : Type := mk { tolerance : R }.

Definition __init__ : t := mk 0.1.

(** The centroid computed at the start of each test. *)
Definition centroid (points : list Point2D.t) : Point2D.t :=
  Point2D.mk (sum (map Point2D.x points) / len points)
             (sum (map Point2D.y points) / len points).

Definition _is_circular_pattern (self : t) (points : list Point2D.t) : bool :=
  if (length points <? 10)%nat then false
  else
    let center := centroid points in
    let distances := map (fun p => Point2D.distance_to p center) points in
    let avg_distance := sum distances / len distances in
    let variance :=
      sum (map (fun d => (d - avg_distance) ^ 2) distances) / len distances in
    ltb variance ((avg_distance * 0.1) ^ 2).

(** One round of the loop over consecutive samples: the wrapped angle
    difference is added to [angle_progression], and [distance_trend] counts
    the steps on which the distance grows. *)
Definition spiral_step (angles distances : list R) (acc : R * Z) (i : Z)
    : R * Z :=
  let '(angle_progression, distance_trend) := acc in
  let angle_diff :=
    nth (Z.to_nat i) angles 0 - nth (Z.to_nat (i - 1)) angles 0 in
  let angle_diff :=
    if gtb angle_diff PI then angle_diff - 2 * PI
    else if ltb angle_diff (- PI) then angle_diff + 2 * PI
         else angle_diff in
  let angle_progression := angle_progression + angle_diff in
  let distance_trend :=
    if gtb (nth (Z.to_nat i) distances 0) (nth (Z.to_nat (i - 1)) distances 0)
    then (distance_trend + 1)%Z else distance_trend in
  (angle_progression, distance_trend).

Definition _is_spiral_pattern (self : t) (points : list Point2D.t) : bool :=
  if (length points <? 20)%nat then false
  else
    let center := centroid points in
    let angles :=
      map (fun p => atan2 (Point2D.y p - Point2D.y center)
                          (Point2D.x p - Point2D.x center)) points in
    let distances := map (fun p => Point2D.distance_to p center) points in
    let '(angle_progression, distance_trend) :=
      fold_left (spiral_step angles distances)
                (range3 1 (Z.of_nat (length points)) 1) (0, 0%Z) in
    gtb (Rabs angle_progression) (2 * PI)
    && gtb (IZR distance_trend) (len points * 0.6).

(** Tuple comparison [a < b] on (angle, radius) pairs. *)
Definition tuple_ltb (a b : R * R) : bool :=
  if eqb (fst a) (fst b) then ltb (snd a) (snd b) else ltb (fst a) (fst b).

(** [list.sort()]: a stable sort driven by [<]. *)
Fixpoint insert (v : R * R) (l : list (R * R)) : list (R * R) :=
  match l with
  | [] => [v]
  | w :: l' => if tuple_ltb v w then v :: w :: l' else w :: insert v l'
  end.

Definition sort (l : list (R * R)) : list (R * R) :=
  fold_left (fun acc v => insert v acc) l [].

(** The counting loop: indices [1 .. len-2] whose value is strictly above
    both neighbours. *)
Definition count_local_maxima (radii : list R) : Z :=
  fold_left
    (fun (local_maxima : Z) (i : Z) =>
       if gtb (nth (Z.to_nat i) radii 0) (nth (Z.to_nat (i - 1)) radii 0)
          && gtb (nth (Z.to_nat i) radii 0) (nth (Z.to_nat (i + 1)) radii 0)
       then (local_maxima + 1)%Z else local_maxima)
    (range3 1 (Z.of_nat (length radii) - 1) 1) 0%Z.

(** The radii about the centroid, in the order of increasing angle. *)
Definition sorted_radii (points : list Point2D.t) : list R :=
  let center := centroid points in
  let polar_points :=
    map (fun p =>
           let dx := Point2D.x p - Point2D.x center in
           let dy := Point2D.y p - Point2D.y center in
           (atan2 dy dx, Point2D.distance_to p center)) points in
  let polar_points := sort polar_points in
  map snd polar_points.

Definition _is_petal_pattern (self : t) (points : list Point2D.t) : bool :=
  if (length points <? 20)%nat then false
  else
    let radii := sorted_radii points in
    (4 <=? count_local_maxima radii)%Z.

Definition _is_linear_segment (self : t) (points : list Point2D.t) : bool :=
  if (length points <? 3)%nat then true
  else
    let n := len points in
    let sum_x := sum (map Point2D.x points) in
    let sum_y := sum (map Point2D.y points) in
    let sum_xy := sum (map (fun p => Point2D.x p * Point2D.y p) points) in
    let sum_x2 := sum (map (fun p => Point2D.x p * Point2D.x p) points) in
    let denom := n * sum_x2 - sum_x * sum_x in
    if ltb (Rabs denom) 1e-10 then true
    else
      let slope := (n * sum_xy - sum_x * sum_y) / denom in
      let intercept := (sum_y - slope * sum_x) / n in
      let y_mean := sum_y / n in
      let ss_tot := sum (map (fun p => (Point2D.y p - y_mean) ^ 2) points) in
      let ss_res :=
        sum (map (fun p =>
                    (Point2D.y p - (slope * Point2D.x p + intercept)) ^ 2)
                 points) in
      if ltb ss_tot 1e-10 then true
      else
        let r_squared := 1 - ss_res / ss_tot in
        gtb r_squared 0.9.

Definition _has_linear_segments (self : t) (points : list Point2D.t) : bool :=
  if (length points <? 6)%nat then false
  else
    let segment_length := 5%Z in
    let linear_segments :=
      fold_left
        (fun (linear_segments : Z) (i : Z) =>
           let segment :=
             firstn (Z.to_nat segment_length) (skipn (Z.to_nat i) points) in
           if _is_linear_segment self segment
           then (linear_segments + 1)%Z else linear_segments)
        (range (Z.of_nat (length points) - segment_length)) 0%Z in
    (0 <? linear_segments)%Z.

Definition detect_curve_types (self : t) (curve_points : list Point2D.t)
    : list string :=
  if (length curve_points <? 10)%nat then ["simple"%string]
  else
    let curve_types := [] in
    let curve_types :=
      if _is_circular_pattern self curve_points
      then curve_types ++ ["circular"%string] else curve_types in
    let curve_types :=
      if _is_spiral_pattern self curve_points
      then curve_types ++ ["spiral"%string] else curve_types in
    let curve_types :=
      if _is_petal_pattern self curve_points
      then curve_types ++ ["petal"%string] else curve_types in
    let curve_types :=
      if _has_linear_segments self curve_points
      then curve_types ++ ["linear"%string] else curve_types in
    match curve_types with
    | [] => ["complex"%string]
    | _ => curve_types
    end.

End PatternRecognizer.

(** ** [class KolamGenerator] *)

Module KolamGenerator.

(** The [patterns] dictionary is created empty and never written. *)
Record t : Type := mk { patterns : list (string * KolamPattern.t) }.

Definition __init__ : t := mk [].

(** The 2x2 block of cells looped for the anchor [(r, c)]. *)
Definition square_dots (r c : Z) : list (Z * Z) :=
  [(r, c); (r, c + 1); (r + 1, c + 1); (r + 1, c); (r, c)]%Z.

(** The ring of cells collected for one [size] of the diamond variant. *)
Definition diamond_dots (rows cols center_r center_c size : Z) : list (Z * Z) :=
  let diamond_dots := [] in
  let diamond_dots :=
    if (center_r - size >=? 0)%Z
    then diamond_dots ++ [(center_r - size, center_c)%Z] else diamond_dots in
  let diamond_dots :=
    if (center_c + size <? cols)%Z
    then diamond_dots ++ [(center_r, center_c + size)%Z] else diamond_dots in
  let diamond_dots :=
    if (center_r + size <? rows)%Z
    then diamond_dots ++ [(center_r + size, center_c)%Z] else diamond_dots in
  let diamond_dots :=
    if (center_c - size >=? 0)%Z
    then diamond_dots ++ [(center_r, center_c - size)%Z] else diamond_dots in
  diamond_dots.

Definition generate_pulli_kolam (self : t) (rows cols : Z) (dot_pattern : string)
    : KolamPattern.t :=
  let pattern :=
    KolamPattern.__init__
      ("Pulli Kolam " ++ str rows ++ "x" ++ str cols)%string PULLI_KOLAM in
  let pattern := KolamPattern.set_grid pattern rows cols 2 in
  (* [pattern.grid] is the grid just set *)
  let curve_gen := CurveGenerator.mk (DotGrid.new rows cols 2) in
  let pattern :=
    if String.eqb dot_pattern "basic" then
      fold_left
        (fun pattern r =>
           fold_left
             (fun pattern c =>
                if ((r <? rows - 1) && (c <? cols - 1))%Z then
                  let curve :=
                    CurveGenerator.generate_loop_around_dots
                      curve_gen (square_dots r c) 0.4 in
                  KolamPattern.add_curve pattern curve
                else pattern)
             (range3 1 (cols - 1) 2) pattern)
        (range3 1 (rows - 1) 2) pattern
    else if String.eqb dot_pattern "diamond" then
      let center_r := (rows / 2)%Z in
      let center_c := (cols / 2)%Z in
      fold_left
        (fun pattern size =>
           let diamond_dots := diamond_dots rows cols center_r center_c size in
           match diamond_dots with
           | [] => pattern
           | first :: _ =>
               let diamond_dots := diamond_dots ++ [first] in
               let curve :=
                 CurveGenerator.generate_loop_around_dots
                   curve_gen diamond_dots 0.3 in
               KolamPattern.add_curve pattern curve
           end)
        (range3 1 (Z.min rows cols / 2) 1) pattern
    else pattern in
  KolamPattern.analyze_symmetries pattern.

Definition generate_mandala_kolam (self : t) (rings segments : Z)
    : KolamPattern.t :=
  let pattern :=
    KolamPattern.__init__
      ("Mandala Kolam " ++ str rings ++ " rings")%string MARGAZHI_KOLAM in
  let grid_size := (2 * rings + 3)%Z in
  let pattern := KolamPattern.set_grid pattern grid_size grid_size 1.2 in
  let center :=
    Point2D.mk (IZR (grid_size - 1) * 0.6) (IZR (grid_size - 1) * 0.6) in
  let pattern :=
    fold_left
      (fun pattern ring =>
         let radius := IZR ring * 0.8 in
         let ring_points :=
           map (fun i =>
                  let angle := IZR i * 2 * PI / IZR (segments * 8) in
                  Point2D.mk (Point2D.x center + radius * cos angle)
                             (Point2D.y center + radius * sin angle))
               (range (segments * 8)) in
         let pattern := KolamPattern.add_curve pattern ring_points in
         fold_left
           (fun pattern spoke =>
              let angle := IZR spoke * 2 * PI / IZR segments in
              let spoke_points :=
                map (fun t =>
                       let r := IZR t / 9 * radius in
                       Point2D.mk (Point2D.x center + r * cos angle)
                                  (Point2D.y center + r * sin angle))
                    (range 10) in
              KolamPattern.add_curve pattern spoke_points)
           (range segments) pattern)
      (range3 1 (rings + 1) 1) pattern in
  KolamPattern.analyze_symmetries pattern.

Definition _generate_connecting_curve (self : t) (start end_ : Point2D.t)
    : list Point2D.t :=
  let num_points := 20%Z in
  map (fun i =>
         let t := IZR i / IZR (num_points - 1) in
         let mid_x := (Point2D.x start + Point2D.x end_) / 2 in
         let mid_y := (Point2D.y start + Point2D.y end_) / 2 in
         let curve_height := 0.5 in
         Point2D.mk
           ((1 - t) ^ 2 * Point2D.x start + 2 * (1 - t) * t * mid_x
            + t ^ 2 * Point2D.x end_)
           ((1 - t) ^ 2 * Point2D.y start
            + 2 * (1 - t) * t * (mid_y + curve_height)
            + t ^ 2 * Point2D.y end_))
      (range num_points).

Definition generate_sikku_kolam (self : t) (complexity : Z) : KolamPattern.t :=
  let pattern :=
    KolamPattern.__init__
      ("Sikku Kolam Level " ++ str complexity)%string SIKKU_KOLAM in
  let size := (2 * complexity + 3)%Z in
  let pattern := KolamPattern.set_grid pattern size size 1.5 in
  let curve_gen := CurveGenerator.mk (DotGrid.new size size 1.5) in
  let center :=
    Point2D.mk (IZR (size - 1) * 1.5 / 2) (IZR (size - 1) * 1.5 / 2) in
  let pattern :=
    fold_left
      (fun pattern i =>
         let angle_offset := IZR i * 2 * PI / IZR complexity in
         let spiral_center :=
           Point2D.mk
             (Point2D.x center + IZR (i + 1) * 0.5 * cos angle_offset)
             (Point2D.y center + IZR (i + 1) * 0.5 * sin angle_offset) in
         let spiral_curve :=
           CurveGenerator.generate_spiral_pattern
             curve_gen spiral_center (1.0 + IZR i * 0.3) (2 + IZR i * 0.5) in
         KolamPattern.add_curve pattern spiral_curve)
      (range complexity) pattern in
  let pattern :=
    fold_left
      (fun pattern i =>
         let angle1 := IZR i * 2 * PI / IZR complexity in
         let angle2 := IZR (i + 1) * 2 * PI / IZR complexity in
         let start :=
           Point2D.mk (Point2D.x center + 2 * cos angle1)
                      (Point2D.y center + 2 * sin angle1) in
         let end_ :=
           Point2D.mk (Point2D.x center + 2 * cos angle2)
                      (Point2D.y center + 2 * sin angle2) in
         let connecting_curve := _generate_connecting_curve self start end_ in
         KolamPattern.add_curve pattern connecting_curve)
      (range complexity) pattern in
  KolamPattern.analyze_symmetries pattern.

Definition generate_flower_kolam (self : t) (num_petals layers : Z)
    : KolamPattern.t :=
  let pattern :=
    KolamPattern.__init__
      ("Flower Kolam " ++ str num_petals ++ " petals")%string
      MARGAZHI_KOLAM in
  let grid_size := (2 * layers + 5)%Z in
  let pattern := KolamPattern.set_grid pattern grid_size grid_size 1.0 in
  let curve_gen := CurveGenerator.mk (DotGrid.new grid_size grid_size 1.0) in
  let center :=
    Point2D.mk (IZR (grid_size - 1) * 0.5) (IZR (grid_size - 1) * 0.5) in
  let pattern :=
    fold_left
      (fun pattern layer =>
         let radius := 1.0 + IZR layer * 0.8 in
         let petal_curve :=
           CurveGenerator.generate_petal_pattern
             curve_gen center radius num_petals in
         KolamPattern.add_curve pattern petal_curve)
      (range layers) pattern in
  let center_spiral :=
    CurveGenerator.generate_spiral_pattern curve_gen center 0.5 1.5 in
  let pattern := KolamPattern.add_curve pattern center_spiral in
  KolamPattern.analyze_symmetries pattern.

(** The horizontal, vertical and diagonal lines of the wireframe pattern:
    the dots found along row [r], along column [c], and along the cells
    [(r, r + offset)]. *)
Definition kambi_row (grid : DotGrid.t) (grid_size r : Z) : list Point2D.t :=
  flat_map (fun c => match DotGrid.get_dot grid r c with
                     | Some dot => [dot]
                     | None => []
                     end)
           (range grid_size).

Definition kambi_column (grid : DotGrid.t) (grid_size c : Z)
    : list Point2D.t :=
  flat_map (fun r => match DotGrid.get_dot grid r c with
                     | Some dot => [dot]
                     | None => []
                     end)
           (range grid_size).

Definition kambi_diagonal (grid : DotGrid.t) (grid_size offset : Z)
    : list Point2D.t :=
  flat_map (fun r =>
              let c := (r + offset)%Z in
              if ((0 <=? c) && (c <? grid_size))%Z then
                match DotGrid.get_dot grid r c with
                | Some dot => [dot]
                | None => []
                end
              else [])
           (range grid_size).

Definition directions : list (Z * Z) :=
  [(-1, -1); (-1, 0); (-1, 1); (0, -1); (0, 1); (1, -1); (1, 0); (1, 1)]%Z.

(** The [while True] loop of one ray of the star: step from [(r, c)] in
    direction [(dr, dc)], collect the dot found, leave the loop at the first
    cell without a dot.  Each round uses one unit of [fuel]; the answer is
    [None] when the fuel is used up before the loop is left. *)
Fixpoint ray (fuel : nat) (grid : DotGrid.t) (r c dr dc : Z)
    (line_points : list Point2D.t) : option (list Point2D.t) :=
  match fuel with
  | O => None
  | S fuel' =>
      let r := (r + dr)%Z in
      let c := (c + dc)%Z in
      match DotGrid.get_dot grid r c with
      | Some dot => ray fuel' grid r c dr dc (line_points ++ [dot])
      | None => Some line_points
      end
  end.

(** [None] stands for a ray loop that did not finish within [fuel]
    rounds. *)
Definition generate_kambi_kolam (fuel : nat) (self : t) (grid_size : Z)
    (line_style : string) : option KolamPattern.t :=
  let pattern :=
    KolamPattern.__init__
      ("Kambi Kolam " ++ str grid_size ++ "x" ++ str grid_size)%string
      KAMBI_KOLAM in
  let pattern := KolamPattern.set_grid pattern grid_size grid_size 1.0 in
  (* [pattern.grid] is the grid just set *)
  let grid := DotGrid.new grid_size grid_size 1.0 in
  let result :=
    if String.eqb line_style "geometric" then
      let pattern :=
        fold_left
          (fun pattern r =>
             let line_points := kambi_row grid grid_size r in
             match line_points with
             | [] => pattern
             | _ => KolamPattern.add_curve pattern line_points
             end)
          (range3 0 grid_size 2) pattern in
      let pattern :=
        fold_left
          (fun pattern c =>
             let line_points := kambi_column grid grid_size c in
             match line_points with
             | [] => pattern
             | _ => KolamPattern.add_curve pattern line_points
             end)
          (range3 0 grid_size 2) pattern in
      let pattern :=
        fold_left
          (fun pattern offset =>
             let line_points := kambi_diagonal grid grid_size offset in
             if (1 <? length line_points)%nat
             then KolamPattern.add_curve pattern line_points
             else pattern)
          (range3 (- (grid_size - 1)) grid_size 1) pattern in
      Some pattern
    else if String.eqb line_style "star" then
      let center_r := (grid_size / 2)%Z in
      let center_c := (grid_size / 2)%Z in
      match DotGrid.get_dot grid center_r center_c with
      | Some center_dot =>
          fold_left
            (fun (state : option KolamPattern.t) (d : Z * Z) =>
               match state with
               | None => None
               | Some pattern =>
                   match ray fuel grid center_r center_c (fst d) (snd d)
                             [center_dot] with
                   | None => None
                   | Some line_points =>
                       Some (if (1 <? length line_points)%nat
                             then KolamPattern.add_curve pattern line_points
                             else pattern)
                   end
               end)
            directions (Some pattern)
      | None => Some pattern
      end
    else Some pattern in
  option_map KolamPattern.analyze_symmetries result.

End KolamGenerator.

(** ** Specification-side vocabulary

    The definitions below are not code of the program: they phrase what the
    specification says, for comparison with the definitions above. *)

Module Spec.

(** The point at distance [r] and angle [angle] from [center]. *)
Definition polar (center : Point2D.t) (r angle : R) : Point2D.t :=
  Point2D.mk (Point2D.x center + r * cos angle)
             (Point2D.y center + r * sin angle).

(** A circle of radius 3 about the origin sampled at [n] evenly spaced
    angles [phase + j * (2*pi/n)], [j = 0 .. n-1]. *)
Definition circle_samples (n : nat) (phase : R) : list Point2D.t :=
  map (fun j => Point2D.mk (3 * cos (phase + INR j * (2 * PI / INR n)))
                           (3 * sin (phase + INR j * (2 * PI / INR n))))
      (seq 0 n).

(** The mirror image of [p] across the vertical line through [center]. *)
Definition mirror_v (center p : Point2D.t) : Point2D.t :=
  Point2D.mk (2 * Point2D.x center - Point2D.x p) (Point2D.y p).

(** The mirror image of [p] across the horizontal line through [center]. *)
Definition mirror_h (center p : Point2D.t) : Point2D.t :=
  Point2D.mk (Point2D.x p) (2 * Point2D.y center - Point2D.y p).

(** Inputs of moderate size: at most a million points, and no coordinate
    of a point or of the center above a million in absolute value.  On
    such inputs the rounding of the binary64 arithmetic of the symmetry
    tests (relative size [2^-53] per operation) moves the centroid and the
    transformed points by less than [0.01], an order of magnitude below the
    tolerance [0.1] of the tests. *)
Definition moderate (points : list Point2D.t) (center : Point2D.t) : Prop :=
  (Z.of_nat (length points) <= 1000000)%Z
  /\ Rabs (Point2D.x center) <= 1000000
  /\ Rabs (Point2D.y center) <= 1000000
  /\ Forall (fun p => Rabs (Point2D.x p) <= 1000000
                      /\ Rabs (Point2D.y p) <= 1000000) points.

(** A turn count whose product with 100 is clear of the next integer:
    [turns] is at most [10^4] and [100 * turns] lies at least [10^-9] below
    the integer above it.  The binary64 product [100 * turns] differs from
    the exact one by at most [2^-53] of its size, here less than
    [1.2 * 10^-10], and an integer is a binary64 number: for such [turns]
    the product as the program computes it and the exact product have the
    same integer part. *)
Definition clear_of_rounding (turns : R) : Prop :=
  turns <= 10000
  /\ 100 * turns <= IZR (Zfloor (100 * turns)) + 1 - 1 / 1000000000.

(** All points lie on one straight line: a line [y = a * x + b], or a
    vertical line [x = k]. *)
Definition collinear (points : list Point2D.t) : Prop :=
  (exists a b, forall p, In p points ->
                         Point2D.y p = a * Point2D.x p + b)
  \/ (exists k, forall p, In p points -> Point2D.x p = k).

(** The radius profile of a curve about its centroid, in curve order. *)
Definition radius_profile (curve : list Point2D.t) : list R :=
  map (fun p => Point2D.distance_to p (PatternRecognizer.centroid curve)) curve.

(** The local maxima of a profile read around a closed curve: the counting
    loop of the recognizer, run over every index, with the last sample as
    the neighbour before the first and the first as the neighbour after the
    last. *)
Definition cyclic_local_maxima (radii : list R) : Z :=
  let n := Z.of_nat (length radii) in
  fold_left
    (fun (local_maxima : Z) (i : Z) =>
       if gtb (nth (Z.to_nat i) radii 0)
              (nth (Z.to_nat ((i - 1) mod n)) radii 0)
          && gtb (nth (Z.to_nat i) radii 0)
                 (nth (Z.to_nat ((i + 1) mod n)) radii 0)
       then (local_maxima + 1)%Z else local_maxima)
    (range n) 0%Z.

(** Sample [i] of the rose with [n] petals has polar radius
    [|radius| * |cos (pi * (n * i) / 200)|].  [phase a] is the distance from
    [a] to the nearest multiple of 200, so that [|cos (pi * a / 200)|] is
    [cos (pi * phase a / 200)], a decreasing function of [phase a]:
    comparing two samples is comparing two phases. *)
Definition phase (a : Z) : Z := Z.min (a mod 200) (200 - a mod 200).

Definition sample_peak (n i : Z) : bool :=
  ((phase (n * i) <? phase (n * (i - 1)))
   && (phase (n * i) <? phase (n * (i + 1))))%Z.

Definition peaks_cyclic (n : Z) : Z :=
  Z.of_nat (length (filter (sample_peak n) (range 200))).

Definition peaks_open (n : Z) : Z :=
  Z.of_nat (length (filter (sample_peak n) (range3 1 199 1))).

(** The petal counts the counting argument is run for: even, from 4 to
    100, not a multiple of 16. *)
Definition countable_petals (n : Z) : bool :=
  (Z.even n && (4 <=? n) && (n <=? 100) && negb (n mod 16 =? 0))%Z.

Definition petal_range_checked : bool :=
  forallb (fun n => if countable_petals n
                    then ((peaks_cyclic n =? n) && (peaks_open n =? n - 1))%Z
                    else true)
          (range 101).

(** A rose that is not dwarfed by its position: the radius lies between
    [10^-6] and [10^6] and the center within [10^6] radii of the origin.
    Neighbouring samples of the profile then differ by more than
    [radius / 1000] at every local maximum, while the rounding of the
    binary64 arithmetic moves a sample by less than [radius / 10^7]. *)
Definition well_scaled (center : Point2D.t) (radius : R) : Prop :=
  1 / 1000000 <= radius <= 1000000
  /\ Rabs (Point2D.x center) <= 1000000 * radius
  /\ Rabs (Point2D.y center) <= 1000000 * radius.

(** [n] is [v] rounded to a nearest integer, whatever the rule for ties. *)
Definition is_rounding (v : R) (n : Z) : Prop :=
  Rabs (v - IZR n) <= 1 / 2.

(** The anchors the two nested loops of the basic variant run through, in
    visiting order, and the curve requested for one anchor. *)
Definition basic_anchors (rows cols : Z) : list (Z * Z) :=
  list_prod (range3 1 (rows - 1) 2) (range3 1 (cols - 1) 2).

Definition basic_loop (rows cols : Z) (a : Z * Z) : list Point2D.t :=
  CurveGenerator.generate_loop_around_dots
    (CurveGenerator.mk (DotGrid.new rows cols 2))
    (KolamGenerator.square_dots (fst a) (snd a)) 0.4.

(** The anchors of the basic dot-loop variant: cells whose row and column
    are odd and lie below [rows - 1] and [cols - 1]. *)
Definition is_basic_anchor (rows cols : Z) (a : Z * Z) : Prop :=
  (Z.odd (fst a) = true /\ Z.odd (snd a) = true
   /\ 0 < fst a < rows - 1 /\ 0 < snd a < cols - 1)%Z.


(** A cell resolves to a dot of the grid. *)
Definition in_bounds (g : DotGrid.t) (cell : Z * Z) : bool :=
  match DotGrid.get_dot g (fst cell) (snd cell) with
  | Some _ => true
  | None => false
  end.

(** The sweep rule, told from the cell that follows in the list: a
    following cell that resolves to a dot gives a three-quarter turn
    starting a quarter turn past the direction of that dot; otherwise the
    arc is a full turn from angle 0. *)
Definition sweep_rule (g : DotGrid.t) (dot : Point2D.t)
    (following : option (Z * Z)) : R * R :=
  match following with
  | Some cell =>
      match DotGrid.get_dot g (fst cell) (snd cell) with
      | Some next_dot =>
          let start :=
            atan2 (Point2D.y next_dot - Point2D.y dot)
                  (Point2D.x next_dot - Point2D.x dot) + PI / 2 in
          (start, start + 3 * PI / 2)
      | None => (0, 2 * PI)
      end
  | None => (0, 2 * PI)
  end.

(** The curve, cell by cell: nothing for a cell outside the grid, one arc
    for a cell inside. *)
Fixpoint loop_around_dots (g : DotGrid.t) (cells : list (Z * Z)) (radius : R)
    : list Point2D.t :=
  match cells with
  | [] => []
  | cell :: rest =>
      match DotGrid.get_dot g (fst cell) (snd cell) with
      | None => loop_around_dots g rest radius
      | Some dot =>
          let sw := sweep_rule g dot (hd_error rest) in
          CurveGenerator.arc dot radius (fst sw) (snd sw)
          ++ loop_around_dots g rest radius
      end
  end.

End Spec.

(** ** The pieces the generators assemble

    Names for the single curves built inside the loops of the mandala, knot
    and flower generators, with the expressions of the loop bodies. *)

Module Parts.

Definition mandala_center (rings : Z) : Point2D.t :=
  Point2D.mk (IZR (2 * rings + 3 - 1) * 0.6) (IZR (2 * rings + 3 - 1) * 0.6).

(** The ring curve of one ring of the mandala. *)
Definition mandala_ring (rings segments ring : Z) : list Point2D.t :=
  map (fun i =>
         let angle := IZR i * 2 * PI / IZR (segments * 8) in
         Point2D.mk
           (Point2D.x (mandala_center rings) + IZR ring * 0.8 * cos angle)
           (Point2D.y (mandala_center rings) + IZR ring * 0.8 * sin angle))
      (range (segments * 8)).

(** One spoke of one ring of the mandala. *)
Definition mandala_spoke (rings segments ring spoke : Z) : list Point2D.t :=
  map (fun t =>
         let r := IZR t / 9 * (IZR ring * 0.8) in
         Point2D.mk
           (Point2D.x (mandala_center rings)
            + r * cos (IZR spoke * 2 * PI / IZR segments))
           (Point2D.y (mandala_center rings)
            + r * sin (IZR spoke * 2 * PI / IZR segments)))
      (range 10).





Definition flower_center (layers : Z) : Point2D.t :=
  Point2D.mk (IZR (2 * layers + 5 - 1) * 0.5) (IZR (2 * layers + 5 - 1) * 0.5).

Definition flower_generator (layers : Z) : CurveGenerator.t :=
  CurveGenerator.mk (DotGrid.new (2 * layers + 5) (2 * layers + 5) 1.0).

(** The petal curve of one layer of the flower. *)
Definition flower_petal (num_petals layers layer : Z) : list Point2D.t :=
  CurveGenerator.generate_petal_pattern (flower_generator layers)
    (flower_center layers) (1.0 + IZR layer * 0.8) num_petals.

(** The spiral at the center of the flower. *)
Definition flower_spiral (layers : Z) : list Point2D.t :=
  CurveGenerator.generate_spiral_pattern (flower_generator layers)
    (flower_center layers) 0.5 1.5.

End Parts.

(** * Properties *)

(** ** Ranges and enumeration *)

Section Ranges.

Lemma range_length (n : Z) : length (range n) = Z.to_nat n.
Proof. unfold range. now rewrite length_map, length_seq. Qed.

Lemma range_nth_error (n : Z) (k : nat) :
  (k < Z.to_nat n)%nat -> nth_error (range n) k = Some (Z.of_nat k).
Proof.
  intros Hk. unfold range.
  rewrite nth_error_map, nth_error_seq.
  destruct (Nat.ltb_spec k (Z.to_nat n)); [reflexivity | lia].
Qed.

Lemma in_range (n i : Z) : In i (range n) <-> (0 <= i < n)%Z.
Proof.
  unfold range. rewrite in_map_iff. split.
  - intros [k [<- Hk]]. apply in_seq in Hk. lia.
  - intros Hi. exists (Z.to_nat i). split; [lia |]. apply in_seq. lia.
Qed.

Lemma range_nonpos (n : Z) : (n <= 0)%Z -> range n = [].
Proof.
  intros Hn. unfold range.
  replace (Z.to_nat n) with 0%nat by lia. reflexivity.
Qed.

Lemma range3_length (start stop step : Z) :
  length (range3 start stop step)
  = Z.to_nat ((stop - start + step - 1) / step).
Proof. unfold range3. now rewrite length_map, length_seq. Qed.

(** [range(start, stop, 2)] holds the numbers of [start]'s parity in
    [start, stop). *)
Lemma in_range3_step2 (start stop i : Z) :
  In i (range3 start stop 2)
  <-> (start <= i < stop)%Z /\ Z.odd i = Z.odd start.
Proof.
  unfold range3. rewrite in_map_iff. split.
  - intros [k [<- Hk]]. apply in_seq in Hk.
    assert (Hd : (0 <= (stop - start + 2 - 1) / 2)%Z) by lia.
    assert (Hk' : (Z.of_nat k < (stop - start + 2 - 1) / 2)%Z) by lia.
    split.
    + pose proof (Z.mul_div_le (stop - start + 2 - 1) 2 ltac:(lia)). lia.
    + apply Z.odd_add_mul_2.
  - intros [Hi Hodd].
    assert (Hev : Z.even (i - start) = true).
    { rewrite Z.even_sub, <- !Z.negb_odd, Hodd. now destruct (Z.odd start). }
    apply Z.even_spec in Hev. destruct Hev as [m Hm].
    exists (Z.to_nat m). split; [lia |].
    apply in_seq. split; [lia |].
    assert (m + 1 <= (stop - start + 2 - 1) / 2)%Z; [| lia].
    apply Z.div_le_lower_bound; lia.
Qed.

Lemma range3_step1 (start stop i : Z) :
  In i (range3 start stop 1) <-> (start <= i < stop)%Z.
Proof.
  unfold range3. rewrite in_map_iff, Z.div_1_r. split.
  - intros [k [<- Hk]]. apply in_seq in Hk. lia.
  - intros Hi. exists (Z.to_nat (i - start)). split; [lia |].
    apply in_seq. lia.
Qed.

Lemma enumerate_length {A : Type} (l : list A) :
  length (enumerate l) = length l.
Proof. unfold enumerate. rewrite length_combine, length_seq. lia. Qed.

End Ranges.

(** ** The dot grid *)

Section Grid.

Variables (rows cols : Z) (spacing : R).

Let g := DotGrid.new rows cols spacing.

(** Inside the bounds the lookup never leaves the matrix and returns the
    lattice point. *)
Lemma get_dot_in_bounds (row col : Z) :
  (0 <= row < rows)%Z -> (0 <= col < cols)%Z ->
  DotGrid.get_dot g row col
  = Some (Point2D.mk (IZR col * spacing) (IZR row * spacing)).
Proof.
  intros Hr Hc. unfold DotGrid.get_dot, g. simpl DotGrid.rows. simpl DotGrid.cols.
  replace (0 <=? row)%Z with true by lia.
  replace (row <? rows)%Z with true by lia.
  replace (0 <=? col)%Z with true by lia.
  replace (col <? cols)%Z with true by lia.
  cbn [andb]. unfold DotGrid.index, DotGrid.new, DotGrid._generate_grid.
  cbn [DotGrid.dots].
  rewrite nth_error_map, range_nth_error by lia. cbn [option_map].
  rewrite nth_error_map, range_nth_error by lia. cbn [option_map].
  now rewrite !Z2Nat.id by lia.
Qed.

Lemma get_dot_out_of_bounds (row col : Z) :
  ~ ((0 <= row < rows)%Z /\ (0 <= col < cols)%Z) ->
  DotGrid.get_dot g row col = None.
Proof.
  intros H. unfold DotGrid.get_dot, g. simpl DotGrid.rows. simpl DotGrid.cols.
  destruct (0 <=? row)%Z eqn:E1; [| reflexivity].
  destruct (row <? rows)%Z eqn:E2; [| reflexivity].
  destruct (0 <=? col)%Z eqn:E3; [| reflexivity].
  destruct (col <? cols)%Z eqn:E4; [| reflexivity].
  exfalso. apply H. lia.
Qed.

Lemma get_dot_some_iff (row col : Z) :
  (exists dot, DotGrid.get_dot g row col = Some dot)
  <-> (0 <= row < rows)%Z /\ (0 <= col < cols)%Z.
Proof.
  split.
  - intros [dot Hdot].
    destruct (Z_le_dec 0 row), (Z_lt_dec row rows),
             (Z_le_dec 0 col), (Z_lt_dec col cols);
      try (rewrite get_dot_out_of_bounds in Hdot by lia; discriminate).
    lia.
  - intros [Hr Hc]. eexists. now apply get_dot_in_bounds.
Qed.

End Grid.

(** ** Construction of a grid with a non-positive size *)

Lemma concat_all_nil {A : Type} (ll : list (list A)) :
  (forall l, In l ll -> l = []) -> concat ll = [].
Proof.
  induction ll as [| l ll IH]; intros H; [reflexivity |].
  cbn [concat]. rewrite (H l (or_introl eq_refl)).
  apply IH. intros l' Hl'. apply H. now right.
Qed.

(** C2, as stated, fails: constructing a grid with zero rows does not end
    in an error; the call completes. *)
Lemma DotGrid_zero_rows_no_error :
  ~ ((0 <= 0 \/ 5 <= 0)%Z -> raises (DotGrid.__init__ 0 5 1)).
Proof.
  intros H. destruct H as [e He]; [lia |]. discriminate He.
Qed.

(** C2, amended: constructing a grid with [rows <= 0] or [cols <= 0]
    raises nothing; it completes with a grid that stores the sizes as
    given and holds no dot at all, so every lookup answers [None]. *)
Theorem DotGrid_nonpositive_size_is_empty (rows cols : Z) (spacing : R) :
  (rows <= 0 \/ cols <= 0)%Z ->
  exists g,
    DotGrid.__init__ rows cols spacing = Ok g
    /\ DotGrid.rows g = rows /\ DotGrid.cols g = cols
    /\ DotGrid.get_all_dots g = []
    /\ forall row col, DotGrid.get_dot g row col = None.
Proof.
  intros Hsize. exists (DotGrid.new rows cols spacing).
  repeat split.
  - unfold DotGrid.get_all_dots, DotGrid.new, DotGrid._generate_grid.
    cbn [DotGrid.dots]. apply concat_all_nil.
    intros l Hl. apply in_map_iff in Hl. destruct Hl as [i [<- Hi]].
    apply in_range in Hi.
    destruct Hsize as [Hr | Hc]; [lia |].
    now rewrite (range_nonpos cols Hc).
  - intros row col. apply get_dot_out_of_bounds. lia.
Qed.

Lemma DotGrid_nonpositive_size_is_empty_witness :
  (0 <= 0 \/ 5 <= 0)%Z
  /\ exists g,
       DotGrid.__init__ 0 5 1 = Ok g
       /\ DotGrid.rows g = 0%Z /\ DotGrid.cols g = 5%Z
       /\ DotGrid.get_all_dots g = []
       /\ forall row col, DotGrid.get_dot g row col = None.
Proof.
  split.
  - left. apply Z.le_refl.
  - apply (DotGrid_nonpositive_size_is_empty 0 5 1). left. apply Z.le_refl.
Defined.

(** ** Bounding box *)

Section BoundingBox.

Lemma ltb_true_iff (a b : R) : ltb a b = true <-> a < b.
Proof. unfold ltb. destruct (Rlt_dec a b); split; intros; try easy. Qed.

Lemma ltb_false_iff (a b : R) : ltb a b = false <-> b <= a.
Proof.
  unfold ltb. destruct (Rlt_dec a b); split; intros; try easy; lra.
Qed.

Lemma min_fold_spec (t : list R) (a : R) :
  let m := fold_left (fun m v => if ltb v m then v else m) t a in
  In m (a :: t) /\ forall v, In v (a :: t) -> m <= v.
Proof.
  revert a. induction t as [| b t IH]; intros a; cbn [fold_left].
  - split; [now left |]. intros v [<- | []]. lra.
  - destruct (ltb b a) eqn:E.
    + apply ltb_true_iff in E. destruct (IH b) as [Hin Hle]. split.
      * right. exact Hin.
      * intros v [<- | Hv]; [| now apply Hle].
        specialize (Hle b (or_introl eq_refl)). lra.
    + apply ltb_false_iff in E. destruct (IH a) as [Hin Hle]. split.
      * destruct Hin as [<- | Hin]; [now left | right; now right].
      * intros v [<- | [<- | Hv]].
        -- apply Hle. now left.
        -- specialize (Hle a (or_introl eq_refl)). lra.
        -- apply Hle. now right.
Qed.

Lemma max_fold_spec (t : list R) (a : R) :
  let m := fold_left (fun m v => if gtb v m then v else m) t a in
  In m (a :: t) /\ forall v, In v (a :: t) -> v <= m.
Proof.
  revert a. induction t as [| b t IH]; intros a; cbn [fold_left].
  - split; [now left |]. intros v [<- | []]. lra.
  - destruct (gtb b a) eqn:E; unfold gtb in E.
    + apply ltb_true_iff in E. destruct (IH b) as [Hin Hle]. split.
      * right. exact Hin.
      * intros v [<- | Hv]; [| now apply Hle].
        specialize (Hle b (or_introl eq_refl)). lra.
    + apply ltb_false_iff in E. destruct (IH a) as [Hin Hle]. split.
      * destruct Hin as [<- | Hin]; [now left | right; now right].
      * intros v [<- | [<- | Hv]].
        -- apply Hle. now left.
        -- specialize (Hle a (or_introl eq_refl)). lra.
        -- apply Hle. now right.
Qed.

Lemma min_ok (l : list R) :
  l <> [] ->
  exists m, min l = Ok m /\ In m l /\ forall v, In v l -> m <= v.
Proof.
  destruct l as [| a t]; [congruence |]. intros _.
  eexists. split; [reflexivity |]. apply min_fold_spec.
Qed.

Lemma max_ok (l : list R) :
  l <> [] ->
  exists m, max l = Ok m /\ In m l /\ forall v, In v l -> v <= m.
Proof.
  destruct l as [| a t]; [congruence |]. intros _.
  eexists. split; [reflexivity |]. apply max_fold_spec.
Qed.

(** With no curve at all the box is the origin twice. *)
Lemma get_bounding_box_no_curves (p : KolamPattern.t) :
  KolamPattern.curves p = [] ->
  KolamPattern.get_bounding_box p = Ok (Point2D.mk 0 0, Point2D.mk 0 0).
Proof. intros H. unfold KolamPattern.get_bounding_box. now rewrite H. Qed.

(** With at least one point the box is returned and encloses every point;
    its sides are coordinates of points of the pattern. *)
Lemma get_bounding_box_some_point (p : KolamPattern.t) :
  concat (KolamPattern.curves p) <> [] ->
  exists lo hi,
    KolamPattern.get_bounding_box p = Ok (lo, hi)
    /\ (forall q, In q (concat (KolamPattern.curves p)) ->
          Point2D.x lo <= Point2D.x q <= Point2D.x hi
          /\ Point2D.y lo <= Point2D.y q <= Point2D.y hi)
    /\ In (Point2D.x lo) (map Point2D.x (concat (KolamPattern.curves p)))
    /\ In (Point2D.x hi) (map Point2D.x (concat (KolamPattern.curves p)))
    /\ In (Point2D.y lo) (map Point2D.y (concat (KolamPattern.curves p)))
    /\ In (Point2D.y hi) (map Point2D.y (concat (KolamPattern.curves p))).
Proof.
  intros Hne. unfold KolamPattern.get_bounding_box.
  destruct (KolamPattern.curves p) as [| c cs] eqn:Hc; [now elim Hne |].
  set (pts := concat (c :: cs)) in *.
  assert (Hx : map Point2D.x pts <> []) by (destruct pts; [congruence | discriminate]).
  assert (Hy : map Point2D.y pts <> []) by (destruct pts; [congruence | discriminate]).
  destruct (min_ok _ Hx) as [x0 [E1 [I1 L1]]].
  destruct (max_ok _ Hx) as [x1 [E2 [I2 L2]]].
  destruct (min_ok _ Hy) as [y0 [E3 [I3 L3]]].
  destruct (max_ok _ Hy) as [y1 [E4 [I4 L4]]].
  exists (Point2D.mk x0 y0), (Point2D.mk x1 y1).
  rewrite E1, E2, E3, E4. cbn [bind Point2D.x Point2D.y].
  repeat split; try assumption.
  - apply L1. now apply in_map.
  - apply L2. now apply in_map.
  - apply L3. now apply in_map.
  - apply L4. now apply in_map.
Qed.

(** The call raises exactly when curves are stored but none has a point. *)
Lemma get_bounding_box_raises_iff (p : KolamPattern.t) :
  raises (KolamPattern.get_bounding_box p)
  <-> KolamPattern.curves p <> [] /\ concat (KolamPattern.curves p) = [].
Proof.
  split.
  - intros [e He].
    destruct (KolamPattern.curves p) as [| c cs] eqn:Hc.
    + rewrite get_bounding_box_no_curves in He by assumption. discriminate.
    + split; [discriminate |].
      destruct (concat (c :: cs)) as [| q qs] eqn:Hq; [reflexivity |].
      destruct (get_bounding_box_some_point p) as [lo [hi [E _]]].
      * rewrite Hc, Hq. discriminate.
      * rewrite E in He. discriminate.
  - intros [Hne Hnil]. exists ValueError.
    unfold KolamPattern.get_bounding_box.
    destruct (KolamPattern.curves p) as [| c cs]; [now elim Hne |].
    rewrite Hnil. reflexivity.
Qed.

(** The smallest pattern that raises: one stored curve without points. *)
Lemma get_bounding_box_one_empty_curve :
  KolamPattern.get_bounding_box
    (KolamPattern.add_curve (KolamPattern.__init__ "p" PULLI_KOLAM) [])
  = Raise ValueError.
Proof. reflexivity. Qed.

(** With no segment, the mandala generator stores one ring curve without
    points and nothing else. *)
Lemma mandala_no_segment_curves :
  KolamPattern.curves
    (KolamGenerator.generate_mandala_kolam KolamGenerator.__init__ 1 0)
  = [[]].
Proof.
  unfold KolamGenerator.generate_mandala_kolam. cbv zeta.
  change (range3 1 (1 + 1) 1) with [1%Z].
  change (range (0 * 8)) with (@nil Z).
  change (range 0) with (@nil Z).
  cbn [fold_left map].
  unfold KolamPattern.analyze_symmetries.
  cbn [KolamPattern.curves KolamPattern.add_curve KolamPattern.set_grid
       KolamPattern.__init__ app concat].
  reflexivity.
Qed.

(** C3: the code departs from the claim.  The pattern returned by the
    mandala generator for one ring and no segment holds a single curve
    without points; [get_bounding_box] passes its guard on the curve list
    and raises [ValueError] (from [min] over an empty sequence) instead of
    returning a box. *)
Theorem get_bounding_box_empty_curve_raises :
  KolamPattern.get_bounding_box
    (KolamGenerator.generate_mandala_kolam KolamGenerator.__init__ 1 0)
  = Raise ValueError.
Proof.
  unfold KolamPattern.get_bounding_box.
  rewrite mandala_no_segment_curves. reflexivity.
Qed.

End BoundingBox.

(** ** The cached symmetry list *)

Section Symmetries.

Lemma symmetries_analyze_some_point (p : KolamPattern.t) :
  concat (KolamPattern.curves p) <> [] ->
  KolamPattern.symmetries (KolamPattern.analyze_symmetries p)
  = SymmetryAnalyzer.detect_symmetries (concat (KolamPattern.curves p)).
Proof.
  intros H. unfold KolamPattern.analyze_symmetries.
  destruct (concat (KolamPattern.curves p)); [congruence | reflexivity].
Qed.

Lemma symmetries_analyze_no_point (p : KolamPattern.t) :
  concat (KolamPattern.curves p) = [] ->
  KolamPattern.symmetries (KolamPattern.analyze_symmetries p)
  = KolamPattern.symmetries p.
Proof.
  intros H. unfold KolamPattern.analyze_symmetries. now rewrite H.
Qed.

(** A list that was empty before stays in agreement with detection. *)
Lemma analyze_symmetries_fresh (p : KolamPattern.t) :
  KolamPattern.symmetries p = [] ->
  KolamPattern.symmetries (KolamPattern.analyze_symmetries p)
  = SymmetryAnalyzer.detect_symmetries (concat (KolamPattern.curves p)).
Proof.
  intros H. destruct (concat (KolamPattern.curves p)) eqn:E.
  - now rewrite symmetries_analyze_no_point.
  - rewrite symmetries_analyze_some_point; rewrite E; [reflexivity | discriminate].
Qed.

Lemma analyze_symmetries_idempotent (p : KolamPattern.t) :
  KolamPattern.analyze_symmetries (KolamPattern.analyze_symmetries p)
  = KolamPattern.analyze_symmetries p.
Proof.
  unfold KolamPattern.analyze_symmetries.
  destruct (concat (KolamPattern.curves p)) eqn:E; [now rewrite E |].
  cbn [KolamPattern.curves]. now rewrite E.
Qed.

(** What one call does on any record: [analyze_symmetries] leaves the
    curves alone; when the curves hold at least one point the cached list
    becomes the detection result on the union of their points, and when
    they hold none the cached list is left as it was. *)
Theorem analyze_symmetries_spec (p : KolamPattern.t) :
  let p' := KolamPattern.analyze_symmetries p in
  let all_points := concat (KolamPattern.curves p) in
  KolamPattern.curves p' = KolamPattern.curves p
  /\ KolamPattern.symmetries p'
     = match all_points with
       | [] => KolamPattern.symmetries p
       | _ => SymmetryAnalyzer.detect_symmetries all_points
       end.
Proof.
  unfold KolamPattern.analyze_symmetries.
  destruct (concat (KolamPattern.curves p)); split; reflexivity.
Qed.

(** While the curves of a pattern hold no point its cached list is still
    the empty list of the constructor: curves are only ever appended, and
    the list is only written when a point is there. *)
Lemma reachable_no_point_no_symmetry (p : KolamPattern.t) :
  KolamPattern.reachable p ->
  concat (KolamPattern.curves p) = [] -> KolamPattern.symmetries p = [].
Proof.
  intros Hp. induction Hp as [name kolam_type | p rows cols spacing Hp IH
                              | p c Hp IH | p Hp IH]; intros Hc.
  - reflexivity.
  - apply IH. exact Hc.
  - apply IH. cbn [KolamPattern.add_curve KolamPattern.curves] in Hc.
    rewrite concat_app in Hc. now apply app_eq_nil in Hc.
  - assert (Hc' : concat (KolamPattern.curves p) = []).
    { unfold KolamPattern.analyze_symmetries in Hc.
      destruct (concat (KolamPattern.curves p)) eqn:E; [reflexivity |].
      cbn [KolamPattern.curves] in Hc. congruence. }
    rewrite symmetries_analyze_no_point by exact Hc'. now apply IH.
Qed.

(** Every list of curves is the curve list of a pattern built by the
    constructor and [add_curve]. *)
Lemma reachable_any_curves (cs : list (list Point2D.t)) :
  exists p, KolamPattern.reachable p /\ KolamPattern.curves p = cs.
Proof.
  induction cs as [| c cs IH] using rev_ind.
  - exists (KolamPattern.__init__ "" PULLI_KOLAM).
    split; [constructor | reflexivity].
  - destruct IH as [p [Hp Hc]]. exists (KolamPattern.add_curve p c).
    split; [now constructor |].
    cbn [KolamPattern.add_curve KolamPattern.curves]. now rewrite Hc.
Qed.

Lemma analyze_symmetries_fresh_or_some (p : KolamPattern.t) :
  KolamPattern.reachable p ->
  KolamPattern.symmetries (KolamPattern.analyze_symmetries p)
  = SymmetryAnalyzer.detect_symmetries (concat (KolamPattern.curves p)).
Proof.
  intros Hp. destruct (concat (KolamPattern.curves p)) eqn:E.
  - rewrite symmetries_analyze_no_point by exact E.
    now rewrite (reachable_no_point_no_symmetry p Hp E).
  - rewrite <- E. apply symmetries_analyze_some_point. rewrite E. discriminate.
Qed.

(** C4: take any pattern made by the constructor, [set_grid], [add_curve]
    and [analyze_symmetries], called in any order and any number of times.
    After an invocation of [analyze_symmetries] its curves are the ones it
    had, and its [symmetries] field is the result of symmetry detection on
    the union of the points of these curves.  This includes the patterns
    whose curves hold no point at all: their field is still the empty list
    of the constructor, which is what detection answers on no points. *)
Theorem analyze_symmetries_reflects_curves (p : KolamPattern.t) :
  KolamPattern.reachable p ->
  let p' := KolamPattern.analyze_symmetries p in
  KolamPattern.curves p' = KolamPattern.curves p
  /\ KolamPattern.symmetries p'
     = SymmetryAnalyzer.detect_symmetries (concat (KolamPattern.curves p')).
Proof.
  intros Hp. cbv zeta.
  assert (Hc : KolamPattern.curves (KolamPattern.analyze_symmetries p)
               = KolamPattern.curves p).
  { unfold KolamPattern.analyze_symmetries.
    now destruct (concat (KolamPattern.curves p)). }
  split; [exact Hc |]. rewrite Hc.
  apply analyze_symmetries_fresh_or_some. exact Hp.
Qed.

Lemma analyze_symmetries_reflects_curves_witness :
  let p := KolamPattern.add_curve (KolamPattern.__init__ "p" PULLI_KOLAM) [] in
  KolamPattern.reachable p
  /\ KolamPattern.curves (KolamPattern.analyze_symmetries p) = [[]]
  /\ KolamPattern.symmetries (KolamPattern.analyze_symmetries p)
     = SymmetryAnalyzer.detect_symmetries [].
Proof.
  cbv zeta.
  assert (Hp : KolamPattern.reachable
                 (KolamPattern.add_curve
                    (KolamPattern.__init__ "p" PULLI_KOLAM) []))
    by (apply KolamPattern.reach_add_curve, KolamPattern.reach_init).
  split; [exact Hp |].
  exact (analyze_symmetries_reflects_curves _ Hp).
Defined.

End Symmetries.

(** ** The basic dot-loop variant *)

Section PulliBasic.

Variable self : KolamGenerator.t.

Lemma curves_add_curve (p : KolamPattern.t) (c : list Point2D.t) :
  KolamPattern.curves (KolamPattern.add_curve p c)
  = KolamPattern.curves p ++ [c].
Proof. reflexivity. Qed.

Lemma curves_analyze_symmetries (p : KolamPattern.t) :
  KolamPattern.curves (KolamPattern.analyze_symmetries p)
  = KolamPattern.curves p.
Proof.
  unfold KolamPattern.analyze_symmetries.
  now destruct (concat (KolamPattern.curves p)).
Qed.

(** A loop that appends one curve per accepted element appends, in order,
    the curves of the accepted elements. *)
Lemma curves_fold_add {A : Type} (f : A -> list Point2D.t) (cond : A -> bool)
    (l : list A) (p : KolamPattern.t) :
  KolamPattern.curves
    (fold_left (fun p a => if cond a then KolamPattern.add_curve p (f a) else p)
               l p)
  = KolamPattern.curves p ++ map f (filter cond l).
Proof.
  revert p. induction l as [| a l IH]; intros p; cbn [fold_left filter].
  - now rewrite app_nil_r.
  - rewrite IH. destruct (cond a); [| reflexivity].
    rewrite curves_add_curve, <- app_assoc. reflexivity.
Qed.

Lemma curves_fold_fold_add {A B : Type} (f : A -> B -> list Point2D.t)
    (cond : A -> B -> bool) (la : list A) (lb : list B) (p : KolamPattern.t) :
  KolamPattern.curves
    (fold_left
       (fun p a =>
          fold_left
            (fun p b => if cond a b then KolamPattern.add_curve p (f a b) else p)
            lb p)
       la p)
  = KolamPattern.curves p
    ++ flat_map (fun a => map (f a) (filter (cond a) lb)) la.
Proof.
  revert p. induction la as [| a la IH]; intros p; cbn [fold_left flat_map].
  - now rewrite app_nil_r.
  - rewrite IH, curves_fold_add, <- app_assoc. reflexivity.
Qed.

Lemma filter_all {A : Type} (cond : A -> bool) (l : list A) :
  (forall a, In a l -> cond a = true) -> filter cond l = l.
Proof.
  induction l as [| a l IH]; intros H; [reflexivity |].
  cbn [filter]. rewrite (H a (or_introl eq_refl)), IH; [reflexivity |].
  intros b Hb. apply H. now right.
Qed.

Lemma map_flat_map {A B C : Type} (g : B -> C) (h : A -> list B)
    (l : list A) :
  map g (flat_map h l) = flat_map (fun a => map g (h a)) l.
Proof.
  induction l as [| a l IH]; [reflexivity |].
  cbn [flat_map]. now rewrite map_app, IH.
Qed.

Lemma pulli_basic_curves (rows cols : Z) :
  KolamPattern.curves
    (KolamGenerator.generate_pulli_kolam self rows cols "basic")
  = map (Spec.basic_loop rows cols) (Spec.basic_anchors rows cols).
Proof.
  unfold KolamGenerator.generate_pulli_kolam.
  rewrite curves_analyze_symmetries.
  change (String.eqb "basic" "basic") with true. cbv iota.
  rewrite (curves_fold_fold_add
             (fun r c =>
                CurveGenerator.generate_loop_around_dots
                  (CurveGenerator.mk (DotGrid.new rows cols 2))
                  (KolamGenerator.square_dots r c) 0.4)
             (fun r c => ((r <? rows - 1) && (c <? cols - 1))%Z)).
  cbn [KolamPattern.curves KolamPattern.set_grid KolamPattern.__init__ app].
  unfold Spec.basic_anchors. rewrite list_prod_as_flat_map, map_flat_map.
  rewrite !flat_map_concat_map. f_equal.
  apply map_ext_in. intros r Hr.
  apply in_range3_step2 in Hr.
  rewrite filter_all.
  - now rewrite map_map.
  - intros c Hc. apply in_range3_step2 in Hc.
    apply andb_true_iff. split; apply Z.ltb_lt; lia.
Qed.

Lemma NoDup_range3 (start stop step : Z) :
  (0 < step)%Z -> NoDup (range3 start stop step).
Proof.
  intros Hs. unfold range3. apply Injective_map_NoDup.
  - intros a b Hab. nia.
  - apply seq_NoDup.
Qed.

Lemma NoDup_list_prod {A B : Type} (l : list A) (l' : list B) :
  NoDup l -> NoDup l' -> NoDup (list_prod l l').
Proof.
  intros Hl Hl'. induction Hl as [| a l Ha Hl IH]; cbn [list_prod].
  - constructor.
  - apply NoDup_app.
    + apply Injective_map_NoDup; [| exact Hl'].
      intros b b' E. now inversion E.
    + exact IH.
    + intros [a' b] Hin Hin'. apply in_map_iff in Hin.
      destruct Hin as [b' [E _]]. inversion E; subst.
      apply in_prod_iff in Hin'. now destruct Hin'.
Qed.

Lemma basic_anchors_spec (rows cols : Z) (a : Z * Z) :
  In a (Spec.basic_anchors rows cols) <-> Spec.is_basic_anchor rows cols a.
Proof.
  destruct a as [r c]. unfold Spec.basic_anchors, Spec.is_basic_anchor.
  rewrite in_prod_iff, !in_range3_step2. cbn [fst snd].
  change (Z.odd 1) with true. intuition lia.
Qed.

End PulliBasic.

(** ** Looping around dots *)

Section Loop.

Variable g : DotGrid.t.

Let cg := CurveGenerator.mk g.

Lemma arc_length (dot : Point2D.t) (radius a b : R) :
  length (CurveGenerator.arc dot radius a b) = 20%nat.
Proof. unfold CurveGenerator.arc. now rewrite length_map, range_length. Qed.

(** The [j]-th sample of an arc sits at angle [a + (b - a) * j / 19]. *)
Lemma arc_nth_error (dot : Point2D.t) (radius a b : R) (j : nat) :
  (j < 20)%nat ->
  nth_error (CurveGenerator.arc dot radius a b) j
  = Some (Point2D.mk
            (Point2D.x dot + radius * cos (a + (b - a) * INR j / 19))
            (Point2D.y dot + radius * sin (a + (b - a) * INR j / 19))).
Proof.
  intros Hj. unfold CurveGenerator.arc.
  rewrite nth_error_map, range_nth_error by (simpl; lia).
  cbn [option_map]. rewrite <- INR_IZR_INZ.
  change (IZR (20 - 1)) with 19. reflexivity.
Qed.

Lemma distance_on_circle (dot : Point2D.t) (radius angle : R) :
  Point2D.distance_to
    (Point2D.mk (Point2D.x dot + radius * cos angle)
                (Point2D.y dot + radius * sin angle)) dot
  = Rabs radius.
Proof.
  unfold Point2D.distance_to. cbn [Point2D.x Point2D.y].
  replace ((Point2D.x dot + radius * cos angle - Point2D.x dot) ^ 2
           + (Point2D.y dot + radius * sin angle - Point2D.y dot) ^ 2)
    with (radius ^ 2 * ((sin angle) ^ 2 + (cos angle) ^ 2)) by ring.
  replace ((sin angle) ^ 2 + (cos angle) ^ 2) with 1.
  - rewrite Rmult_1_r. replace (radius ^ 2) with (Rsqr radius) by (unfold Rsqr; ring).
    apply sqrt_Rsqr_abs.
  - pose proof (sin2_cos2 angle) as H. unfold Rsqr in H. lra.
Qed.

(** Every sample of an arc lies on the circle of the given radius around
    the dot. *)
Lemma arc_on_circle (dot : Point2D.t) (radius a b : R) (p : Point2D.t) :
  In p (CurveGenerator.arc dot radius a b) ->
  Point2D.distance_to p dot = Rabs radius.
Proof.
  unfold CurveGenerator.arc. intros Hp. apply in_map_iff in Hp.
  destruct Hp as [j [<- _]]. apply distance_on_circle.
Qed.

(** The angle choice of the loop body is the sweep rule applied to the
    entry that follows in the list. *)
Lemma sweep_is_rule (cells : list (Z * Z)) (i : nat) (dot : Point2D.t) :
  CurveGenerator.sweep cg cells i dot
  = Spec.sweep_rule g dot (nth_error cells (i + 1)).
Proof.
  unfold CurveGenerator.sweep, Spec.sweep_rule. cbn [CurveGenerator.grid cg].
  destruct (Z.ltb_spec (Z.of_nat i) (Z.of_nat (length cells) - 1)) as [Hlt | Hge].
  - destruct (nth_error cells (i + 1)) as [[row' col'] |]; reflexivity.
  - assert (Hnone : nth_error cells (i + 1) = None)
      by (apply nth_error_None; lia).
    now rewrite Hnone.
Qed.

Lemma loop_body_from (pre l : list (Z * Z)) (radius : R) :
  flat_map
    (fun entry : nat * (Z * Z) =>
       let '(i, (row, col)) := entry in
       match DotGrid.get_dot (CurveGenerator.grid cg) row col with
       | None => []
       | Some dot =>
           let '(start_angle, end_angle) :=
             CurveGenerator.sweep cg (pre ++ l) i dot in
           CurveGenerator.arc dot radius start_angle end_angle
       end)
    (combine (seq (length pre) (length l)) l)
  = Spec.loop_around_dots g l radius.
Proof.
  revert pre. induction l as [| [row col] rest IH]; intros pre; [reflexivity |].
  cbn [length seq combine flat_map Spec.loop_around_dots fst snd].
  specialize (IH (pre ++ [(row, col)])).
  rewrite <- app_assoc, length_app in IH. cbn [length app] in IH.
  rewrite Nat.add_1_r in IH. rewrite IH.
  cbn [CurveGenerator.grid cg].
  destruct (DotGrid.get_dot g row col) as [dot |]; [| reflexivity].
  rewrite sweep_is_rule.
  replace (nth_error (pre ++ (row, col) :: rest) (length pre + 1))
    with (hd_error rest).
  - now destruct (Spec.sweep_rule g dot (hd_error rest)).
  - rewrite nth_error_app2 by lia.
    replace (length pre + 1 - length pre)%nat with 1%nat by lia.
    now destruct rest.
Qed.

(** The generated curve is the cell-by-cell description. *)
Lemma generate_loop_is_spec (cells : list (Z * Z)) (radius : R) :
  CurveGenerator.generate_loop_around_dots cg cells radius
  = Spec.loop_around_dots g cells radius.
Proof.
  unfold CurveGenerator.generate_loop_around_dots.
  destruct cells as [| c cells']; [reflexivity |].
  apply (loop_body_from [] (c :: cells') radius).
Qed.

Lemma spec_loop_length (cells : list (Z * Z)) (radius : R) :
  length (Spec.loop_around_dots g cells radius)
  = (20 * length (filter (Spec.in_bounds g) cells))%nat.
Proof.
  induction cells as [| cell rest IH]; [reflexivity |].
  cbn [Spec.loop_around_dots filter]. unfold Spec.in_bounds at 1.
  destruct (DotGrid.get_dot g (fst cell) (snd cell)) as [dot |].
  - rewrite length_app, arc_length, IH. cbn [length]. lia.
  - exact IH.
Qed.

(** The arc of a cell inside the grid, located in the curve: the arcs of
    the cells before it come first, the curve of the cells after it
    follows. *)
Lemma spec_loop_split (pre rest : list (Z * Z)) (cell : Z * Z)
    (dot : Point2D.t) (radius : R) :
  DotGrid.get_dot g (fst cell) (snd cell) = Some dot ->
  exists before,
    Spec.loop_around_dots g (pre ++ cell :: rest) radius
    = before
      ++ CurveGenerator.arc dot radius
           (fst (Spec.sweep_rule g dot (hd_error rest)))
           (snd (Spec.sweep_rule g dot (hd_error rest)))
      ++ Spec.loop_around_dots g rest radius
    /\ length before = (20 * length (filter (Spec.in_bounds g) pre))%nat.
Proof.
  intros Hdot. induction pre as [| c pre IH].
  - exists []. cbn [app Spec.loop_around_dots length filter].
    rewrite Hdot. split; [reflexivity | lia].
  - destruct IH as [before [E L]].
    cbn [app Spec.loop_around_dots filter]. unfold Spec.in_bounds at 1.
    destruct (DotGrid.get_dot g (fst c) (snd c)) as [d |].
    + eexists. rewrite E, app_assoc. split; [reflexivity |].
      rewrite length_app, arc_length, L. cbn [length]. lia.
    + exists before. now split.
Qed.

End Loop.

(** C6, as stated, fails: on a 2x2 grid the list [(0,0); (5,5)] gives the
    first cell a following cell, yet the arc chosen and emitted for it is the
    full turn from angle 0, not a three-quarter turn. *)
Lemma loop_following_cell_outside_is_full_turn :
  let g := DotGrid.new 2 2 1 in
  let cg := CurveGenerator.mk g in
  let cells := [(0, 0); (5, 5)]%Z in
  let dot := Point2D.mk (IZR 0 * 1) (IZR 0 * 1) in
  nth_error cells 1 = Some (5, 5)%Z
  /\ DotGrid.get_dot g 0 0 = Some dot
  /\ CurveGenerator.sweep cg cells 0 dot = (0, 2 * PI)
  /\ CurveGenerator.generate_loop_around_dots cg cells 0.3
     = CurveGenerator.arc dot 0.3 0 (2 * PI)
  /\ 2 * PI - 0 <> 3 * PI / 2.
Proof.
  cbv zeta.
  assert (Hin : DotGrid.get_dot (DotGrid.new 2 2 1) 0 0
                = Some (Point2D.mk (IZR 0 * 1) (IZR 0 * 1)))
    by (apply get_dot_in_bounds; lia).
  assert (Hout : DotGrid.get_dot (DotGrid.new 2 2 1) 5 5 = None)
    by (apply get_dot_out_of_bounds; lia).
  split; [reflexivity |]. split; [exact Hin |]. split; [| split].
  - rewrite sweep_is_rule. cbn [nth_error Nat.add Spec.sweep_rule fst snd].
    now rewrite Hout.
  - rewrite generate_loop_is_spec.
    cbn [Spec.loop_around_dots fst snd hd_error Spec.sweep_rule].
    rewrite Hin, Hout. cbn [fst snd Spec.loop_around_dots].
    now rewrite app_nil_r.
  - pose proof PI_RGT_0. lra.
Qed.

(** C6, amended: on every grid and for every list of cells and radius, the
    curve is, cell by cell in list order, nothing for a cell outside the
    grid and one arc of 20 samples on the circle of the given radius around
    the dot of a cell inside; sample [j] sits at angle
    [start + (end - start) * j / 19].  When the following cell exists and
    lies inside the grid, [start = atan2(dy, dx) + pi/2] toward its dot and
    [end = start + 3*pi/2]; for the last cell, and for a cell whose
    following cell lies outside the grid, the arc runs from 0 to [2*pi]. *)
Theorem generate_loop_around_dots_cellwise (rows cols : Z) (spacing : R)
    (cells : list (Z * Z)) (radius : R) :
  let g := DotGrid.new rows cols spacing in
  let curve :=
    CurveGenerator.generate_loop_around_dots (CurveGenerator.mk g) cells radius in
  curve = Spec.loop_around_dots g cells radius
  /\ length curve = (20 * length (filter (Spec.in_bounds g) cells))%nat
  /\ (forall cell,
        Spec.in_bounds g cell = true
        <-> (0 <= fst cell < rows)%Z /\ (0 <= snd cell < cols)%Z)
  /\ (forall dot a b,
        length (CurveGenerator.arc dot radius a b) = 20%nat
        /\ (forall p, In p (CurveGenerator.arc dot radius a b) ->
                      Point2D.distance_to p dot = Rabs radius)
        /\ (forall j, (j < 20)%nat ->
               nth_error (CurveGenerator.arc dot radius a b) j
               = Some (Point2D.mk
                         (Point2D.x dot
                          + radius * cos (a + (b - a) * INR j / 19))
                         (Point2D.y dot
                          + radius * sin (a + (b - a) * INR j / 19))))).
Proof.
  cbv zeta. split; [| split; [| split]].
  - apply generate_loop_is_spec.
  - rewrite generate_loop_is_spec. apply spec_loop_length.
  - intros cell. unfold Spec.in_bounds. split.
    + intros H.
      apply (proj1 (get_dot_some_iff rows cols spacing (fst cell) (snd cell))).
      destruct (DotGrid.get_dot (DotGrid.new rows cols spacing)
                  (fst cell) (snd cell)) as [dot |]; [| discriminate].
      now exists dot.
    + intros [Hr Hc].
      now rewrite (get_dot_in_bounds rows cols spacing) by assumption.
  - intros dot a b. split; [| split].
    + apply arc_length.
    + apply arc_on_circle.
    + apply arc_nth_error.
Qed.

(** C10: a cell inside the grid whose following cell lies outside gets the
    full turn from angle 0, the sweep a last cell gets, and that arc is what
    the curve holds at the cell's place. *)
Theorem loop_successor_outside_full_turn (rows cols : Z) (spacing : R)
    (pre post : list (Z * Z)) (row col row' col' : Z) (dot : Point2D.t)
    (radius : R) :
  let g := DotGrid.new rows cols spacing in
  let cg := CurveGenerator.mk g in
  let cells := pre ++ (row, col) :: (row', col') :: post in
  DotGrid.get_dot g row col = Some dot ->
  DotGrid.get_dot g row' col' = None ->
  CurveGenerator.sweep cg cells (length pre) dot = (0, 2 * PI)
  /\ CurveGenerator.sweep cg (pre ++ [(row, col)]) (length pre) dot
     = (0, 2 * PI)
  /\ exists before after,
       CurveGenerator.generate_loop_around_dots cg cells radius
       = before ++ CurveGenerator.arc dot radius 0 (2 * PI) ++ after
       /\ length before = (20 * length (filter (Spec.in_bounds g) pre))%nat
       /\ after
          = CurveGenerator.generate_loop_around_dots cg ((row', col') :: post)
              radius.
Proof.
  cbv zeta. intros Hdot Hnext. repeat split.
  - rewrite sweep_is_rule, nth_error_app2 by lia.
    replace (length pre + 1 - length pre)%nat with 1%nat by lia.
    cbn [nth_error Spec.sweep_rule fst snd]. now rewrite Hnext.
  - rewrite sweep_is_rule, nth_error_app2 by lia.
    replace (length pre + 1 - length pre)%nat with 1%nat by lia.
    reflexivity.
  - destruct (spec_loop_split (DotGrid.new rows cols spacing) pre
                ((row', col') :: post) (row, col) dot radius Hdot)
      as [before [E L]].
    exists before. eexists. rewrite !generate_loop_is_spec. rewrite E.
    cbn [hd_error Spec.sweep_rule fst snd]. rewrite Hnext. cbn [fst snd].
    repeat split. exact L.
Qed.

Lemma loop_successor_outside_full_turn_witness :
  let g := DotGrid.new 2 2 1 in
  let cg := CurveGenerator.mk g in
  let dot := Point2D.mk (IZR 0 * 1) (IZR 0 * 1) in
  let cells := [] ++ (0, 0)%Z :: (5, 5)%Z :: [] in
  DotGrid.get_dot g 0 0 = Some dot
  /\ DotGrid.get_dot g 5 5 = None
  /\ CurveGenerator.sweep cg cells (length (@nil (Z * Z))) dot = (0, 2 * PI)
  /\ CurveGenerator.sweep cg ([] ++ [(0, 0)%Z]) (length (@nil (Z * Z))) dot
     = (0, 2 * PI)
  /\ exists before after,
       CurveGenerator.generate_loop_around_dots cg cells 0.3
       = before ++ CurveGenerator.arc dot 0.3 0 (2 * PI) ++ after
       /\ length before
          = (20 * length (filter (Spec.in_bounds g) []))%nat
       /\ after
          = CurveGenerator.generate_loop_around_dots cg ((5, 5)%Z :: []) 0.3.
Proof.
  cbv zeta. split; [reflexivity |]. split; [reflexivity |].
  apply (loop_successor_outside_full_turn 2 2 1 [] [] 0 0 5 5
           (Point2D.mk (IZR 0 * 1) (IZR 0 * 1)) 0.3); reflexivity.
Defined.

(** ** The basic dot-loop pattern, counted *)

Lemma basic_loop_length (rows cols : Z) (a : Z * Z) :
  In a (Spec.basic_anchors rows cols) ->
  length (Spec.basic_loop rows cols a) = 100%nat.
Proof.
  intros Ha. apply basic_anchors_spec in Ha.
  destruct a as [r c]. destruct Ha as [_ [_ [Hr Hc]]]. cbn [fst snd] in Hr, Hc.
  unfold Spec.basic_loop. rewrite generate_loop_is_spec, spec_loop_length.
  unfold KolamGenerator.square_dots. cbn [fst snd filter]. unfold Spec.in_bounds.
  cbn [fst snd].
  rewrite !(get_dot_in_bounds rows cols 2) by lia. reflexivity.
Qed.

Lemma basic_anchors_5_5 :
  Spec.basic_anchors 5 5 = [(1, 1); (1, 3); (3, 1); (3, 3)]%Z.
Proof. reflexivity. Qed.

(** C1, as stated, fails: the 5x5 basic pattern does not hold exactly one
    curve. *)
Lemma pulli_basic_5_5_not_one_curve :
  length (KolamPattern.curves
            (KolamGenerator.generate_pulli_kolam KolamGenerator.__init__
               5 5 "basic"))
  <> 1%nat.
Proof.
  rewrite pulli_basic_curves, length_map, basic_anchors_5_5. discriminate.
Qed.

(** C1, amended: the basic variant on a spacing-2 grid holds one loop for
    each 2x2 block whose starting row and column are odd and below
    [rows - 1] and [cols - 1], and no other curve; each loop has 100 points.
    For a 5x5 grid these are the four blocks starting at (1,1), (1,3), (3,1)
    and (3,3): the pattern holds exactly four curves. *)
Theorem pulli_basic_loops (self : KolamGenerator.t) :
  (forall rows cols,
     KolamPattern.curves
       (KolamGenerator.generate_pulli_kolam self rows cols "basic")
     = map (Spec.basic_loop rows cols) (Spec.basic_anchors rows cols)
     /\ NoDup (Spec.basic_anchors rows cols)
     /\ (forall a, In a (Spec.basic_anchors rows cols)
                   <-> Spec.is_basic_anchor rows cols a)
     /\ Forall (fun curve => length curve = 100%nat)
          (KolamPattern.curves
             (KolamGenerator.generate_pulli_kolam self rows cols "basic")))
  /\ KolamPattern.curves
       (KolamGenerator.generate_pulli_kolam self 5 5 "basic")
     = map (Spec.basic_loop 5 5) [(1, 1); (1, 3); (3, 1); (3, 3)]%Z
  /\ length (KolamPattern.curves
               (KolamGenerator.generate_pulli_kolam self 5 5 "basic"))
     = 4%nat.
Proof.
  split; [| split].
  - intros rows cols. split; [| split; [| split]].
    + apply pulli_basic_curves.
    + apply NoDup_list_prod; apply NoDup_range3; lia.
    + apply basic_anchors_spec.
    + rewrite pulli_basic_curves. apply Forall_forall.
      intros curve Hc. apply in_map_iff in Hc.
      destruct Hc as [a [<- Ha]]. now apply basic_loop_length.
  - now rewrite pulli_basic_curves, basic_anchors_5_5.
  - now rewrite pulli_basic_curves, length_map, basic_anchors_5_5.
Qed.

(** ** Sums *)

Section Sums.

Lemma fold_left_Rplus (l : list R) (a : R) :
  fold_left Rplus l a = a + sum l.
Proof.
  unfold sum. revert a. induction l as [| v l IH]; intros a; cbn [fold_left].
  - ring.
  - rewrite IH, (IH (0 + v)). ring.
Qed.

Lemma sum_nil : sum [] = 0.
Proof. reflexivity. Qed.

Lemma sum_cons (v : R) (l : list R) : sum (v :: l) = v + sum l.
Proof. unfold sum at 1. cbn [fold_left]. rewrite fold_left_Rplus. ring. Qed.

Lemma sum_app (l1 l2 : list R) : sum (l1 ++ l2) = sum l1 + sum l2.
Proof.
  induction l1 as [| v l1 IH]; cbn [app].
  - rewrite sum_nil. ring.
  - rewrite !sum_cons, IH. ring.
Qed.

(** Sum of the mirrored values [k - v]. *)
Lemma sum_map_mirror {A : Type} (f : A -> R) (k : R) (l : list A) :
  sum (map (fun a => k - f a) l) = k * len l - sum (map f l).
Proof.
  unfold len. induction l as [| a l IH].
  - cbn [map length INR]. rewrite sum_nil. ring.
  - cbn [map]. rewrite !sum_cons, IH.
    change (length (a :: l)) with (S (length l)). rewrite S_INR. ring.
Qed.

Lemma sum_map_const {A : Type} (k : R) (l : list A) :
  sum (map (fun _ => k) l) = k * len l.
Proof.
  unfold len. induction l as [| a l IH].
  - cbn [map length INR]. rewrite sum_nil. ring.
  - cbn [map]. rewrite sum_cons, IH.
    change (length (a :: l)) with (S (length l)). rewrite S_INR. ring.
Qed.

Lemma len_pos {A : Type} (l : list A) : l <> [] -> 0 < len l.
Proof.
  intros H. unfold len. destruct l as [| a l]; [congruence |].
  apply lt_0_INR. cbn [length]. lia.
Qed.

End Sums.

(** ** Mirroring and its detection *)

Section Reflection.

Lemma distance_zero (p q : Point2D.t) :
  Point2D.x p = Point2D.x q -> Point2D.y p = Point2D.y q ->
  Point2D.distance_to p q = 0.
Proof.
  intros Hx Hy. unfold Point2D.distance_to. rewrite Hx, Hy.
  replace ((Point2D.x q - Point2D.x q) ^ 2 + (Point2D.y q - Point2D.y q) ^ 2)
    with 0 by ring.
  apply sqrt_0.
Qed.

Lemma matched_by_equal (rp : Point2D.t) (points : list Point2D.t) :
  (exists op, In op points
              /\ Point2D.x rp = Point2D.x op /\ Point2D.y rp = Point2D.y op) ->
  existsb
    (fun op => ltb (Point2D.distance_to rp op) SymmetryAnalyzer.tolerance)
    points = true.
Proof.
  intros [op [Hin [Hx Hy]]]. apply existsb_exists. exists op.
  split; [exact Hin |]. apply ltb_true_iff.
  rewrite (distance_zero rp op Hx Hy). unfold SymmetryAnalyzer.tolerance. lra.
Qed.

(** The centroid of a point set joined with its mirror image lies on the
    mirror axis. *)
Lemma centroid_x_of_mirrored (points : list Point2D.t) (center : Point2D.t) :
  points <> [] ->
  sum (map Point2D.x (points ++ map (Spec.mirror_v center) points))
  / len (points ++ map (Spec.mirror_v center) points)
  = Point2D.x center.
Proof.
  intros Hne. pose proof (len_pos points Hne) as Hpos.
  rewrite map_app, sum_app, map_map. unfold Spec.mirror_v at 1. cbn [Point2D.x].
  rewrite (sum_map_mirror Point2D.x (2 * Point2D.x center) points).
  unfold len in *. rewrite length_app, length_map, plus_INR.
  field. lra.
Qed.

(** A point set joined with its mirror image passes the vertical test
    about any point whose abscissa is the one of the mirror axis. *)
Lemma mirrored_passes_vertical_test (points : list Point2D.t)
    (center centroid : Point2D.t) :
  Point2D.x centroid = Point2D.x center ->
  SymmetryAnalyzer._test_reflection_symmetry
    (points ++ map (Spec.mirror_v center) points) centroid "vertical"
    SymmetryAnalyzer.tolerance = true.
Proof.
  intros Hc. unfold SymmetryAnalyzer._test_reflection_symmetry.
  change (String.eqb "vertical" "vertical") with true. cbv iota zeta.
  unfold SymmetryAnalyzer.all_matched. apply forallb_forall.
  intros rp Hrp. apply in_map_iff in Hrp. destruct Hrp as [p [<- Hp]].
  apply matched_by_equal. rewrite Hc.
  apply in_app_or in Hp. destruct Hp as [Hp | Hp].
  - exists (Spec.mirror_v center p). split.
    + apply in_or_app. right. now apply in_map.
    + split; reflexivity.
  - apply in_map_iff in Hp. destruct Hp as [q [<- Hq]].
    exists q. split.
    + apply in_or_app. now left.
    + unfold Spec.mirror_v. cbn [Point2D.x Point2D.y]. split; [ring | reflexivity].
Qed.

Lemma distance_same_y (p q : Point2D.t) :
  Point2D.y p = Point2D.y q ->
  Point2D.distance_to p q = Rabs (Point2D.x p - Point2D.x q).
Proof.
  intros Hy. unfold Point2D.distance_to. rewrite Hy.
  replace ((Point2D.x p - Point2D.x q) ^ 2 + (Point2D.y q - Point2D.y q) ^ 2)
    with (Rsqr (Point2D.x p - Point2D.x q)) by (unfold Rsqr; ring).
  apply sqrt_Rsqr_abs.
Qed.

(** The same test about a point that is off the mirror axis by less than
    half the tolerance: every reflected point lands within the tolerance of
    the mirror image it is meant to hit. *)
Lemma mirrored_passes_vertical_test_near (points : list Point2D.t)
    (center c : Point2D.t) :
  Rabs (Point2D.x c - Point2D.x center) < 0.05 ->
  SymmetryAnalyzer._test_reflection_symmetry
    (points ++ map (Spec.mirror_v center) points) c "vertical"
    SymmetryAnalyzer.tolerance = true.
Proof.
  intros Hc. unfold SymmetryAnalyzer._test_reflection_symmetry.
  change (String.eqb "vertical" "vertical") with true. cbv iota zeta.
  unfold SymmetryAnalyzer.all_matched. apply forallb_forall.
  intros rp Hrp. apply in_map_iff in Hrp. destruct Hrp as [p [<- Hp]].
  apply existsb_exists.
  assert (Hnear : forall q : Point2D.t,
             Point2D.x q = 2 * Point2D.x center - Point2D.x p ->
             Point2D.y q = Point2D.y p ->
             ltb (Point2D.distance_to
                    (Point2D.mk (2 * Point2D.x c - Point2D.x p) (Point2D.y p))
                    q)
                 SymmetryAnalyzer.tolerance = true).
  { intros q Hx Hy. apply ltb_true_iff.
    rewrite distance_same_y by (cbn [Point2D.y]; now rewrite Hy).
    cbn [Point2D.x]. rewrite Hx. unfold SymmetryAnalyzer.tolerance.
    replace (2 * Point2D.x c - Point2D.x p
             - (2 * Point2D.x center - Point2D.x p))
      with (2 * (Point2D.x c - Point2D.x center)) by ring.
    rewrite Rabs_mult, (Rabs_right 2) by lra. lra. }
  apply in_app_or in Hp. destruct Hp as [Hp | Hp].
  - exists (Spec.mirror_v center p). split.
    + apply in_or_app. right. now apply in_map.
    + apply Hnear; reflexivity.
  - apply in_map_iff in Hp. destruct Hp as [q [<- Hq]].
    exists q. split.
    + apply in_or_app. now left.
    + apply Hnear; unfold Spec.mirror_v; cbn [Point2D.x Point2D.y];
        [ring | reflexivity].
Qed.

(** Detection reports the vertical axis as soon as the vertical test
    passes about the centroid. *)
Lemma detect_reports_vertical (points : list Point2D.t) :
  points <> [] ->
  SymmetryAnalyzer._test_reflection_symmetry points
    (Point2D.mk (sum (map Point2D.x points) / len points)
                (sum (map Point2D.y points) / len points))
    "vertical" SymmetryAnalyzer.tolerance = true ->
  In REFLECTIONAL_VERTICAL (SymmetryAnalyzer.detect_symmetries points).
Proof.
  intros Hne Htest. unfold SymmetryAnalyzer.detect_symmetries.
  destruct points as [| p l]; [congruence |].
  cbv zeta. rewrite Htest.
  match goal with
  | |- In _ (if ?b then _ else _) => destruct b
  end.
  - apply in_or_app. left. apply in_or_app. right. now left.
  - apply in_or_app. right. now left.
Qed.

Lemma apply_vertical (points : list Point2D.t) (center : Point2D.t) :
  SymmetryAnalyzer.apply_symmetry points center REFLECTIONAL_VERTICAL
  = points ++ map (Spec.mirror_v center) points.
Proof. reflexivity. Qed.

Lemma detect_mirrored_vertical (points : list Point2D.t)
    (center : Point2D.t) :
  points <> [] ->
  In REFLECTIONAL_VERTICAL
     (SymmetryAnalyzer.detect_symmetries
        (points ++ map (Spec.mirror_v center) points)).
Proof.
  intros Hne. apply detect_reports_vertical.
  - destruct points; [congruence | discriminate].
  - apply mirrored_passes_vertical_test. cbn [Point2D.x].
    now apply centroid_x_of_mirrored.
Qed.

End Reflection.

(** C5, as stated, fails: mirroring the empty point list gives the empty
    list, on which detection reports nothing. *)
Lemma detect_mirrored_empty_reports_nothing :
  ~ In REFLECTIONAL_VERTICAL
       (SymmetryAnalyzer.detect_symmetries
          (SymmetryAnalyzer.apply_symmetry [] (Point2D.mk 0 0)
             REFLECTIONAL_VERTICAL)).
Proof. cbn. tauto. Qed.

Lemma moderate_one_two :
  Spec.moderate [Point2D.mk 1 2] (Point2D.mk 0 0).
Proof.
  unfold Spec.moderate. cbn [length Point2D.x Point2D.y].
  split; [lia |].
  split; [rewrite Rabs_R0; lra |].
  split; [rewrite Rabs_R0; lra |].
  constructor; [| constructor].
  cbn [Point2D.x Point2D.y]. split; rewrite Rabs_right; lra.
Qed.

(** C5, amended: for every non-empty list of points of moderate size
    (at most [10^6] points, all coordinates and the center within [10^6]),
    detection on the list joined with its mirror image across the vertical
    axis through the center reports the vertical axis.  The answer has a
    margin: the vertical test on the mirrored list passes about every
    point whose abscissa is within [0.05] of the axis, so it does not
    hinge on the last digits of the centroid. *)
Theorem detect_after_vertical_mirroring (points : list Point2D.t)
    (center : Point2D.t) :
  points <> [] ->
  Spec.moderate points center ->
  In REFLECTIONAL_VERTICAL
     (SymmetryAnalyzer.detect_symmetries
        (SymmetryAnalyzer.apply_symmetry points center REFLECTIONAL_VERTICAL))
  /\ (forall c : Point2D.t,
        Rabs (Point2D.x c - Point2D.x center) < 0.05 ->
        SymmetryAnalyzer._test_reflection_symmetry
          (SymmetryAnalyzer.apply_symmetry points center
             REFLECTIONAL_VERTICAL)
          c "vertical" SymmetryAnalyzer.tolerance = true).
Proof.
  intros Hne _. rewrite apply_vertical. split.
  - now apply detect_mirrored_vertical.
  - intros c Hc. now apply mirrored_passes_vertical_test_near.
Qed.

Lemma detect_after_vertical_mirroring_witness :
  [Point2D.mk 1 2] <> []
  /\ Spec.moderate [Point2D.mk 1 2] (Point2D.mk 0 0)
  /\ In REFLECTIONAL_VERTICAL
        (SymmetryAnalyzer.detect_symmetries
           (SymmetryAnalyzer.apply_symmetry [Point2D.mk 1 2] (Point2D.mk 0 0)
              REFLECTIONAL_VERTICAL)).
Proof.
  split; [discriminate |].
  split; [exact moderate_one_two |].
  apply (detect_after_vertical_mirroring [Point2D.mk 1 2] (Point2D.mk 0 0)).
  - discriminate.
  - exact moderate_one_two.
Defined.

(** ** The spiral *)

Section Spiral.

Variable cg : CurveGenerator.t.

Lemma int_nonneg (v : R) : 0 <= v -> int v = Zfloor v.
Proof. intros H. unfold int. now destruct (Rle_dec 0 v). Qed.

Lemma spiral_length (center : Point2D.t) (radius turns : R) :
  length (CurveGenerator.generate_spiral_pattern cg center radius turns)
  = Z.to_nat (int (100 * turns)).
Proof.
  unfold CurveGenerator.generate_spiral_pattern.
  now rewrite length_map, range_length.
Qed.

Lemma spiral_nth_error (center : Point2D.t) (radius turns : R) (i : nat) :
  (i < Z.to_nat (int (100 * turns)))%nat ->
  nth_error (CurveGenerator.generate_spiral_pattern cg center radius turns) i
  = Some (Spec.polar center
            (radius * (INR i / IZR (int (100 * turns))))
            (INR i / IZR (int (100 * turns)) * turns * 2 * PI)).
Proof.
  intros Hi. unfold CurveGenerator.generate_spiral_pattern.
  rewrite nth_error_map, range_nth_error by exact Hi.
  cbn [option_map]. now rewrite <- INR_IZR_INZ.
Qed.

Lemma polar_distance (center : Point2D.t) (r angle : R) :
  0 <= r -> Point2D.distance_to (Spec.polar center r angle) center = r.
Proof.
  intros Hr. unfold Spec.polar. rewrite distance_on_circle.
  now apply Rabs_right, Rle_ge.
Qed.

Lemma polar_zero (center : Point2D.t) (angle : R) :
  Spec.polar center 0 angle = center.
Proof.
  unfold Spec.polar. destruct center as [cx cy]. cbn [Point2D.x Point2D.y].
  f_equal; ring.
Qed.

End Spiral.

(** C7, as stated, fails: for [turns = 1/64] the product [100 * turns] is
    1.5625; the spiral has one sample, which is not 1.5625 rounded, and that
    single sample is the center, not a point near distance [radius]. *)
Lemma spiral_count_is_not_rounding :
  let cg := CurveGenerator.mk (DotGrid.new 5 5 2) in
  let center := Point2D.mk 0 0 in
  let curve := CurveGenerator.generate_spiral_pattern cg center 1 (1 / 64) in
  0 < 1 /\ 0 < 1 / 64
  /\ curve = [Spec.polar center (1 * (INR 0 / IZR 1)) (INR 0 / IZR 1 * (1 / 64) * 2 * PI)]
  /\ ~ Spec.is_rounding (100 * (1 / 64)) (Z.of_nat (length curve))
  /\ Point2D.distance_to (last curve center) center = 0.
Proof.
  cbv zeta.
  assert (Hn : int (100 * (1 / 64)) = 1%Z).
  { rewrite int_nonneg by lra. apply Zfloor_eq. lra. }
  assert (Hc : CurveGenerator.generate_spiral_pattern
                 (CurveGenerator.mk (DotGrid.new 5 5 2)) (Point2D.mk 0 0) 1 (1 / 64)
               = [Spec.polar (Point2D.mk 0 0) (1 * (INR 0 / IZR 1))
                    (INR 0 / IZR 1 * (1 / 64) * 2 * PI)]).
  { unfold CurveGenerator.generate_spiral_pattern. rewrite Hn. reflexivity. }
  split; [lra |]. split; [lra |]. split; [exact Hc |]. rewrite Hc. split.
  - unfold Spec.is_rounding. cbn [length]. change (Z.of_nat 1) with 1%Z.
    rewrite Rabs_right by lra. lra.
  - cbn [last]. replace (1 * (INR 0 / IZR 1)) with 0 by (simpl; field).
    rewrite polar_zero. apply distance_zero; reflexivity.
Qed.

Lemma clear_of_rounding_between (turns : R) (m : Z) :
  turns <= 10000 ->
  IZR m <= 100 * turns <= IZR m + 1 - 1 / 1000000000 ->
  Spec.clear_of_rounding turns.
Proof.
  intros Hle Hm. split; [exact Hle |].
  rewrite (Zfloor_eq m (100 * turns)); lra.
Qed.

(** C7, amended: for every center, [radius > 0] and [turns > 0], with
    [turns <= 10^4] and [100 * turns] not within [10^-9] below an integer
    (so that the float product and the exact product truncate alike), the
    spiral has exactly [floor(100 * turns)] samples ([int] truncates, it
    does not round); with [n] that number and [t = i / n], sample [i] is
    the point at
    distance [radius * t] and angle [t * turns * 2 * pi] from the center.
    When [n >= 1] the first sample is the center itself and the last one has
    [t = 1 - 1/n]; when [turns >= 1], [n >= 100], so the last sample lies at
    a distance in [0.99 * radius, radius) and at an angle in
    [0.99 * turns * 2 * pi, turns * 2 * pi). *)
Theorem spiral_samples (cg : CurveGenerator.t) (center : Point2D.t)
    (radius turns : R) :
  0 < radius -> 0 < turns -> Spec.clear_of_rounding turns ->
  let n := Zfloor (100 * turns) in
  let curve := CurveGenerator.generate_spiral_pattern cg center radius turns in
  let t := fun i : nat => INR i / IZR n in
  let sample := fun i : nat =>
    Spec.polar center (radius * t i) (t i * turns * 2 * PI) in
  length curve = Z.to_nat n
  /\ (forall i, (i < Z.to_nat n)%nat ->
        nth_error curve i = Some (sample i)
        /\ Point2D.distance_to (sample i) center = radius * t i)
  /\ ((1 <= n)%Z ->
        nth_error curve 0 = Some center
        /\ Point2D.distance_to (sample 0%nat) center = 0
        /\ t (Z.to_nat n - 1)%nat = 1 - 1 / IZR n)
  /\ (1 <= turns ->
        (100 <= n)%Z
        /\ 0.99 * radius
           <= Point2D.distance_to (sample (Z.to_nat n - 1)%nat) center
           < radius
        /\ 0.99 * (turns * 2 * PI)
           <= t (Z.to_nat n - 1)%nat * turns * 2 * PI
           < turns * 2 * PI).
Proof.
  intros Hr Ht _. cbv zeta.
  assert (Hint : int (100 * turns) = Zfloor (100 * turns))
    by (apply int_nonneg; lra).
  assert (Hn0 : (0 <= Zfloor (100 * turns))%Z).
  { apply Zfloor_lub. lra. }
  assert (Hlast : (1 <= Zfloor (100 * turns))%Z ->
                  INR (Z.to_nat (Zfloor (100 * turns)) - 1)
                  / IZR (Zfloor (100 * turns))
                  = 1 - 1 / IZR (Zfloor (100 * turns))).
  { intros H1. rewrite minus_INR by lia. rewrite INR_IZR_INZ, Z2Nat.id by lia.
    assert (1 <= IZR (Zfloor (100 * turns))) by now apply IZR_le.
    simpl. field. lra. }
  assert (Hdist : forall i : nat,
             Point2D.distance_to
               (Spec.polar center
                  (radius * (INR i / IZR (Zfloor (100 * turns))))
                  (INR i / IZR (Zfloor (100 * turns)) * turns * 2 * PI))
               center
             = radius * (INR i / IZR (Zfloor (100 * turns)))).
  { intros i. apply polar_distance.
    apply Rmult_le_pos; [lra |].
    apply Rmult_le_pos; [apply pos_INR |].
    destruct (Z.eq_dec (Zfloor (100 * turns)) 0) as [E | E].
    - rewrite E, Rinv_0. lra.
    - left. apply Rinv_0_lt_compat. apply IZR_lt. lia. }
  split; [| split; [| split]].
  - now rewrite spiral_length, Hint.
  - intros i Hi. split; [| apply Hdist].
    rewrite spiral_nth_error by now rewrite Hint.
    now rewrite Hint.
  - intros H1. split; [| split].
    + rewrite spiral_nth_error by (rewrite Hint; lia).
      rewrite Hint. f_equal.
      replace (radius * (INR 0 / IZR (Zfloor (100 * turns)))) with 0
        by (simpl; unfold Rdiv; ring).
      apply polar_zero.
    + rewrite Hdist. simpl. unfold Rdiv. ring.
    + now apply Hlast.
  - intros Hturns.
    assert (H100 : (100 <= Zfloor (100 * turns))%Z).
    { apply Zfloor_lub. lra. }
    assert (HR : 100 <= IZR (Zfloor (100 * turns))) by now apply IZR_le.
    assert (Hinv : 0 < 1 / IZR (Zfloor (100 * turns)) <= 1 / 100).
    { split.
      - apply Rdiv_lt_0_compat; lra.
      - unfold Rdiv. rewrite !Rmult_1_l. apply Rinv_le_contravar; lra. }
    pose proof PI_RGT_0 as Hpi.
    split; [exact H100 |].
    rewrite Hdist, Hlast by lia.
    split; split; try nra.
    + assert (0 < turns * 2 * PI) by nra. nra.
    + assert (0 < turns * 2 * PI) by nra. nra.
Qed.

Lemma spiral_samples_witness :
  0 < 1 /\ 0 < 1 /\ Spec.clear_of_rounding 1
  /\ length (CurveGenerator.generate_spiral_pattern
               (CurveGenerator.mk (DotGrid.new 5 5 2)) (Point2D.mk 0 0) 1 1)
     = Z.to_nat (Zfloor (100 * 1)).
Proof.
  assert (Hc : Spec.clear_of_rounding 1)
    by (apply (clear_of_rounding_between 1 100); lra).
  split; [lra |]. split; [lra |]. split; [exact Hc |].
  apply (spiral_samples (CurveGenerator.mk (DotGrid.new 5 5 2))
           (Point2D.mk 0 0) 1 1); [lra | lra | exact Hc].
Defined.

(** ** Evenly spaced samples of a circle *)

Section Circle.

Lemma sum_map_scal {A : Type} (k : R) (f : A -> R) (l : list A) :
  sum (map (fun a => k * f a) l) = k * sum (map f l).
Proof.
  induction l as [| a l IH]; cbn [map].
  - rewrite sum_nil. ring.
  - rewrite !sum_cons, IH. ring.
Qed.

Lemma sum_map_seq_S (f : nat -> R) (m : nat) :
  sum (map f (seq 0 (S m))) = sum (map f (seq 0 m)) + f m.
Proof.
  rewrite seq_S, map_app, sum_app. cbn [map Nat.add].
  rewrite sum_cons, sum_nil. ring.
Qed.

(** Telescoping sums of cosines and sines in arithmetic progression. *)
Lemma cos_sum_telescope (phase delta : R) (m : nat) :
  2 * sin (delta / 2)
  * sum (map (fun j => cos (phase + INR j * delta)) (seq 0 m))
  = sin (phase + (INR m - 1 / 2) * delta) - sin (phase - delta / 2).
Proof.
  induction m as [| m IH].
  - cbn [seq map INR]. rewrite sum_nil.
    replace (phase + (0 - 1 / 2) * delta) with (phase - delta / 2) by field.
    ring.
  - rewrite sum_map_seq_S, Rmult_plus_distr_l, IH, S_INR.
    replace (phase + (INR m + 1 - 1 / 2) * delta)
      with ((phase + INR m * delta) + delta / 2) by field.
    replace (phase + (INR m - 1 / 2) * delta)
      with ((phase + INR m * delta) - delta / 2) by field.
    rewrite (sin_plus (phase + INR m * delta)),
      (sin_minus (phase + INR m * delta)). ring.
Qed.

Lemma sin_sum_telescope (phase delta : R) (m : nat) :
  2 * sin (delta / 2)
  * sum (map (fun j => sin (phase + INR j * delta)) (seq 0 m))
  = cos (phase - delta / 2) - cos (phase + (INR m - 1 / 2) * delta).
Proof.
  induction m as [| m IH].
  - cbn [seq map INR]. rewrite sum_nil.
    replace (phase + (0 - 1 / 2) * delta) with (phase - delta / 2) by field.
    ring.
  - rewrite sum_map_seq_S, Rmult_plus_distr_l, IH, S_INR.
    replace (phase + (INR m + 1 - 1 / 2) * delta)
      with ((phase + INR m * delta) + delta / 2) by field.
    replace (phase + (INR m - 1 / 2) * delta)
      with ((phase + INR m * delta) - delta / 2) by field.
    rewrite (cos_plus (phase + INR m * delta)),
      (cos_minus (phase + INR m * delta)). ring.
Qed.

Variables (n : nat) (phase : R).
Hypothesis n_ge_2 : (2 <= n)%nat.

Let delta := 2 * PI / INR n.

Lemma INR_n_pos : 0 < INR n.
Proof. apply lt_0_INR. lia. Qed.

Lemma sin_half_step_pos : 0 < sin (delta / 2).
Proof.
  pose proof INR_n_pos as Hn. pose proof PI_RGT_0 as Hpi.
  assert (H2 : 2 <= INR n) by (change 2 with (INR 2); apply le_INR; lia).
  replace (delta / 2) with (PI / INR n) by (unfold delta; field; lra).
  apply sin_gt_0.
  - apply Rdiv_lt_0_compat; lra.
  - apply (Rmult_lt_reg_r (INR n)); [lra |].
    unfold Rdiv. rewrite Rmult_assoc, Rinv_l by lra. nra.
Qed.

Lemma full_turn : phase + (INR n - 1 / 2) * delta = phase - delta / 2 + 2 * PI.
Proof. pose proof INR_n_pos. unfold delta. field. lra. Qed.

(** Over a full turn the cosines and the sines add up to zero. *)
Lemma cos_sum_full_turn :
  sum (map (fun j => cos (phase + INR j * delta)) (seq 0 n)) = 0.
Proof.
  pose proof sin_half_step_pos as Hs.
  pose proof (cos_sum_telescope phase delta n) as H.
  rewrite full_turn, sin_plus, sin_2PI, cos_2PI in H.
  apply (Rmult_eq_reg_l (2 * sin (delta / 2))); [| lra].
  rewrite H. ring.
Qed.

Lemma sin_sum_full_turn :
  sum (map (fun j => sin (phase + INR j * delta)) (seq 0 n)) = 0.
Proof.
  pose proof sin_half_step_pos as Hs.
  pose proof (sin_sum_telescope phase delta n) as H.
  rewrite full_turn, cos_plus, sin_2PI, cos_2PI in H.
  apply (Rmult_eq_reg_l (2 * sin (delta / 2))); [| lra].
  rewrite H. ring.
Qed.

Let circle := Spec.circle_samples n phase.

Lemma circle_length : length circle = n.
Proof.
  unfold circle, Spec.circle_samples. now rewrite length_map, length_seq.
Qed.

(** The centroid of the samples is the origin. *)
Lemma circle_centroid :
  PatternRecognizer.centroid circle = Point2D.mk 0 0.
Proof.
  unfold PatternRecognizer.centroid, circle, Spec.circle_samples.
  rewrite !map_map. cbn [Point2D.x Point2D.y].
  rewrite (sum_map_scal 3 (fun j => cos (phase + INR j * (2 * PI / INR n)))).
  rewrite (sum_map_scal 3 (fun j => sin (phase + INR j * (2 * PI / INR n)))).
  fold delta. rewrite cos_sum_full_turn, sin_sum_full_turn.
  f_equal; unfold Rdiv; ring.
Qed.

Lemma circle_point_distance (p : Point2D.t) :
  In p circle -> Point2D.distance_to p (Point2D.mk 0 0) = 3.
Proof.
  unfold circle, Spec.circle_samples. intros Hp. apply in_map_iff in Hp.
  destruct Hp as [j [<- _]].
  pose proof (distance_on_circle (Point2D.mk 0 0) 3
                (phase + INR j * (2 * PI / INR n))) as H.
  cbn [Point2D.x Point2D.y] in H. rewrite !Rplus_0_l in H.
  rewrite H. apply Rabs_right. lra.
Qed.

Lemma circle_distances :
  map (fun p => Point2D.distance_to p (PatternRecognizer.centroid circle)) circle
  = map (fun _ => 3) circle.
Proof.
  rewrite circle_centroid. apply map_ext_in. apply circle_point_distance.
Qed.

End Circle.

(** ** Classification of a sampled circle *)

Section CircleClassification.

Variable self : PatternRecognizer.t.
Variables (n : nat) (phase : R).
Hypothesis n_ge_20 : (20 <= n)%nat.

Let circle := Spec.circle_samples n phase.

Lemma circle_len_pos : 0 < len circle.
Proof.
  unfold len, circle. rewrite circle_length. apply lt_0_INR. lia.
Qed.

Lemma circle_is_circular :
  PatternRecognizer._is_circular_pattern self circle = true.
Proof.
  pose proof circle_len_pos as Hlen.
  unfold PatternRecognizer._is_circular_pattern.
  replace (length circle <? 10)%nat with false
    by (symmetry; apply Nat.ltb_ge; unfold circle; rewrite circle_length; lia).
  cbv zeta. unfold circle. rewrite circle_distances by lia. fold circle.
  rewrite map_map, !sum_map_const.
  replace (len (map (fun _ : Point2D.t => 3) circle)) with (len circle)
    by (unfold len; now rewrite length_map).
  apply ltb_true_iff.
  replace (3 * len circle / len circle) with 3 by (field; lra).
  replace ((3 - 3) ^ 2 * len circle / len circle) with 0 by (field; lra).
  lra.
Qed.

Lemma nth_map_const {A : Type} (c : R) (l : list A) (k : nat) :
  nth k (map (fun _ => c) l) c = c.
Proof.
  revert k. induction l as [| a l IH]; intros [| k]; cbn [map nth]; auto.
Qed.

(** While every distance is the same, the trend counter does not move. *)
Lemma spiral_fold_trend (angles distances : list R) (l : list Z)
    (acc : R * Z) :
  (forall i, In i l ->
     nth (Z.to_nat i) distances 0 = nth (Z.to_nat (i - 1)) distances 0) ->
  snd (fold_left (PatternRecognizer.spiral_step angles distances) l acc)
  = snd acc.
Proof.
  revert acc. induction l as [| i l IH]; intros acc H; [reflexivity |].
  cbn [fold_left]. rewrite IH by (intros j Hj; apply H; now right).
  destruct acc as [a d]. unfold PatternRecognizer.spiral_step.
  rewrite (H i (or_introl eq_refl)). cbn [snd].
  assert (E : gtb (nth (Z.to_nat (i - 1)) distances 0)
                  (nth (Z.to_nat (i - 1)) distances 0) = false)
    by (apply ltb_false_iff; lra).
  now rewrite E.
Qed.

Lemma circle_is_not_spiral :
  PatternRecognizer._is_spiral_pattern self circle = false.
Proof.
  pose proof circle_len_pos as Hlen.
  unfold PatternRecognizer._is_spiral_pattern.
  replace (length circle <? 20)%nat with false
    by (symmetry; apply Nat.ltb_ge; unfold circle; rewrite circle_length; lia).
  cbv zeta. unfold circle. rewrite circle_distances by lia.
  match goal with
  | |- (let '(_, _) :=
          fold_left (PatternRecognizer.spiral_step ?an ?di) ?l ?acc in _)
       = false =>
      pose proof (spiral_fold_trend an di l acc) as Hfold;
      destruct (fold_left (PatternRecognizer.spiral_step an di) l acc)
        as [a d]
  end.
  cbn [snd] in Hfold. rewrite Hfold.
  - apply andb_false_iff. right. unfold gtb. apply ltb_false_iff.
    fold circle. lra.
  - intros i Hi. apply range3_step1 in Hi.
    rewrite !(nth_indep _ 0 3) by (rewrite length_map; lia).
    now rewrite !nth_map_const.
Qed.

End CircleClassification.

(** C9: a circle of radius 3 about the origin, sampled at [n >= 20] evenly
    spaced angles, is tagged "circular" and is not tagged "spiral". *)
Theorem circle_classified_circular_not_spiral (self : PatternRecognizer.t)
    (n : nat) (phase : R) :
  (20 <= n)%nat ->
  let tags :=
    PatternRecognizer.detect_curve_types self (Spec.circle_samples n phase) in
  In "circular"%string tags /\ ~ In "spiral"%string tags.
Proof.
  intros Hn. cbv zeta. unfold PatternRecognizer.detect_curve_types.
  replace (length (Spec.circle_samples n phase) <? 10)%nat with false
    by (symmetry; apply Nat.ltb_ge; rewrite circle_length; lia).
  rewrite circle_is_circular, circle_is_not_spiral by exact Hn.
  destruct (PatternRecognizer._is_petal_pattern self
              (Spec.circle_samples n phase));
    destruct (PatternRecognizer._has_linear_segments self
                (Spec.circle_samples n phase));
    cbn [app In]; split;
      try (now left);
      intros H; repeat (destruct H as [H | H]; [discriminate H |]); exact H.
Qed.

Lemma circle_classified_circular_not_spiral_witness :
  (20 <= 20)%nat
  /\ In "circular"%string
        (PatternRecognizer.detect_curve_types PatternRecognizer.__init__
           (Spec.circle_samples 20 0))
  /\ ~ In "spiral"%string
          (PatternRecognizer.detect_curve_types PatternRecognizer.__init__
             (Spec.circle_samples 20 0)).
Proof.
  split.
  - apply le_n.
  - apply (circle_classified_circular_not_spiral PatternRecognizer.__init__
             20 0). apply le_n.
Defined.

(** ** Counting local maxima *)

Section LocalMaxima.

Variable radii : list R.

(** The test of the counting loop at index [i]. *)
Let peak (i : Z) : bool :=
  gtb (nth (Z.to_nat i) radii 0) (nth (Z.to_nat (i - 1)) radii 0)
  && gtb (nth (Z.to_nat i) radii 0) (nth (Z.to_nat (i + 1)) radii 0).

Lemma count_as_filter (l : list Z) (c : Z) :
  fold_left (fun (local_maxima : Z) (i : Z) =>
               if peak i then (local_maxima + 1)%Z else local_maxima) l c
  = (c + Z.of_nat (length (filter peak l)))%Z.
Proof.
  revert c. induction l as [| i l IH]; intros c; cbn [fold_left filter].
  - cbn [length]. lia.
  - rewrite IH. destruct (peak i); cbn [length]; lia.
Qed.

(** Two neighbouring indices are never both peaks. *)
Lemma peak_not_adjacent (i : Z) :
  (0 <= i)%Z -> peak i = true -> peak (i + 1) = false.
Proof.
  intros Hi Hp. unfold peak in *.
  apply andb_true_iff in Hp. destruct Hp as [_ Hp].
  apply ltb_true_iff in Hp.
  apply andb_false_iff. left. apply ltb_false_iff.
  replace (i + 1 - 1)%Z with i by lia. lra.
Qed.

(** Among [m] consecutive indices at most every second one is a peak. *)
Lemma peaks_in_run (a : Z) (m : nat) :
  (0 <= a)%Z ->
  let run := map (fun k => (a + 1 * Z.of_nat k)%Z) (seq 0 m) in
  (2 * length (filter peak run) <= m + 1)%nat
  /\ ((m = 0)%nat \/ peak (a + Z.of_nat m - 1) = false ->
      (2 * length (filter peak run) <= m)%nat).
Proof.
  intros Ha. induction m as [| m [IH1 IH2]]; cbv zeta.
  - cbn [seq map filter length]. lia.
  - rewrite seq_S, map_app, filter_app, length_app. cbn [map filter Nat.add].
    replace (a + Z.of_nat (S m) - 1)%Z with (a + 1 * Z.of_nat m)%Z by lia.
    destruct (peak (a + 1 * Z.of_nat m)) eqn:Hp; cbn [length].
    + split; [| intros [H | H]; [lia | discriminate]].
      destruct m as [| m'].
      * cbn [seq map filter length]. lia.
      * assert (Hprev : peak (a + Z.of_nat (S m') - 1) = false).
        { destruct (peak (a + Z.of_nat (S m') - 1)) eqn:E; [| reflexivity].
          apply peak_not_adjacent in E; [| lia].
          replace (a + Z.of_nat (S m') - 1 + 1)%Z
            with (a + 1 * Z.of_nat (S m'))%Z in E by lia.
          congruence. }
        specialize (IH2 (or_intror Hprev)). cbv zeta in IH2. lia.
    + cbv zeta in IH1. split; [lia |]. intros _. lia.
Qed.

Lemma count_local_maxima_bound :
  (2 * PatternRecognizer.count_local_maxima radii
   <= Z.max 0 (Z.of_nat (length radii) - 1))%Z.
Proof.
  unfold PatternRecognizer.count_local_maxima.
  fold peak. rewrite count_as_filter. unfold range3.
  destruct (peaks_in_run 1
              (Z.to_nat ((Z.of_nat (length radii) - 1 - 1 + 1 - 1) / 1))
              ltac:(lia)) as [H _].
  cbv zeta in H. rewrite Z.div_1_r in *. lia.
Qed.

End LocalMaxima.

(** ** The rose curve *)

Section Petal.

Variable cg : CurveGenerator.t.

Lemma petal_length (center : Point2D.t) (radius : R) (num_petals : Z) :
  length (CurveGenerator.generate_petal_pattern cg center radius num_petals)
  = 200%nat.
Proof.
  unfold CurveGenerator.generate_petal_pattern.
  now rewrite length_map, range_length.
Qed.

Lemma petal_nth_error (center : Point2D.t) (radius : R) (num_petals : Z)
    (i : nat) :
  (i < 200)%nat ->
  nth_error
    (CurveGenerator.generate_petal_pattern cg center radius num_petals) i
  = Some (Spec.polar center
            (radius * Rabs (cos (IZR num_petals / 2 * (INR i / 200 * 2 * PI))))
            (INR i / 200 * 2 * PI)).
Proof.
  intros Hi. unfold CurveGenerator.generate_petal_pattern.
  rewrite nth_error_map, range_nth_error by (simpl; lia).
  cbn [option_map]. now rewrite <- INR_IZR_INZ.
Qed.

Lemma insert_length (v : R * R) (l : list (R * R)) :
  length (PatternRecognizer.insert v l) = S (length l).
Proof.
  induction l as [| w l IH]; cbn [PatternRecognizer.insert]; [reflexivity |].
  destruct (PatternRecognizer.tuple_ltb v w); cbn [length]; [reflexivity |].
  now rewrite IH.
Qed.

Lemma sort_length (l : list (R * R)) :
  length (PatternRecognizer.sort l) = length l.
Proof.
  unfold PatternRecognizer.sort.
  assert (H : forall acc,
             length (fold_left (fun acc v => PatternRecognizer.insert v acc) l acc)
             = (length acc + length l)%nat).
  { induction l as [| v l IH]; intros acc; cbn [fold_left length]; [lia |].
    rewrite IH, insert_length. lia. }
  now rewrite H.
Qed.

Lemma sorted_radii_length (points : list Point2D.t) :
  length (PatternRecognizer.sorted_radii points) = length points.
Proof.
  unfold PatternRecognizer.sorted_radii.
  now rewrite length_map, sort_length, length_map.
Qed.

Lemma radius_profile_length (curve : list Point2D.t) :
  length (Spec.radius_profile curve) = length curve.
Proof. unfold Spec.radius_profile. now rewrite length_map. Qed.

End Petal.

(** ** The centroid of the rose curve *)

Section Rose.

Lemma sum_map_plus {A : Type} (f h : A -> R) (l : list A) :
  sum (map (fun a => f a + h a) l) = sum (map f l) + sum (map h l).
Proof.
  induction l as [| a l IH]; cbn [map].
  - rewrite sum_nil. ring.
  - rewrite !sum_cons, IH. ring.
Qed.

Lemma seq_shifted (a N m : nat) :
  seq (a + N) m = map (fun k => (k + N)%nat) (seq a m).
Proof.
  revert a. induction m as [| m IH]; intros a; [reflexivity |].
  cbn [seq map]. f_equal. apply (IH (S a)).
Qed.

(** A sum over [2 * N] indices, taken in pairs [k], [k + N]. *)
Lemma sum_paired (h : nat -> R) (N : nat) :
  sum (map h (seq 0 (N + N)))
  = sum (map (fun k => h k + h (k + N)%nat) (seq 0 N)).
Proof.
  rewrite seq_app, map_app, sum_app.
  rewrite (seq_shifted 0 N N), map_map, sum_map_plus. reflexivity.
Qed.

Lemma sum_all_zero {A : Type} (f : A -> R) (l : list A) :
  (forall a, In a l -> f a = 0) -> sum (map f l) = 0.
Proof.
  intros H. rewrite (map_ext_in f (fun _ => 0) l H), sum_map_const. ring.
Qed.

Lemma abs_cos_shift_nat (v : R) (m : nat) :
  Rabs (cos (v + INR m * PI)) = Rabs (cos v).
Proof.
  induction m as [| m IH].
  - cbn [INR]. now replace (v + 0 * PI) with v by ring.
  - rewrite S_INR.
    replace (v + (INR m + 1) * PI) with ((v + INR m * PI) + PI) by ring.
    now rewrite neg_cos, Rabs_Ropp.
Qed.

Lemma abs_cos_shift (v : R) (m : Z) :
  Rabs (cos (v + IZR m * PI)) = Rabs (cos v).
Proof.
  destruct (Z_le_dec 0 m) as [Hm | Hm].
  - rewrite <- (Z2Nat.id m Hm), <- INR_IZR_INZ. apply abs_cos_shift_nat.
  - rewrite <- (abs_cos_shift_nat (v + IZR m * PI) (Z.to_nat (- m))).
    rewrite INR_IZR_INZ, Z2Nat.id by lia. rewrite opp_IZR.
    f_equal. f_equal. ring.
Qed.

Variables (cg : CurveGenerator.t) (center : Point2D.t) (radius : R).
Variable num_petals : Z.
Hypothesis even_petals : Z.even num_petals = true.

Let curve :=
  CurveGenerator.generate_petal_pattern cg center radius num_petals.

(** The polar radius and the angle of sample [k]. *)
Let rho (k : nat) : R :=
  radius * Rabs (cos (IZR num_petals / 2
                      * (IZR (Z.of_nat k) / IZR 200 * 2 * PI))).
Let theta (k : nat) : R := IZR (Z.of_nat k) / IZR 200 * 2 * PI.

Lemma theta_opposite (k : nat) : theta (k + 100) = theta k + PI.
Proof.
  unfold theta. rewrite Nat2Z.inj_add, plus_IZR.
  change (IZR (Z.of_nat 100)) with 100. field.
Qed.

(** Opposite samples have the same polar radius. *)
Lemma rho_opposite (k : nat) : rho (k + 100) = rho k.
Proof.
  unfold rho. fold (theta (k + 100)) (theta k). rewrite theta_opposite.
  apply Z.even_spec in even_petals. destruct even_petals as [m Hm].
  rewrite Hm, mult_IZR.
  replace (2 * IZR m / 2 * (theta k + PI))
    with (2 * IZR m / 2 * theta k + IZR m * PI) by field.
  now rewrite abs_cos_shift.
Qed.

Lemma petal_as_seq :
  curve
  = map (fun k => Point2D.mk (Point2D.x center + rho k * cos (theta k))
                             (Point2D.y center + rho k * sin (theta k)))
        (seq 0 200).
Proof.
  unfold curve, CurveGenerator.generate_petal_pattern, range.
  now rewrite map_map.
Qed.

Lemma rose_moment_x : sum (map (fun k => rho k * cos (theta k)) (seq 0 200)) = 0.
Proof.
  change 200%nat with (100 + 100)%nat. rewrite sum_paired.
  apply sum_all_zero. intros k _.
  rewrite rho_opposite, theta_opposite, neg_cos. ring.
Qed.

Lemma rose_moment_y : sum (map (fun k => rho k * sin (theta k)) (seq 0 200)) = 0.
Proof.
  change 200%nat with (100 + 100)%nat. rewrite sum_paired.
  apply sum_all_zero. intros k _.
  rewrite rho_opposite, theta_opposite, neg_sin. ring.
Qed.

(** For an even petal count the centroid of the samples is the center. *)
Lemma petal_centroid : PatternRecognizer.centroid curve = center.
Proof.
  unfold PatternRecognizer.centroid. rewrite petal_as_seq, !map_map.
  cbn [Point2D.x Point2D.y].
  rewrite (sum_map_plus (fun _ => Point2D.x center)
                        (fun k => rho k * cos (theta k))).
  rewrite (sum_map_plus (fun _ => Point2D.y center)
                        (fun k => rho k * sin (theta k))).
  rewrite rose_moment_x, rose_moment_y, !sum_map_const.
  unfold len. rewrite length_map, length_seq.
  destruct center as [cx cy]. cbn [Point2D.x Point2D.y].
  change (INR 200) with (IZR (Z.of_nat 200)) || rewrite INR_IZR_INZ.
  change (IZR (Z.of_nat 200)) with 200.
  f_equal; field.
Qed.

(** The radius profile about the centroid is the sampled rose. *)
Lemma petal_radius_profile :
  Spec.radius_profile curve
  = map (fun k : nat =>
           Rabs radius
           * Rabs (cos (IZR num_petals / 2 * (INR k / 200 * 2 * PI))))
        (seq 0 200).
Proof.
  unfold Spec.radius_profile. rewrite petal_centroid, petal_as_seq, map_map.
  apply map_ext. intros k. rewrite distance_on_circle. unfold rho.
  rewrite Rabs_mult, Rabs_Rabsolu, <- INR_IZR_INZ. reflexivity.
Qed.

End Rose.

(** ** Counting the petals *)

Section PetalCount.

Lemma count_fold_filter {A : Type} (test : A -> bool) (l : list A) (c : Z) :
  fold_left (fun (count : Z) (a : A) =>
               if test a then (count + 1)%Z else count) l c
  = (c + Z.of_nat (length (filter test l)))%Z.
Proof.
  revert c. induction l as [| a l IH]; intros c; cbn [fold_left filter].
  - cbn [length]. lia.
  - rewrite IH. destruct (test a); cbn [length]; lia.
Qed.

Lemma nth_map_seq {B : Type} (F : nat -> B) (N k : nat) (d : B) :
  (k < N)%nat -> nth k (map F (seq 0 N)) d = F k.
Proof.
  intros Hk.
  rewrite (nth_indep _ d (F 0%nat)) by now rewrite length_map, length_seq.
  rewrite map_nth, seq_nth by exact Hk. reflexivity.
Qed.

Lemma phase_bounds (a : Z) : (0 <= Spec.phase a <= 100)%Z.
Proof.
  unfold Spec.phase. pose proof (Z.mod_pos_bound a 200 ltac:(lia)). lia.
Qed.

Lemma phase_mod (n j : Z) :
  Spec.phase (n * (j mod 200)) = Spec.phase (n * j).
Proof. unfold Spec.phase. now rewrite Z.mul_mod_idemp_r by lia. Qed.

Lemma quarter_angle (u : Z) :
  (0 <= u <= 100)%Z -> 0 <= PI * IZR u / 200 <= PI / 2.
Proof.
  intros Hu. pose proof PI_RGT_0 as Hpi.
  assert (0 <= IZR u <= 100) by (split; apply IZR_le; lia).
  split; nra.
Qed.

(** [|cos|] at a multiple of [pi / 200] is the cosine at its phase. *)
Lemma abs_cos_phase (a : Z) :
  Rabs (cos (PI * IZR a / 200)) = cos (PI * IZR (Spec.phase a) / 200).
Proof.
  pose proof (Z.div_mod a 200 ltac:(lia)) as Hdm.
  pose proof (Z.mod_pos_bound a 200 ltac:(lia)) as Hb.
  unfold Spec.phase.
  set (r := (a mod 200)%Z) in *. set (q := (a / 200)%Z) in *.
  replace (PI * IZR a / 200) with (PI * IZR r / 200 + IZR q * PI)
    by (rewrite Hdm, plus_IZR, mult_IZR; field).
  rewrite abs_cos_shift.
  destruct (Z_le_dec r 100) as [Hr | Hr].
  - rewrite Z.min_l by lia. apply Rabs_right, Rle_ge, cos_ge_0.
    + pose proof (quarter_angle r ltac:(lia)). pose proof PI_RGT_0. lra.
    + apply quarter_angle. lia.
  - rewrite Z.min_r by lia.
    replace (PI * IZR r / 200) with (- (PI * IZR (200 - r) / 200) + PI)
      by (rewrite minus_IZR; field).
    rewrite neg_cos, cos_neg, Rabs_Ropp.
    apply Rabs_right, Rle_ge, cos_ge_0.
    + pose proof (quarter_angle (200 - r) ltac:(lia)). pose proof PI_RGT_0.
      lra.
    + apply quarter_angle. lia.
Qed.

(** The test [radii[i] > radii[j]] on two samples of a rose is a test on
    their phases. *)
Lemma gtb_rose (r : R) (a b : Z) :
  0 < r ->
  gtb (r * Rabs (cos (PI * IZR a / 200))) (r * Rabs (cos (PI * IZR b / 200)))
  = (Spec.phase a <? Spec.phase b)%Z.
Proof.
  intros Hr. rewrite !abs_cos_phase. unfold gtb.
  pose proof (phase_bounds a) as Ha. pose proof (phase_bounds b) as Hb.
  pose proof (quarter_angle _ Ha) as Qa. pose proof (quarter_angle _ Hb) as Qb.
  pose proof PI_RGT_0 as Hpi.
  destruct (Spec.phase a <? Spec.phase b)%Z eqn:E.
  - apply Z.ltb_lt in E. apply ltb_true_iff.
    apply Rmult_lt_compat_l; [exact Hr |].
    apply cos_decreasing_1; try lra.
    apply Rmult_lt_compat_r; [lra |].
    apply Rmult_lt_compat_l; [lra |]. now apply IZR_lt.
  - apply Z.ltb_ge in E. apply ltb_false_iff.
    apply Rmult_le_compat_l; [lra |].
    apply cos_decr_1; try lra.
    apply Rmult_le_compat_r; [lra |].
    apply Rmult_le_compat_l; [lra |]. now apply IZR_le.
Qed.

Variables (r : R) (n : Z).
Hypothesis r_pos : 0 < r.

Let rose (k : nat) : R := r * Rabs (cos (PI * IZR (n * Z.of_nat k) / 200)).
Let profile : list R := map rose (seq 0 200).

Lemma profile_nth (i : Z) :
  (0 <= i < 200)%Z ->
  nth (Z.to_nat i) profile 0 = r * Rabs (cos (PI * IZR (n * i) / 200)).
Proof.
  intros Hi. unfold profile. rewrite nth_map_seq by lia.
  unfold rose. now rewrite Z2Nat.id by lia.
Qed.

Lemma profile_length : length profile = 200%nat.
Proof. unfold profile. now rewrite length_map, length_seq. Qed.

(** Around the closed curve the counting loop finds the samples whose
    phase is below the phases of both neighbours. *)
Lemma cyclic_count_profile :
  Spec.cyclic_local_maxima profile = Spec.peaks_cyclic n.
Proof.
  unfold Spec.cyclic_local_maxima. cbv zeta. rewrite profile_length.
  change (Z.of_nat 200) with 200%Z.
  rewrite count_fold_filter, Z.add_0_l. unfold Spec.peaks_cyclic.
  f_equal. f_equal. apply filter_ext_in. intros i Hi. apply in_range in Hi.
  unfold Spec.sample_peak.
  rewrite !profile_nth by (try lia; apply Z.mod_pos_bound; lia).
  rewrite !gtb_rose by exact r_pos. now rewrite !phase_mod.
Qed.

(** The loop of the recognizer itself, which leaves out the first and the
    last sample. *)
Lemma open_count_profile :
  PatternRecognizer.count_local_maxima profile = Spec.peaks_open n.
Proof.
  unfold PatternRecognizer.count_local_maxima. rewrite profile_length.
  change (Z.of_nat 200 - 1)%Z with 199%Z.
  rewrite count_fold_filter, Z.add_0_l. unfold Spec.peaks_open.
  f_equal. f_equal. apply filter_ext_in. intros i Hi.
  apply range3_step1 in Hi. unfold Spec.sample_peak.
  rewrite !profile_nth by lia.
  now rewrite !gtb_rose by exact r_pos.
Qed.

End PetalCount.

Lemma petal_range_checked_ok : Spec.petal_range_checked = true.
Proof. vm_compute. reflexivity. Qed.

Lemma countable_petals_counts (n : Z) :
  Spec.countable_petals n = true ->
  Spec.peaks_cyclic n = n /\ Spec.peaks_open n = (n - 1)%Z.
Proof.
  intros Hn. pose proof petal_range_checked_ok as H.
  unfold Spec.petal_range_checked in H.
  rewrite forallb_forall in H. specialize (H n).
  rewrite Hn in H.
  assert (Hin : In n (range 101)).
  { apply in_range. unfold Spec.countable_petals in Hn. lia. }
  specialize (H Hin). lia.
Qed.

(** The radius profile of a rose with an even petal count, as a list of
    samples of [|radius| * |cos (pi * (n * k) / 200)|]. *)
Lemma petal_profile_by_phase (cg : CurveGenerator.t) (center : Point2D.t)
    (radius : R) (num_petals : Z) :
  Z.even num_petals = true ->
  Spec.radius_profile
    (CurveGenerator.generate_petal_pattern cg center radius num_petals)
  = map (fun k : nat =>
           Rabs radius
           * Rabs (cos (PI * IZR (num_petals * Z.of_nat k) / 200)))
        (seq 0 200).
Proof.
  intros Heven. rewrite petal_radius_profile by exact Heven.
  apply map_ext. intros k. f_equal. f_equal. f_equal.
  rewrite mult_IZR, <- INR_IZR_INZ. field.
Qed.

Lemma petal_counts (cg : CurveGenerator.t) (center : Point2D.t)
    (radius : R) (num_petals : Z) :
  Z.even num_petals = true -> radius <> 0 ->
  let profile :=
    Spec.radius_profile
      (CurveGenerator.generate_petal_pattern cg center radius num_petals) in
  Spec.cyclic_local_maxima profile = Spec.peaks_cyclic num_petals
  /\ PatternRecognizer.count_local_maxima profile
     = Spec.peaks_open num_petals.
Proof.
  intros Heven Hr. cbv zeta. rewrite petal_profile_by_phase by exact Heven.
  assert (Hpos : 0 < Rabs radius) by now apply Rabs_pos_lt.
  split.
  - apply (cyclic_count_profile (Rabs radius) num_petals Hpos).
  - apply (open_count_profile (Rabs radius) num_petals Hpos).
Qed.

(** C8, as stated, fails: for 400 petals (an even number above 4) the
    200-sample curve cannot show 400 local maxima in its radius profile,
    whether the profile is read as an open list or around the closed
    curve: every sample is at the same distance from the center, and the
    count is zero. *)
Lemma petal_400_has_not_400_maxima :
  let cg := CurveGenerator.mk (DotGrid.new 5 5 2) in
  let curve :=
    CurveGenerator.generate_petal_pattern cg (Point2D.mk 0 0) 1 400 in
  0 < 1 /\ Z.even 400 = true /\ (4 <= 400)%Z
  /\ PatternRecognizer.count_local_maxima (Spec.radius_profile curve)
     <> 400%Z
  /\ Spec.cyclic_local_maxima (Spec.radius_profile curve) <> 400%Z.
Proof.
  cbv zeta. split; [lra |]. split; [reflexivity |]. split; [lia |].
  destruct (petal_counts (CurveGenerator.mk (DotGrid.new 5 5 2))
              (Point2D.mk 0 0) 1 400 eq_refl ltac:(lra)) as [Hc Ho].
  cbv zeta in Hc, Ho. rewrite Hc, Ho.
  split; vm_compute; discriminate.
Qed.

(** C8, amended: for every center, radius and petal count the curve has
    exactly 200 samples, sample [i] being the point at angle
    [t = i/200 * 2*pi] and distance [|radius| * |cos((num_petals/2) * t)|]
    from the center.  For an even petal count the centroid is, in exact
    arithmetic, the center, so the profile is
    [|radius| * |cos((num_petals/2) * t)|].  For every
    even petal count from 4 to 100 that is not a multiple of 16, on a rose
    that is well scaled, the radius profile has exactly [num_petals] local
    maxima around the closed curve; the counting loop of the recognizer,
    which does not look at the first and the last sample, finds
    [num_petals - 1] of them on the curve as generated, sample 0 being a
    maximum.  (For a multiple of 16 the tip of every second petal falls
    midway between two samples, which are then equal; nothing is said
    about these counts.)  Whatever the petal count, the open profile, in
    curve order or sorted by angle, has at most 99 local maxima: the
    number differs from [num_petals] from 100 upwards. *)
Theorem petal_samples_and_maxima (cg : CurveGenerator.t)
    (center : Point2D.t) (radius : R) (num_petals : Z) :
  let curve :=
    CurveGenerator.generate_petal_pattern cg center radius num_petals in
  let t := fun i : nat => INR i / 200 * 2 * PI in
  let sample := fun i : nat =>
    Spec.polar center (radius * Rabs (cos (IZR num_petals / 2 * t i))) (t i) in
  length curve = 200%nat
  /\ (forall i, (i < 200)%nat ->
        nth_error curve i = Some (sample i)
        /\ Point2D.distance_to (sample i) center
           = Rabs radius * Rabs (cos (IZR num_petals / 2 * t i)))
  /\ (PatternRecognizer.count_local_maxima (Spec.radius_profile curve)
      <= 99)%Z
  /\ (PatternRecognizer.count_local_maxima
        (PatternRecognizer.sorted_radii curve) <= 99)%Z
  /\ ((100 <= num_petals)%Z ->
        PatternRecognizer.count_local_maxima (Spec.radius_profile curve)
        <> num_petals
        /\ PatternRecognizer.count_local_maxima
             (PatternRecognizer.sorted_radii curve) <> num_petals)
  /\ (Z.even num_petals = true ->
        PatternRecognizer.centroid curve = center
        /\ Spec.radius_profile curve
           = map (fun i : nat =>
                    Rabs radius * Rabs (cos (IZR num_petals / 2 * t i)))
                 (seq 0 200))
  /\ (Z.even num_petals = true -> (4 <= num_petals <= 100)%Z ->
      (num_petals mod 16 <> 0)%Z -> Spec.well_scaled center radius ->
        Spec.cyclic_local_maxima (Spec.radius_profile curve) = num_petals
        /\ PatternRecognizer.count_local_maxima (Spec.radius_profile curve)
           = (num_petals - 1)%Z).
Proof.
  cbv zeta.
  pose proof (count_local_maxima_bound
                (Spec.radius_profile
                   (CurveGenerator.generate_petal_pattern cg center radius
                      num_petals))) as H1.
  pose proof (count_local_maxima_bound
                (PatternRecognizer.sorted_radii
                   (CurveGenerator.generate_petal_pattern cg center radius
                      num_petals))) as H2.
  rewrite radius_profile_length, petal_length in H1.
  rewrite sorted_radii_length, petal_length in H2.
  split; [apply petal_length |].
  split; [| split; [lia | split; [lia | split; [| split]]]].
  - intros i Hi. split; [now apply petal_nth_error |].
    unfold Spec.polar. rewrite distance_on_circle, Rabs_mult.
    now rewrite Rabs_Rabsolu.
  - intros Hn. split; lia.
  - intros Heven. split.
    + now apply petal_centroid.
    + now apply petal_radius_profile.
  - intros Heven Hrange H16 [Hrad _].
    assert (Hr : radius <> 0) by lra.
    destruct (petal_counts cg center radius num_petals Heven Hr) as [Hc Ho].
    cbv zeta in Hc, Ho. rewrite Hc, Ho.
    apply countable_petals_counts. unfold Spec.countable_petals.
    rewrite Heven. cbn [andb].
    replace (4 <=? num_petals)%Z with true by lia.
    replace (num_petals <=? 100)%Z with true by lia.
    replace (num_petals mod 16 =? 0)%Z with false by lia.
    reflexivity.
Qed.

Lemma petal_samples_and_maxima_witness :
  Z.even 8 = true /\ (4 <= 8 <= 100)%Z /\ (8 mod 16 <> 0)%Z
  /\ Spec.well_scaled (Point2D.mk 0 0) 1
  /\ Spec.cyclic_local_maxima
       (Spec.radius_profile
          (CurveGenerator.generate_petal_pattern
             (CurveGenerator.mk (DotGrid.new 5 5 2)) (Point2D.mk 0 0) 1 8))
     = 8%Z.
Proof.
  assert (Hs : Spec.well_scaled (Point2D.mk 0 0) 1).
  { unfold Spec.well_scaled. cbn [Point2D.x Point2D.y].
    rewrite Rabs_R0. lra. }
  assert (H16 : (8 mod 16 <> 0)%Z) by (vm_compute; discriminate).
  split; [reflexivity |]. split; [lia |]. split; [exact H16 |].
  split; [exact Hs |].
  destruct (petal_samples_and_maxima
              (CurveGenerator.mk (DotGrid.new 5 5 2)) (Point2D.mk 0 0) 1 8)
    as [_ [_ [_ [_ [_ [_ H]]]]]].
  destruct (H eq_refl ltac:(lia) H16 Hs) as [Hc _]. exact Hc.
Defined.

(** ** Checks on concrete inputs *)

Section Checks.

Example range_5 : range 5 = [0; 1; 2; 3; 4]%Z.
Proof. reflexivity. Qed.

Example range_negative : range (-3) = [].
Proof. reflexivity. Qed.

Example range3_1_4_2 : range3 1 4 2 = [1; 3]%Z.
Proof. reflexivity. Qed.

Example range3_1_6_2 : range3 1 6 2 = [1; 3; 5]%Z.
Proof. reflexivity. Qed.

Example range3_empty : range3 1 0 2 = [].
Proof. reflexivity. Qed.

Example str_5 : str 5 = "5"%string.
Proof. reflexivity. Qed.

Example int_truncates_up : int (- 2.5) = (-2)%Z.
Proof.
  unfold int. destruct (Rle_dec 0 (- 2.5)) as [H | _]; [lra |].
  unfold Zceil. rewrite (Zfloor_eq 2 (- (-2.5))); [reflexivity | lra].
Qed.

Example int_truncates_down : int 2.5 = 2%Z.
Proof. rewrite int_nonneg by lra. apply Zfloor_eq. lra. Qed.

Example get_dot_5_5 :
  DotGrid.get_dot (DotGrid.new 5 5 2) 1 3
  = Some (Point2D.mk (IZR 3 * 2) (IZR 1 * 2)).
Proof. reflexivity. Qed.

Example get_dot_outside :
  DotGrid.get_dot (DotGrid.new 5 5 2) 5 0 = None.
Proof. reflexivity. Qed.

Example get_dot_negative :
  DotGrid.get_dot (DotGrid.new 5 5 2) (-1) 0 = None.
Proof. reflexivity. Qed.

(** The square loop of the geometry demonstration has 100 points. *)
Example demo_square_loop :
  length
    (CurveGenerator.generate_loop_around_dots
       (CurveGenerator.mk (DotGrid.new 5 5 2))
       [(1, 1); (1, 3); (3, 3); (3, 1); (1, 1)]%Z 0.3)
  = 100%nat.
Proof. now rewrite generate_loop_is_spec, spec_loop_length. Qed.

(** The spiral of the geometry demonstration has 200 points. *)
Example demo_spiral :
  length
    (CurveGenerator.generate_spiral_pattern
       (CurveGenerator.mk (DotGrid.new 5 5 2)) (Point2D.mk 5 5) 3 2)
  = 200%nat.
Proof.
  rewrite spiral_length, int_nonneg by lra.
  replace (100 * 2) with (IZR 200) by lra. now rewrite ZfloorZ.
Qed.

(** Cells outside the grid are skipped without a trace. *)
Example loop_all_outside :
  CurveGenerator.generate_loop_around_dots
    (CurveGenerator.mk (DotGrid.new 2 2 1)) [(7, 7); (-1, 0)]%Z 0.3
  = [].
Proof. reflexivity. Qed.

End Checks.

(** * Further properties of the engine *)

(** ** Points *)

Section Points.

Lemma rotate_rotate (p c : Point2D.t) (a b : R) :
  Point2D.rotate (Point2D.rotate p a (Some c)) b (Some c)
  = Point2D.rotate p (a + b) (Some c).
Proof.
  unfold Point2D.rotate, Point2D.add, Point2D.sub. cbn [Point2D.x Point2D.y].
  rewrite cos_plus, sin_plus. f_equal; ring.
Qed.

Lemma rotate_zero (p c : Point2D.t) : Point2D.rotate p 0 (Some c) = p.
Proof.
  unfold Point2D.rotate, Point2D.add, Point2D.sub. cbn [Point2D.x Point2D.y].
  rewrite cos_0, sin_0. destruct p as [px py]. cbn [Point2D.x Point2D.y].
  f_equal; ring.
Qed.

Lemma rotate_center (c : Point2D.t) (a : R) :
  Point2D.rotate c a (Some c) = c.
Proof.
  unfold Point2D.rotate, Point2D.add, Point2D.sub. cbn [Point2D.x Point2D.y].
  destruct c as [cx cy]. cbn [Point2D.x Point2D.y]. f_equal; ring.
Qed.

Lemma rotate_isometry (p q : Point2D.t) (a : R) (c : option Point2D.t) :
  Point2D.distance_to (Point2D.rotate p a c) (Point2D.rotate q a c)
  = Point2D.distance_to p q.
Proof.
  unfold Point2D.distance_to, Point2D.rotate, Point2D.add, Point2D.sub.
  cbn [Point2D.x Point2D.y]. f_equal.
  set (cc := match c with None => Point2D.mk 0 0 | Some c0 => c0 end).
  pose proof (sin2_cos2 a) as H. unfold Rsqr in H.
  replace ((Point2D.x p - Point2D.x q) ^ 2 + (Point2D.y p - Point2D.y q) ^ 2)
    with (((Point2D.x p - Point2D.x q) ^ 2 + (Point2D.y p - Point2D.y q) ^ 2)
          * (sin a * sin a + cos a * cos a)) by (rewrite H; ring).
  ring.
Qed.

(** X1: rotating two points by the same angle about the same center (or
    about the origin when no center is given) keeps their distance; the
    center itself does not move, so the distance to the center is kept. *)
Theorem rotate_keeps_distances (p q c : Point2D.t) (a : R)
    (center : option Point2D.t) :
  Point2D.distance_to (Point2D.rotate p a center) (Point2D.rotate q a center)
  = Point2D.distance_to p q
  /\ Point2D.rotate c a (Some c) = c
  /\ Point2D.distance_to (Point2D.rotate p a (Some c)) c
     = Point2D.distance_to p c.
Proof.
  split; [apply rotate_isometry |]. split; [apply rotate_center |].
  rewrite <- (rotate_center c a) at 2. apply rotate_isometry.
Qed.

(** X2: rotations about one center compose by adding their angles; in
    particular rotating by [a] and then by [-a] gives the point back, and
    so does a rotation by a full turn. *)
Theorem rotate_composes (p c : Point2D.t) (a b : R) :
  Point2D.rotate (Point2D.rotate p a (Some c)) b (Some c)
  = Point2D.rotate p (a + b) (Some c)
  /\ Point2D.rotate (Point2D.rotate p a (Some c)) (- a) (Some c) = p
  /\ Point2D.rotate p (2 * PI) (Some c) = p.
Proof.
  split; [apply rotate_rotate |]. split.
  - rewrite rotate_rotate. replace (a + - a) with 0 by ring.
    apply rotate_zero.
  - unfold Point2D.rotate, Point2D.add, Point2D.sub.
    cbn [Point2D.x Point2D.y]. rewrite cos_2PI, sin_2PI.
    destruct p as [px py]. cbn [Point2D.x Point2D.y]. f_equal; ring.
Qed.

Lemma distance_nonneg (p q : Point2D.t) : 0 <= Point2D.distance_to p q.
Proof. unfold Point2D.distance_to. apply sqrt_pos. Qed.

(** Over the reals [distance_to] is symmetric, never negative, and zero
    exactly for equal points.  (The float code follows it only while the
    squares neither overflow nor vanish.) *)
Theorem distance_to_metric (p q : Point2D.t) :
  Point2D.distance_to p q = Point2D.distance_to q p
  /\ 0 <= Point2D.distance_to p q
  /\ (Point2D.distance_to p q = 0 <-> p = q).
Proof.
  split; [| split; [apply distance_nonneg |]].
  - unfold Point2D.distance_to. f_equal. ring.
  - split.
    + unfold Point2D.distance_to. intros H.
      apply sqrt_eq_0 in H;
        [| apply Rplus_le_le_0_compat; apply pow2_ge_0].
      destruct p as [px py], q as [qx qy]. cbn [Point2D.x Point2D.y] in H.
      pose proof (pow2_ge_0 (px - qx)) as Hx.
      pose proof (pow2_ge_0 (py - qy)) as Hy.
      assert (Ex : (px - qx) ^ 2 = 0) by lra.
      assert (Ey : (py - qy) ^ 2 = 0) by lra.
      assert (Hpx : px - qx = 0)
        by (apply Rsqr_eq_0; unfold Rsqr; lra).
      assert (Hpy : py - qy = 0)
        by (apply Rsqr_eq_0; unfold Rsqr; lra).
      f_equal; lra.
    + intros ->. apply distance_zero; reflexivity.
Qed.

(** Vector addition and subtraction undo each other, and scaling
    distributes over addition. *)
Theorem add_sub_round_trip (p q : Point2D.t) (k : R) :
  Point2D.sub (Point2D.add p q) q = p
  /\ Point2D.add (Point2D.sub p q) q = p
  /\ Point2D.mul (Point2D.add p q) k
     = Point2D.add (Point2D.mul p k) (Point2D.mul q k).
Proof.
  unfold Point2D.sub, Point2D.add, Point2D.mul.
  destruct p as [px py], q as [qx qy]. cbn [Point2D.x Point2D.y].
  repeat split; f_equal; ring.
Qed.

End Points.

(** ** The grid as a whole *)

Section GridWhole.

Variables (rows cols : Z) (spacing : R).

Let g := DotGrid.new rows cols spacing.

(** X5: on a constructed grid [get_dot] answers the lattice point
    [(col * spacing, row * spacing)] for every cell with
    [0 <= row < rows] and [0 <= col < cols], and [None] for every other
    cell, negative indices included; the matrix lookup is never out of
    range. *)
Theorem get_dot_lattice (row col : Z) :
  DotGrid.get_dot (DotGrid.new rows cols spacing) row col
  = if ((0 <=? row) && (row <? rows) && (0 <=? col) && (col <? cols))%Z
    then Some (Point2D.mk (IZR col * spacing) (IZR row * spacing))
    else None.
Proof.
  destruct ((0 <=? row) && (row <? rows) && (0 <=? col) && (col <? cols))%Z
    eqn:E.
  - apply andb_true_iff in E. destruct E as [E E4].
    apply andb_true_iff in E. destruct E as [E E3].
    apply andb_true_iff in E. destruct E as [E1 E2].
    apply get_dot_in_bounds; lia.
  - apply get_dot_out_of_bounds. intros [Hr Hc].
    replace (0 <=? row)%Z with true in E by lia.
    replace (row <? rows)%Z with true in E by lia.
    replace (0 <=? col)%Z with true in E by lia.
    replace (col <? cols)%Z with true in E by lia.
    discriminate E.
Qed.

Lemma concat_uniform_length {A : Type} (ll : list (list A)) (m : nat) :
  Forall (fun l => length l = m) ll ->
  length (concat ll) = (length ll * m)%nat.
Proof.
  induction 1 as [| l ll Hl _ IH]; [reflexivity |].
  cbn [concat length]. rewrite length_app, IH, Hl. lia.
Qed.

Lemma concat_uniform_nth_error {A : Type} (ll : list (list A)) (m r c : nat) :
  Forall (fun l => length l = m) ll -> (c < m)%nat ->
  nth_error (concat ll) (r * m + c)
  = match nth_error ll r with
    | Some l => nth_error l c
    | None => None
    end.
Proof.
  intros Hall Hc. revert r. induction Hall as [| l ll Hl _ IH]; intros r.
  - destruct r; cbn [concat nth_error]; now rewrite ?nth_error_nil.
  - destruct r as [| r]; cbn [concat nth_error].
    + cbn [Nat.mul Nat.add]. apply nth_error_app1. lia.
    + rewrite nth_error_app2 by lia.
      replace (S r * m + c - length l)%nat with (r * m + c)%nat by lia.
      apply IH.
Qed.

Lemma grid_rows_uniform :
  Forall (fun l : list Point2D.t => length l = Z.to_nat cols)
         (DotGrid.dots g).
Proof.
  apply Forall_forall. intros l Hl. unfold g, DotGrid.new in Hl.
  cbn [DotGrid.dots] in Hl. unfold DotGrid._generate_grid in Hl.
  apply in_map_iff in Hl. destruct Hl as [i [<- _]].
  now rewrite length_map, range_length.
Qed.

(** X6: [get_all_dots] lists the [rows * cols] dots row after row: the
    dot of cell [(row, col)] stands at index [row * cols + col]. *)
Theorem get_all_dots_row_major :
  length (DotGrid.get_all_dots (DotGrid.new rows cols spacing))
  = (Z.to_nat rows * Z.to_nat cols)%nat
  /\ forall row col,
       (0 <= row < rows)%Z -> (0 <= col < cols)%Z ->
       nth_error (DotGrid.get_all_dots (DotGrid.new rows cols spacing))
                 (Z.to_nat (row * cols + col))
       = Some (Point2D.mk (IZR col * spacing) (IZR row * spacing)).
Proof.
  fold g. unfold DotGrid.get_all_dots. split.
  - rewrite (concat_uniform_length _ _ grid_rows_uniform).
    unfold g, DotGrid.new. cbn [DotGrid.dots].
    unfold DotGrid._generate_grid. now rewrite length_map, range_length.
  - intros row col Hr Hc.
    replace (Z.to_nat (row * cols + col))
      with (Z.to_nat row * Z.to_nat cols + Z.to_nat col)%nat by nia.
    rewrite (concat_uniform_nth_error _ _ _ _ grid_rows_uniform) by lia.
    pose proof (get_dot_in_bounds rows cols spacing row col Hr Hc) as H.
    unfold DotGrid.get_dot in H. cbn [DotGrid.rows DotGrid.cols DotGrid.new] in H.
    replace (0 <=? row)%Z with true in H by lia.
    replace (row <? rows)%Z with true in H by lia.
    replace (0 <=? col)%Z with true in H by lia.
    replace (col <? cols)%Z with true in H by lia.
    cbn [andb] in H. exact H.
Qed.

(** X7: the neighbours of a cell are exactly the dots of the cells of the
    grid within [radius] rows and [radius] columns of it, the cell itself
    left out; the cell need not lie in the grid. *)
Theorem get_neighbors_spec (row col radius : Z) (p : Point2D.t) :
  In p (DotGrid.get_neighbors (DotGrid.new rows cols spacing) row col radius)
  <-> exists r c,
        (row - radius <= r <= row + radius)%Z
        /\ (col - radius <= c <= col + radius)%Z
        /\ (r, c) <> (row, col)
        /\ (0 <= r < rows)%Z /\ (0 <= c < cols)%Z
        /\ p = Point2D.mk (IZR c * spacing) (IZR r * spacing).
Proof.
  unfold DotGrid.get_neighbors. rewrite in_flat_map. split.
  - intros [dr [Hdr Hp]]. apply in_flat_map in Hp.
    destruct Hp as [dc [Hdc Hp]].
    apply range3_step1 in Hdr. apply range3_step1 in Hdc.
    destruct ((dr =? 0) && (dc =? 0))%Z eqn:E; [destruct Hp |].
    destruct (DotGrid.get_dot (DotGrid.new rows cols spacing)
                (row + dr) (col + dc)) as [dot |] eqn:Hdot; [| destruct Hp].
    destruct Hp as [<- | []].
    assert (Hb : (0 <= row + dr < rows)%Z /\ (0 <= col + dc < cols)%Z).
    { apply (proj1 (get_dot_some_iff rows cols spacing (row + dr) (col + dc))).
      now exists dot. }
    destruct Hb as [Hr Hc].
    rewrite (get_dot_in_bounds rows cols spacing _ _ Hr Hc) in Hdot.
    exists (row + dr)%Z, (col + dc)%Z.
    repeat split; try lia.
    + intros Heq. inversion Heq.
      apply andb_false_iff in E. destruct E as [E | E];
        apply Z.eqb_neq in E; lia.
    + now inversion Hdot.
  - intros [r [c [Hr [Hc [Hne [Hbr [Hbc ->]]]]]]].
    exists (r - row)%Z. split; [apply range3_step1; lia |].
    apply in_flat_map. exists (c - col)%Z.
    split; [apply range3_step1; lia |].
    replace ((r - row =? 0) && (c - col =? 0))%Z with false.
    + replace (row + (r - row))%Z with r by lia.
      replace (col + (c - col))%Z with c by lia.
      rewrite (get_dot_in_bounds rows cols spacing r c Hbr Hbc). now left.
    + symmetry. apply andb_false_iff.
      destruct (Z.eq_dec r row) as [-> | Hr'].
      * right. apply Z.eqb_neq. intros H. apply Hne. f_equal. lia.
      * left. apply Z.eqb_neq. lia.
Qed.

End GridWhole.

(** ** Counting neighbours *)

Section NeighbourCount.

Lemma length_flat_map_sum {A B : Type} (f : A -> list B) (l : list A) :
  length (flat_map f l) = list_sum (map (fun a => length (f a)) l).
Proof.
  induction l as [| a l IH]; [reflexivity |].
  cbn [flat_map map list_sum fold_right]. now rewrite length_app, IH.
Qed.

Lemma list_sum_const {A : Type} (k : nat) (l : list A) :
  list_sum (map (fun _ => k) l) = (k * length l)%nat.
Proof.
  induction l as [| a l IH]; cbn [map list_sum fold_right length]; [lia |].
  fold (list_sum (map (fun _ : A => k) l)). rewrite IH. lia.
Qed.

(** A sum that takes the value [a] at the one occurrence of [z] and [b]
    elsewhere. *)
Lemma list_sum_one_special (z : Z) (a b : nat) (l : list Z) :
  NoDup l -> In z l ->
  list_sum (map (fun d => if (d =? z)%Z then a else b) l)
  = (b * (length l - 1) + a)%nat.
Proof.
  intros Hnd. induction Hnd as [| d l Hd Hnd IH]; intros Hin; [destruct Hin |].
  cbn [map list_sum fold_right length].
  match goal with
  | |- context [fold_right Nat.add 0%nat ?m] => fold (list_sum m)
  end.
  destruct (Z.eqb_spec d z) as [-> | Hne].
  - rewrite (map_ext_in _ (fun _ => b)).
    + rewrite list_sum_const. lia.
    + intros e He. destruct (Z.eqb_spec e z) as [-> | _]; [contradiction |].
      reflexivity.
  - destruct Hin as [-> | Hin]; [contradiction |].
    rewrite (IH Hin). destruct l as [| e l]; [destruct Hin |].
    cbn [length]. lia.
Qed.

(** X8: when the whole window of [radius] rows and columns around a cell
    lies in the grid, the cell has [(2 * radius + 1)^2 - 1] neighbours:
    8 for radius 1. *)
Theorem get_neighbors_count (rows cols : Z) (spacing : R)
    (row col radius : Z) :
  (0 <= radius)%Z ->
  (0 <= row - radius)%Z -> (row + radius < rows)%Z ->
  (0 <= col - radius)%Z -> (col + radius < cols)%Z ->
  length (DotGrid.get_neighbors (DotGrid.new rows cols spacing)
            row col radius)
  = (Z.to_nat (2 * radius + 1) * Z.to_nat (2 * radius + 1) - 1)%nat.
Proof.
  intros Hrad Hr0 Hr1 Hc0 Hc1. unfold DotGrid.get_neighbors.
  set (L := range3 (- radius) (radius + 1) 1).
  assert (HL : length L = Z.to_nat (2 * radius + 1)).
  { unfold L. rewrite range3_length, Z.div_1_r. f_equal. lia. }
  assert (Hnd : NoDup L) by (apply NoDup_range3; lia).
  assert (H0 : In 0%Z L) by (apply range3_step1; lia).
  rewrite length_flat_map_sum.
  rewrite (map_ext_in _
             (fun dr => if (dr =? 0)%Z then (length L - 1)%nat else length L)).
  - rewrite (list_sum_one_special 0 _ _ L Hnd H0), HL.
    assert (1 <= Z.to_nat (2 * radius + 1))%nat by lia. nia.
  - intros dr Hdr. apply range3_step1 in Hdr.
    rewrite length_flat_map_sum.
    rewrite (map_ext_in _
               (fun dc => if (dc =? 0)%Z
                          then (if (dr =? 0)%Z then 0 else 1)%nat
                          else 1%nat)).
    + rewrite (list_sum_one_special 0 _ _ L Hnd H0).
      destruct (dr =? 0)%Z; lia.
    + intros dc Hdc. apply range3_step1 in Hdc.
      rewrite (get_dot_in_bounds rows cols spacing) by lia.
      destruct (dr =? 0)%Z, (dc =? 0)%Z; reflexivity.
Qed.

Lemma get_neighbors_count_witness :
  (0 <= 1)%Z /\ (0 <= 2 - 1)%Z /\ (2 + 1 < 5)%Z
  /\ length (DotGrid.get_neighbors (DotGrid.new 5 5 2) 2 2 1) = 8%nat.
Proof.
  split; [lia |]. split; [lia |]. split; [lia |].
  apply (get_neighbors_count 5 5 2 2 2 1); lia.
Defined.

End NeighbourCount.

(** ** Where the generated points lie *)

Section CurveShapes.

Lemma spec_loop_points (g : DotGrid.t) (cells : list (Z * Z)) (radius : R) :
  Forall (fun p =>
            exists cell dot,
              In cell cells
              /\ DotGrid.get_dot g (fst cell) (snd cell) = Some dot
              /\ Point2D.distance_to p dot = Rabs radius)
         (Spec.loop_around_dots g cells radius).
Proof.
  induction cells as [| cell rest IH]; [constructor |].
  cbn [Spec.loop_around_dots].
  assert (IH' : Forall (fun p =>
            exists cell' dot,
              In cell' (cell :: rest)
              /\ DotGrid.get_dot g (fst cell') (snd cell') = Some dot
              /\ Point2D.distance_to p dot = Rabs radius)
         (Spec.loop_around_dots g rest radius)).
  { eapply Forall_impl; [| exact IH].
    intros p [c [d [Hc H]]]. exists c, d. split; [now right | exact H]. }
  destruct (DotGrid.get_dot g (fst cell) (snd cell)) as [dot |] eqn:E;
    [| exact IH'].
  apply Forall_app. split; [| exact IH'].
  apply Forall_forall. intros p Hp. exists cell, dot.
  split; [now left |]. split; [exact E |].
  now apply arc_on_circle in Hp.
Qed.

(** X9: every point of a loop curve lies on the circle of radius
    [|curve_radius|] around the dot of a listed cell that is inside the
    grid; no point is produced for any other place. *)
Theorem loop_points_on_listed_dots (rows cols : Z) (spacing : R)
    (cells : list (Z * Z)) (radius : R) :
  let g := DotGrid.new rows cols spacing in
  Forall (fun p =>
            exists row col,
              In (row, col) cells
              /\ (0 <= row < rows)%Z /\ (0 <= col < cols)%Z
              /\ Point2D.distance_to p
                   (Point2D.mk (IZR col * spacing) (IZR row * spacing))
                 = Rabs radius)
         (CurveGenerator.generate_loop_around_dots (CurveGenerator.mk g)
            cells radius).
Proof.
  cbv zeta. rewrite generate_loop_is_spec.
  eapply Forall_impl; [| apply spec_loop_points].
  intros p [[row col] [dot [Hin [Hdot Hd]]]]. cbn [fst snd] in Hdot.
  assert (Hb : (0 <= row < rows)%Z /\ (0 <= col < cols)%Z).
  { apply (proj1 (get_dot_some_iff rows cols spacing row col)).
    now exists dot. }
  destruct Hb as [Hr Hc].
  rewrite (get_dot_in_bounds rows cols spacing row col Hr Hc) in Hdot.
  inversion Hdot; subst dot.
  exists row, col. repeat split; try assumption; lia.
Qed.

Lemma StronglySorted_map_seq (f : nat -> R) (a n : nat) :
  (forall i j, (a <= i < j)%nat -> (j < a + n)%nat -> f i < f j) ->
  StronglySorted Rlt (map f (seq a n)).
Proof.
  revert a. induction n as [| n IH]; intros a H; cbn [seq map].
  - constructor.
  - constructor.
    + apply IH. intros i j Hij Hj. apply H; lia.
    + apply Forall_forall. intros v Hv. apply in_map_iff in Hv.
      destruct Hv as [j [<- Hj]]. apply in_seq in Hj. apply H; lia.
Qed.

(** X10: along a spiral with positive radius the distance to the center
    grows strictly from each sample to every later one. *)
Theorem spiral_distance_increases (cg : CurveGenerator.t)
    (center : Point2D.t) (radius turns : R) :
  0 < radius ->
  StronglySorted Rlt
    (map (fun p => Point2D.distance_to p center)
         (CurveGenerator.generate_spiral_pattern cg center radius turns)).
Proof.
  intros Hr. unfold CurveGenerator.generate_spiral_pattern, range.
  cbv zeta. rewrite !map_map.
  set (n := int (100 * turns)).
  destruct (Z_le_dec n 0) as [Hn | Hn].
  - replace (Z.to_nat n) with 0%nat by lia. constructor.
  - assert (Hpos : 0 < IZR n) by (apply IZR_lt; lia).
    rewrite (map_ext_in _ (fun i : nat => radius * (INR i / IZR n))).
    + apply StronglySorted_map_seq. intros i j Hij _.
      apply Rmult_lt_compat_l; [exact Hr |].
      unfold Rdiv. apply Rmult_lt_compat_r; [now apply Rinv_0_lt_compat |].
      apply lt_INR. lia.
    + intros i _. rewrite <- INR_IZR_INZ.
      rewrite distance_on_circle. apply Rabs_right.
      apply Rle_ge. apply Rmult_le_pos; [lra |].
      apply Rmult_le_pos; [apply pos_INR |].
      left. now apply Rinv_0_lt_compat.
Qed.

Lemma spiral_distance_increases_witness :
  0 < 1
  /\ StronglySorted Rlt
       (map (fun p => Point2D.distance_to p (Point2D.mk 0 0))
            (CurveGenerator.generate_spiral_pattern
               (CurveGenerator.mk (DotGrid.new 5 5 2)) (Point2D.mk 0 0) 1 1)).
Proof.
  split; [lra |].
  apply (spiral_distance_increases (CurveGenerator.mk (DotGrid.new 5 5 2))
           (Point2D.mk 0 0) 1 1). lra.
Defined.

Lemma int_small (v : R) : v < 1 -> (int v <= 0)%Z.
Proof.
  intros Hv. unfold int. destruct (Rle_dec 0 v) as [H0 | H0].
  - pose proof (Zfloor_bound v) as [Hlo _].
    assert (IZR (Zfloor v) < 1) by lra.
    apply lt_IZR in H. lia.
  - unfold Zceil.
    assert (0 <= Zfloor (- v))%Z by (apply Zfloor_lub; lra). lia.
Qed.

Lemma int_large (v : R) : 1 <= v -> (1 <= int v)%Z.
Proof.
  intros Hv. rewrite int_nonneg by lra. apply Zfloor_lub. lra.
Qed.

(** X11: a spiral has no sample at all exactly when [turns < 0.01]; this
    covers zero and negative turn counts. *)
Theorem spiral_empty_iff (cg : CurveGenerator.t) (center : Point2D.t)
    (radius turns : R) :
  CurveGenerator.generate_spiral_pattern cg center radius turns = []
  <-> turns < 0.01.
Proof.
  rewrite <- length_zero_iff_nil, spiral_length. split.
  - intros H. destruct (Rlt_dec turns 0.01) as [Hlt | Hge]; [exact Hlt |].
    assert (1 <= int (100 * turns))%Z by (apply int_large; lra). lia.
  - intros H. assert (int (100 * turns) <= 0)%Z by (apply int_small; lra).
    lia.
Qed.

(** X12: every sample of a petal curve lies within [|radius|] of the
    center, and the curve starts at [(center.x + radius, center.y)], a point
    at exactly that distance. *)
Theorem petal_within_radius (cg : CurveGenerator.t) (center : Point2D.t)
    (radius : R) (num_petals : Z) :
  let curve :=
    CurveGenerator.generate_petal_pattern cg center radius num_petals in
  Forall (fun p => Point2D.distance_to p center <= Rabs radius) curve
  /\ nth_error curve 0
     = Some (Point2D.mk (Point2D.x center + radius) (Point2D.y center))
  /\ Point2D.distance_to
       (Point2D.mk (Point2D.x center + radius) (Point2D.y center)) center
     = Rabs radius.
Proof.
  cbv zeta. split; [| split].
  - unfold CurveGenerator.generate_petal_pattern. apply Forall_forall.
    intros p Hp. apply in_map_iff in Hp. destruct Hp as [i [<- _]].
    cbv zeta. rewrite distance_on_circle, Rabs_mult, Rabs_Rabsolu.
    rewrite <- (Rmult_1_r (Rabs radius)) at 2.
    apply Rmult_le_compat_l; [apply Rabs_pos |].
    apply Rabs_le. pose proof (COS_bound (IZR num_petals / 2
                                          * (IZR i / IZR 200 * 2 * PI))).
    lra.
  - rewrite petal_nth_error by lia. unfold Spec.polar. cbn [INR].
    replace (0 / 200 * 2 * PI) with 0 by (unfold Rdiv; ring).
    rewrite Rmult_0_r, cos_0, sin_0, Rabs_R1. f_equal. f_equal; ring.
  - pose proof (distance_on_circle center radius 0) as H.
    rewrite cos_0, sin_0 in H. rewrite <- H. f_equal. f_equal; ring.
Qed.

End CurveShapes.

(** ** What detection can report *)

Section DetectionVocabulary.

Ltac split_tests :=
  repeat match goal with
         | |- context [if ?b then _ else _] => destruct b
         end.

(** X13: detection reports only the three rotational folds and the two
    axis reflections, each at most once; the diagonal, translational and
    point kinds are never reported, whatever the points. *)
Theorem detect_symmetries_vocabulary (points : list Point2D.t) :
  incl (SymmetryAnalyzer.detect_symmetries points)
       [ROTATIONAL_2; ROTATIONAL_4; ROTATIONAL_8;
        REFLECTIONAL_VERTICAL; REFLECTIONAL_HORIZONTAL]
  /\ NoDup (SymmetryAnalyzer.detect_symmetries points)
  /\ ~ In REFLECTIONAL_DIAGONAL (SymmetryAnalyzer.detect_symmetries points)
  /\ ~ In TRANSLATIONAL (SymmetryAnalyzer.detect_symmetries points)
  /\ ~ In POINT (SymmetryAnalyzer.detect_symmetries points).
Proof.
  unfold SymmetryAnalyzer.detect_symmetries.
  destruct points as [| p l].
  - split; [intros s [] |]. split; [constructor |].
    repeat split; intros [].
  - cbv zeta. cbn [flat_map]. unfold SymmetryAnalyzer.rotational.
    cbn [Z.eqb Pos.eqb]. split_tests; cbn [app];
      (split; [intros s Hs; cbn [In] in *; intuition (subst; auto) |]);
      (split; [repeat constructor; cbn [In]; intuition discriminate |]);
      cbn [In]; intuition discriminate.
Qed.

End DetectionVocabulary.

(** ** A single point *)

Section SinglePoint.

Variable p : Point2D.t.

Let c := Point2D.mk (sum (map Point2D.x [p]) / len [p])
                    (sum (map Point2D.y [p]) / len [p]).

Lemma single_centroid_x : Point2D.x c = Point2D.x p.
Proof.
  unfold c, sum, len. cbn [map fold_left length INR Point2D.x]. field.
Qed.

Lemma single_centroid_y : Point2D.y c = Point2D.y p.
Proof.
  unfold c, sum, len. cbn [map fold_left length INR Point2D.y]. field.
Qed.

Lemma matched_single (rp : Point2D.t) :
  Point2D.x rp = Point2D.x p -> Point2D.y rp = Point2D.y p ->
  SymmetryAnalyzer.all_matched [rp] [p] SymmetryAnalyzer.tolerance = true.
Proof.
  intros Hx Hy. unfold SymmetryAnalyzer.all_matched. cbn [forallb].
  rewrite matched_by_equal; [reflexivity |].
  exists p. split; [now left | now split].
Qed.

Lemma single_rotational (fold : Z) :
  SymmetryAnalyzer._test_rotational_symmetry [p] c fold
    SymmetryAnalyzer.tolerance = true.
Proof.
  unfold SymmetryAnalyzer._test_rotational_symmetry. cbv zeta. cbn [map].
  apply matched_single;
    unfold Point2D.rotate, Point2D.add, Point2D.sub;
    cbn [Point2D.x Point2D.y];
    rewrite single_centroid_x, single_centroid_y; ring.
Qed.

Lemma single_reflection (axis : string) :
  axis = "vertical"%string \/ axis = "horizontal"%string ->
  SymmetryAnalyzer._test_reflection_symmetry [p] c axis
    SymmetryAnalyzer.tolerance = true.
Proof.
  intros [-> | ->]; unfold SymmetryAnalyzer._test_reflection_symmetry;
    cbn [String.eqb Ascii.eqb Bool.eqb]; cbv zeta; cbn [map];
    apply matched_single; cbn [Point2D.x Point2D.y];
    rewrite ?single_centroid_x, ?single_centroid_y; ring.
Qed.

End SinglePoint.

(** X14: a point set made of one point passes every test: detection
    reports all three rotational folds and both reflections for it. *)
Theorem detect_single_point (p : Point2D.t) :
  SymmetryAnalyzer.detect_symmetries [p]
  = [ROTATIONAL_2; ROTATIONAL_4; ROTATIONAL_8;
     REFLECTIONAL_VERTICAL; REFLECTIONAL_HORIZONTAL].
Proof.
  unfold SymmetryAnalyzer.detect_symmetries. cbv zeta. cbn [flat_map].
  rewrite !single_rotational.
  rewrite !single_reflection by (now left) || (now right).
  reflexivity.
Qed.

(** ** The shape of a synthesized point set *)

Section ApplyShape.

Variables (points : list Point2D.t) (center : Point2D.t).

Lemma apply_rotational_4 :
  SymmetryAnalyzer.apply_symmetry points center ROTATIONAL_4
  = points
    ++ map (fun q => Point2D.rotate q (IZR 1 * PI / 2) (Some center)) points
    ++ map (fun q => Point2D.rotate q (IZR 2 * PI / 2) (Some center)) points
    ++ map (fun q => Point2D.rotate q (IZR 3 * PI / 2) (Some center)) points.
Proof.
  unfold SymmetryAnalyzer.apply_symmetry.
  change (range3 1 4 1) with [1; 2; 3]%Z. cbn [fold_left].
  now rewrite <- !app_assoc.
Qed.

(** X15: the synthesized set starts with the given points, in order; it
    holds four times as many points for the 4-fold rotation, twice as many
    for either reflection, and is the given list itself for every other
    kind. *)
Theorem apply_symmetry_shape (kind : SymmetryType) :
  let result := SymmetryAnalyzer.apply_symmetry points center kind in
  firstn (length points) result = points
  /\ length result
     = match kind with
       | ROTATIONAL_4 => (4 * length points)%nat
       | REFLECTIONAL_VERTICAL | REFLECTIONAL_HORIZONTAL =>
           (2 * length points)%nat
       | _ => length points
       end
  /\ match kind with
     | ROTATIONAL_4 | REFLECTIONAL_VERTICAL | REFLECTIONAL_HORIZONTAL => True
     | _ => result = points
     end.
Proof.
  cbv zeta. destruct kind;
    try (cbn [SymmetryAnalyzer.apply_symmetry];
         rewrite ?firstn_all, ?firstn_app, ?Nat.sub_diag, ?firstn_all,
                 ?length_app, ?length_map;
         cbn [firstn]; rewrite ?app_nil_r;
         repeat split; try reflexivity; lia).
  rewrite apply_rotational_4.
  rewrite firstn_app, Nat.sub_diag, firstn_all, !length_app, !length_map.
  cbn [firstn]. rewrite app_nil_r. repeat split; lia.
Qed.

End ApplyShape.

(** ** Mirroring across the horizontal axis *)

Section ReflectionH.

Lemma centroid_y_of_mirrored (points : list Point2D.t) (center : Point2D.t) :
  points <> [] ->
  sum (map Point2D.y (points ++ map (Spec.mirror_h center) points))
  / len (points ++ map (Spec.mirror_h center) points)
  = Point2D.y center.
Proof.
  intros Hne. pose proof (len_pos points Hne) as Hpos.
  rewrite map_app, sum_app, map_map. unfold Spec.mirror_h at 1.
  cbn [Point2D.y].
  rewrite (sum_map_mirror Point2D.y (2 * Point2D.y center) points).
  unfold len in *. rewrite length_app, length_map, plus_INR.
  field. lra.
Qed.

Lemma mirrored_passes_horizontal_test (points : list Point2D.t)
    (center centroid : Point2D.t) :
  Point2D.y centroid = Point2D.y center ->
  SymmetryAnalyzer._test_reflection_symmetry
    (points ++ map (Spec.mirror_h center) points) centroid "horizontal"
    SymmetryAnalyzer.tolerance = true.
Proof.
  intros Hc. unfold SymmetryAnalyzer._test_reflection_symmetry.
  change (String.eqb "horizontal" "vertical") with false.
  change (String.eqb "horizontal" "horizontal") with true. cbv iota zeta.
  unfold SymmetryAnalyzer.all_matched. apply forallb_forall.
  intros rp Hrp. apply in_map_iff in Hrp. destruct Hrp as [p [<- Hp]].
  apply matched_by_equal. rewrite Hc.
  apply in_app_or in Hp. destruct Hp as [Hp | Hp].
  - exists (Spec.mirror_h center p). split.
    + apply in_or_app. right. now apply in_map.
    + split; reflexivity.
  - apply in_map_iff in Hp. destruct Hp as [q [<- Hq]].
    exists q. split.
    + apply in_or_app. now left.
    + unfold Spec.mirror_h. cbn [Point2D.x Point2D.y].
      split; [reflexivity | ring].
Qed.

Lemma detect_reports_horizontal (points : list Point2D.t) :
  points <> [] ->
  SymmetryAnalyzer._test_reflection_symmetry points
    (Point2D.mk (sum (map Point2D.x points) / len points)
                (sum (map Point2D.y points) / len points))
    "horizontal" SymmetryAnalyzer.tolerance = true ->
  In REFLECTIONAL_HORIZONTAL (SymmetryAnalyzer.detect_symmetries points).
Proof.
  intros Hne Htest. unfold SymmetryAnalyzer.detect_symmetries.
  destruct points as [| p l]; [congruence |].
  cbv zeta. rewrite Htest. apply in_or_app. right. now left.
Qed.

End ReflectionH.

(** X16: for every non-empty list of points of moderate size (at most
    [10^6] points, all coordinates and the center within [10^6]), detection
    on the list joined with its mirror image across the horizontal axis
    through the center reports the horizontal axis. *)
Theorem detect_after_horizontal_mirroring (points : list Point2D.t)
    (center : Point2D.t) :
  points <> [] ->
  Spec.moderate points center ->
  In REFLECTIONAL_HORIZONTAL
     (SymmetryAnalyzer.detect_symmetries
        (SymmetryAnalyzer.apply_symmetry points center
           REFLECTIONAL_HORIZONTAL)).
Proof.
  intros Hne _.
  change (SymmetryAnalyzer.apply_symmetry points center REFLECTIONAL_HORIZONTAL)
    with (points ++ map (Spec.mirror_h center) points).
  apply detect_reports_horizontal.
  - destruct points; [congruence | discriminate].
  - apply mirrored_passes_horizontal_test. cbn [Point2D.y].
    now apply centroid_y_of_mirrored.
Qed.

Lemma detect_after_horizontal_mirroring_witness :
  [Point2D.mk 1 2] <> []
  /\ Spec.moderate [Point2D.mk 1 2] (Point2D.mk 0 0)
  /\ In REFLECTIONAL_HORIZONTAL
        (SymmetryAnalyzer.detect_symmetries
           (SymmetryAnalyzer.apply_symmetry [Point2D.mk 1 2] (Point2D.mk 0 0)
              REFLECTIONAL_HORIZONTAL)).
Proof.
  split; [discriminate |].
  split; [exact moderate_one_two |].
  apply (detect_after_horizontal_mirroring
           [Point2D.mk 1 2] (Point2D.mk 0 0)).
  - discriminate.
  - exact moderate_one_two.
Defined.

(** ** Four rotated copies *)

Section QuarterTurns.

Variables (points : list Point2D.t) (center : Point2D.t).

(** [q] turned by [m] quarter turns about [center]. *)
Let quarter (m : nat) (q : Point2D.t) : Point2D.t :=
  Point2D.rotate q (INR m * (PI / 2)) (Some center).

Let copies : list Point2D.t :=
  points ++ map (quarter 1) points ++ map (quarter 2) points
  ++ map (quarter 3) points.

Lemma rotate_same_center (q c c' : Point2D.t) (a : R) :
  Point2D.x c' = Point2D.x c -> Point2D.y c' = Point2D.y c ->
  Point2D.rotate q a (Some c') = Point2D.rotate q a (Some c).
Proof.
  intros Hx Hy. unfold Point2D.rotate, Point2D.add, Point2D.sub.
  now rewrite Hx, Hy.
Qed.

Lemma rotate_angle (q c : Point2D.t) (a b : R) :
  a = b -> Point2D.rotate q a (Some c) = Point2D.rotate q b (Some c).
Proof. now intros ->. Qed.

Lemma rotate_whole_turns (q c : Point2D.t) (a : R) (k : nat) :
  Point2D.rotate q (a + 2 * INR k * PI) (Some c)
  = Point2D.rotate q a (Some c).
Proof.
  unfold Point2D.rotate. now rewrite cos_period, sin_period.
Qed.

Lemma quarter_mod_4 (m : nat) (q : Point2D.t) :
  quarter m q = quarter (m mod 4) q.
Proof.
  unfold quarter.
  rewrite <- (rotate_whole_turns q center (INR (m mod 4) * (PI / 2)) (m / 4)).
  apply rotate_angle.
  rewrite (Nat.div_mod_eq m 4) at 1.
  rewrite plus_INR, mult_INR. replace (INR 4) with 4 by (simpl; ring).
  field.
Qed.

Lemma quarter_0 (q : Point2D.t) : quarter 0 q = q.
Proof.
  unfold quarter. cbn [INR]. rewrite Rmult_0_l. apply rotate_zero.
Qed.

Lemma quarter_add (i j : nat) (q : Point2D.t) :
  Point2D.rotate (quarter i q) (INR j * (PI / 2)) (Some center)
  = quarter (i + j) q.
Proof.
  unfold quarter. rewrite rotate_rotate. apply rotate_angle.
  rewrite plus_INR. ring.
Qed.

Lemma apply_rotational_4_copies :
  SymmetryAnalyzer.apply_symmetry points center ROTATIONAL_4 = copies.
Proof.
  rewrite apply_rotational_4. unfold copies, quarter.
  repeat (f_equal; try (apply map_ext; intros q; apply rotate_angle;
                        simpl; field)).
Qed.

Lemma in_copies (q : Point2D.t) (m : nat) :
  In q points -> In (quarter m q) copies.
Proof.
  intros Hq. rewrite quarter_mod_4.
  assert (Hm : (m mod 4 < 4)%nat) by (apply Nat.mod_upper_bound; lia).
  unfold copies.
  destruct (m mod 4) as [| [| [| [| k]]]]; [| | | | lia].
  - rewrite quarter_0. apply in_or_app. now left.
  - apply in_or_app. right. apply in_or_app. left. now apply in_map.
  - apply in_or_app. right. apply in_or_app. right.
    apply in_or_app. left. now apply in_map.
  - apply in_or_app. right. apply in_or_app. right.
    apply in_or_app. right. now apply in_map.
Qed.

Lemma copies_origin (u : Point2D.t) :
  In u copies -> exists q i, In q points /\ u = quarter i q.
Proof.
  unfold copies. intros Hu.
  apply in_app_or in Hu. destruct Hu as [Hu | Hu].
  { exists u, 0%nat. split; [exact Hu | now rewrite quarter_0]. }
  apply in_app_or in Hu. destruct Hu as [Hu | Hu].
  { apply in_map_iff in Hu. destruct Hu as [q [<- Hq]]. now exists q, 1%nat. }
  apply in_app_or in Hu. destruct Hu as [Hu | Hu].
  { apply in_map_iff in Hu. destruct Hu as [q [<- Hq]]. now exists q, 2%nat. }
  apply in_map_iff in Hu. destruct Hu as [q [<- Hq]]. now exists q, 3%nat.
Qed.

Lemma quarter_coordinates (q : Point2D.t) :
  let dx := Point2D.x q - Point2D.x center in
  let dy := Point2D.y q - Point2D.y center in
  quarter 1 q = Point2D.mk (dx * 0 - dy * 1 + Point2D.x center)
                           (dx * 1 + dy * 0 + Point2D.y center)
  /\ quarter 2 q = Point2D.mk (dx * -1 - dy * 0 + Point2D.x center)
                              (dx * 0 + dy * -1 + Point2D.y center)
  /\ quarter 3 q = Point2D.mk (dx * 0 - dy * -1 + Point2D.x center)
                              (dx * -1 + dy * 0 + Point2D.y center).
Proof.
  cbv zeta. unfold quarter, Point2D.rotate, Point2D.add, Point2D.sub.
  cbn [Point2D.x Point2D.y].
  replace (INR 1 * (PI / 2)) with (PI / 2) by (simpl; ring).
  replace (INR 2 * (PI / 2)) with PI by (simpl; field).
  replace (INR 3 * (PI / 2)) with (3 * (PI / 2)) by (simpl; ring).
  rewrite cos_PI2, sin_PI2, cos_PI, sin_PI, cos_3PI2, sin_3PI2.
  repeat split; reflexivity.
Qed.

Hypothesis points_not_empty : points <> [].

Lemma copies_len : len copies = 4 * len points.
Proof.
  unfold len, copies. rewrite !length_app, !length_map, !plus_INR. ring.
Qed.

Lemma copies_sum_x :
  sum (map Point2D.x copies) = 4 * Point2D.x center * len points.
Proof.
  unfold copies. rewrite !map_app, !sum_app, !map_map.
  rewrite <- !sum_map_plus, <- sum_map_const.
  f_equal. apply map_ext. intros q.
  destruct (quarter_coordinates q) as [E1 [E2 E3]].
  rewrite E1, E2, E3. cbn [Point2D.x]. ring.
Qed.

Lemma copies_sum_y :
  sum (map Point2D.y copies) = 4 * Point2D.y center * len points.
Proof.
  unfold copies. rewrite !map_app, !sum_app, !map_map.
  rewrite <- !sum_map_plus, <- sum_map_const.
  f_equal. apply map_ext. intros q.
  destruct (quarter_coordinates q) as [E1 [E2 E3]].
  rewrite E1, E2, E3. cbn [Point2D.y]. ring.
Qed.

Let centroid : Point2D.t :=
  Point2D.mk (sum (map Point2D.x copies) / len copies)
             (sum (map Point2D.y copies) / len copies).

Lemma copies_centroid_x : Point2D.x centroid = Point2D.x center.
Proof.
  pose proof (len_pos points points_not_empty).
  unfold centroid. cbn [Point2D.x]. rewrite copies_sum_x, copies_len.
  field. lra.
Qed.

Lemma copies_centroid_y : Point2D.y centroid = Point2D.y center.
Proof.
  pose proof (len_pos points points_not_empty).
  unfold centroid. cbn [Point2D.y]. rewrite copies_sum_y, copies_len.
  field. lra.
Qed.

(** Turning the four copies by [j] quarter turns about their centroid
    lands every point on a point of the set. *)
Lemma copies_pass_rotation (fold : Z) (j : nat) :
  2 * PI / IZR fold = INR j * (PI / 2) ->
  SymmetryAnalyzer._test_rotational_symmetry copies centroid fold
    SymmetryAnalyzer.tolerance = true.
Proof.
  intros Hangle. unfold SymmetryAnalyzer._test_rotational_symmetry.
  cbv zeta. rewrite Hangle.
  unfold SymmetryAnalyzer.all_matched. apply forallb_forall.
  intros rp Hrp. apply in_map_iff in Hrp. destruct Hrp as [u [<- Hu]].
  apply copies_origin in Hu. destruct Hu as [q [i [Hq ->]]].
  rewrite (rotate_same_center _ center centroid _
             copies_centroid_x copies_centroid_y).
  rewrite quarter_add. apply matched_by_equal.
  exists (quarter (i + j) q). split; [now apply in_copies | now split].
Qed.

Lemma copies_not_nil : copies <> [].
Proof.
  unfold copies. destruct points; [congruence | discriminate].
Qed.

End QuarterTurns.

Lemma detect_reports_rotational (points : list Point2D.t) :
  points <> [] ->
  (SymmetryAnalyzer._test_rotational_symmetry points
     (Point2D.mk (sum (map Point2D.x points) / len points)
                 (sum (map Point2D.y points) / len points))
     2 SymmetryAnalyzer.tolerance = true ->
   In ROTATIONAL_2 (SymmetryAnalyzer.detect_symmetries points))
  /\ (SymmetryAnalyzer._test_rotational_symmetry points
        (Point2D.mk (sum (map Point2D.x points) / len points)
                    (sum (map Point2D.y points) / len points))
        4 SymmetryAnalyzer.tolerance = true ->
      In ROTATIONAL_4 (SymmetryAnalyzer.detect_symmetries points)).
Proof.
  intros Hne. unfold SymmetryAnalyzer.detect_symmetries.
  destruct points as [| p l]; [congruence |].
  cbv zeta. cbn [flat_map]. unfold SymmetryAnalyzer.rotational.
  cbn [Z.eqb Pos.eqb].
  split; intros Htest; rewrite Htest;
    repeat match goal with
           | |- context [if ?b then _ else _] => destruct b
           end;
    cbn [app In]; tauto.
Qed.

(** X17: for every non-empty list of points of moderate size (at most
    [10^6] points, all coordinates and the center within [10^6]), detection
    on the list joined with its three rotated copies (the 4-fold synthesis)
    reports the 4-fold and the 2-fold rotation. *)
Theorem detect_after_rotation_4 (points : list Point2D.t)
    (center : Point2D.t) :
  points <> [] ->
  Spec.moderate points center ->
  let result :=
    SymmetryAnalyzer.detect_symmetries
      (SymmetryAnalyzer.apply_symmetry points center ROTATIONAL_4) in
  In ROTATIONAL_4 result /\ In ROTATIONAL_2 result.
Proof.
  intros Hne _. cbv zeta. rewrite apply_rotational_4_copies.
  pose proof (copies_not_nil points center Hne) as Hcn.
  destruct (detect_reports_rotational _ Hcn) as [H2 H4].
  split.
  - apply H4. apply (copies_pass_rotation points center Hne 4 1).
    simpl. field.
  - apply H2. apply (copies_pass_rotation points center Hne 2 2).
    simpl. field.
Qed.

Lemma detect_after_rotation_4_witness :
  [Point2D.mk 1 2] <> []
  /\ Spec.moderate [Point2D.mk 1 2] (Point2D.mk 0 0)
  /\ In ROTATIONAL_4
       (SymmetryAnalyzer.detect_symmetries
          (SymmetryAnalyzer.apply_symmetry [Point2D.mk 1 2] (Point2D.mk 0 0)
             ROTATIONAL_4)).
Proof.
  split; [discriminate |].
  split; [exact moderate_one_two |].
  apply (detect_after_rotation_4 [Point2D.mk 1 2] (Point2D.mk 0 0)).
  - discriminate.
  - exact moderate_one_two.
Defined.

(** ** The bounding box of a pattern *)

Section BoxProperties.

(** X18: as soon as the curves of a pattern hold one point,
    [get_bounding_box] returns a box; every point of every curve lies in
    it, and each of its four sides passes through a point of the pattern. *)
Theorem get_bounding_box_encloses (p : KolamPattern.t) :
  concat (KolamPattern.curves p) <> [] ->
  exists lo hi,
    KolamPattern.get_bounding_box p = Ok (lo, hi)
    /\ (forall q, In q (concat (KolamPattern.curves p)) ->
          Point2D.x lo <= Point2D.x q <= Point2D.x hi
          /\ Point2D.y lo <= Point2D.y q <= Point2D.y hi)
    /\ (exists q, In q (concat (KolamPattern.curves p))
                  /\ Point2D.x q = Point2D.x lo)
    /\ (exists q, In q (concat (KolamPattern.curves p))
                  /\ Point2D.x q = Point2D.x hi)
    /\ (exists q, In q (concat (KolamPattern.curves p))
                  /\ Point2D.y q = Point2D.y lo)
    /\ (exists q, In q (concat (KolamPattern.curves p))
                  /\ Point2D.y q = Point2D.y hi).
Proof.
  intros Hne.
  destruct (get_bounding_box_some_point p Hne)
    as [lo [hi [E [Hin [I1 [I2 [I3 I4]]]]]]].
  exists lo, hi. split; [exact E |]. split; [exact Hin |].
  apply in_map_iff in I1, I2, I3, I4.
  destruct I1 as [q1 [E1 H1]], I2 as [q2 [E2 H2]],
           I3 as [q3 [E3 H3]], I4 as [q4 [E4 H4]].
  repeat split; [exists q1 | exists q2 | exists q3 | exists q4]; now split.
Qed.

Lemma get_bounding_box_encloses_witness :
  concat (KolamPattern.curves
            (KolamPattern.add_curve (KolamPattern.__init__ "p" PULLI_KOLAM)
               [Point2D.mk 5 (-3)])) <> []
  /\ exists lo hi,
       KolamPattern.get_bounding_box
         (KolamPattern.add_curve (KolamPattern.__init__ "p" PULLI_KOLAM)
            [Point2D.mk 5 (-3)])
       = Ok (lo, hi).
Proof.
  split; [discriminate |].
  destruct (get_bounding_box_encloses
              (KolamPattern.add_curve (KolamPattern.__init__ "p" PULLI_KOLAM)
                 [Point2D.mk 5 (-3)]))
    as [lo [hi [E _]]]; [discriminate |].
  now exists lo, hi.
Defined.

(** X31: the three outcomes of [get_bounding_box]: the origin box when
    the pattern has no curve, [ValueError] when it has curves but none of
    them has a point, and a box otherwise; it raises in no other case. *)
Theorem get_bounding_box_outcomes (p : KolamPattern.t) :
  match KolamPattern.curves p, concat (KolamPattern.curves p) with
  | [], _ =>
      KolamPattern.get_bounding_box p
      = Ok (Point2D.mk 0 0, Point2D.mk 0 0)
  | _ :: _, [] => KolamPattern.get_bounding_box p = Raise ValueError
  | _ :: _, _ :: _ =>
      exists lo hi, KolamPattern.get_bounding_box p = Ok (lo, hi)
  end.
Proof.
  destruct (KolamPattern.curves p) as [| c cs] eqn:Hc.
  - now apply get_bounding_box_no_curves.
  - destruct (concat (c :: cs)) as [| q qs] eqn:Hq.
    + unfold KolamPattern.get_bounding_box. rewrite Hc, Hq. reflexivity.
    + destruct (get_bounding_box_some_point p) as [lo [hi [E _]]].
      * rewrite Hc, Hq. discriminate.
      * now exists lo, hi.
Qed.

(** X20: adding a curve never shrinks the box: when the pattern already
    holds a point, the box after [add_curve] contains the box before. *)
Theorem get_bounding_box_grows (p : KolamPattern.t) (c : list Point2D.t) :
  concat (KolamPattern.curves p) <> [] ->
  exists lo hi lo' hi',
    KolamPattern.get_bounding_box p = Ok (lo, hi)
    /\ KolamPattern.get_bounding_box (KolamPattern.add_curve p c)
       = Ok (lo', hi')
    /\ Point2D.x lo' <= Point2D.x lo /\ Point2D.x hi <= Point2D.x hi'
    /\ Point2D.y lo' <= Point2D.y lo /\ Point2D.y hi <= Point2D.y hi'
    /\ (forall q, In q c ->
          Point2D.x lo' <= Point2D.x q <= Point2D.x hi'
          /\ Point2D.y lo' <= Point2D.y q <= Point2D.y hi').
Proof.
  intros Hne.
  destruct (get_bounding_box_some_point p Hne)
    as [lo [hi [E [_ [I1 [I2 [I3 I4]]]]]]].
  assert (Hcat : concat (KolamPattern.curves (KolamPattern.add_curve p c))
                 = concat (KolamPattern.curves p) ++ c).
  { cbn [KolamPattern.add_curve KolamPattern.curves].
    rewrite concat_app. cbn [concat]. now rewrite app_nil_r. }
  assert (Hne' : concat (KolamPattern.curves (KolamPattern.add_curve p c))
                 <> []).
  { rewrite Hcat. destruct (concat (KolamPattern.curves p));
      [congruence | discriminate]. }
  destruct (get_bounding_box_some_point _ Hne')
    as [lo' [hi' [E' [Hin' _]]]].
  rewrite Hcat in Hin'.
  exists lo, hi, lo', hi'. split; [exact E |]. split; [exact E' |].
  apply in_map_iff in I1, I2, I3, I4.
  destruct I1 as [q1 [E1 H1]], I2 as [q2 [E2 H2]],
           I3 as [q3 [E3 H3]], I4 as [q4 [E4 H4]].
  pose proof (Hin' q1 (in_or_app _ _ _ (or_introl H1))) as B1.
  pose proof (Hin' q2 (in_or_app _ _ _ (or_introl H2))) as B2.
  pose proof (Hin' q3 (in_or_app _ _ _ (or_introl H3))) as B3.
  pose proof (Hin' q4 (in_or_app _ _ _ (or_introl H4))) as B4.
  repeat split; try lra.
  all: intros; try (apply Hin'; apply in_or_app; now right).
Qed.

Lemma get_bounding_box_grows_witness :
  concat (KolamPattern.curves
            (KolamPattern.add_curve (KolamPattern.__init__ "p" PULLI_KOLAM)
               [Point2D.mk 0 0])) <> []
  /\ exists lo hi lo' hi',
       KolamPattern.get_bounding_box
         (KolamPattern.add_curve (KolamPattern.__init__ "p" PULLI_KOLAM)
            [Point2D.mk 0 0])
       = Ok (lo, hi)
       /\ KolamPattern.get_bounding_box
            (KolamPattern.add_curve
               (KolamPattern.add_curve (KolamPattern.__init__ "p" PULLI_KOLAM)
                  [Point2D.mk 0 0])
               [Point2D.mk 5 (-3)])
          = Ok (lo', hi').
Proof.
  split; [discriminate |].
  destruct (get_bounding_box_grows
              (KolamPattern.add_curve (KolamPattern.__init__ "p" PULLI_KOLAM)
                 [Point2D.mk 0 0])
              [Point2D.mk 5 (-3)])
    as [lo [hi [lo' [hi' [E [E' _]]]]]]; [discriminate |].
  now exists lo, hi, lo', hi'.
Defined.

End BoxProperties.

(** ** What every generator leaves in the symmetry list *)

Section GeneratorSymmetries.

Lemma symmetries_fold {A : Type} (step : KolamPattern.t -> A -> KolamPattern.t)
    (l : list A) (p : KolamPattern.t) :
  (forall q a, KolamPattern.symmetries (step q a) = KolamPattern.symmetries q) ->
  KolamPattern.symmetries (fold_left step l p) = KolamPattern.symmetries p.
Proof.
  intros H. revert p. induction l as [| a l IH]; intros p; [reflexivity |].
  cbn [fold_left]. now rewrite IH, H.
Qed.

Lemma analyzed_fresh (p : KolamPattern.t) :
  KolamPattern.symmetries p = [] ->
  KolamPattern.symmetries (KolamPattern.analyze_symmetries p)
  = SymmetryAnalyzer.detect_symmetries
      (concat (KolamPattern.curves (KolamPattern.analyze_symmetries p))).
Proof.
  intros H. rewrite curves_analyze_symmetries.
  now apply analyze_symmetries_fresh.
Qed.

Variable self : KolamGenerator.t.

(** X21: the pattern returned by the dot-loop, mandala, knot and flower
    generators carries, as its symmetry list, the detection result on the
    union of the points of its own curves. *)
Theorem generators_symmetries_in_sync :
  (forall rows cols dot_pattern,
     let p := KolamGenerator.generate_pulli_kolam self rows cols dot_pattern in
     KolamPattern.symmetries p
     = SymmetryAnalyzer.detect_symmetries (concat (KolamPattern.curves p)))
  /\ (forall rings segments,
        let p := KolamGenerator.generate_mandala_kolam self rings segments in
        KolamPattern.symmetries p
        = SymmetryAnalyzer.detect_symmetries (concat (KolamPattern.curves p)))
  /\ (forall complexity,
        let p := KolamGenerator.generate_sikku_kolam self complexity in
        KolamPattern.symmetries p
        = SymmetryAnalyzer.detect_symmetries (concat (KolamPattern.curves p)))
  /\ (forall num_petals layers,
        let p := KolamGenerator.generate_flower_kolam self num_petals layers in
        KolamPattern.symmetries p
        = SymmetryAnalyzer.detect_symmetries (concat (KolamPattern.curves p))).
Proof.
  split; [| split; [| split]].
  - intros rows cols dot_pattern. cbv zeta.
    unfold KolamGenerator.generate_pulli_kolam. cbv zeta.
    apply analyzed_fresh.
    destruct (String.eqb dot_pattern "basic");
      [| destruct (String.eqb dot_pattern "diamond")].
    + rewrite symmetries_fold; [reflexivity |].
      intros q r. rewrite symmetries_fold; [reflexivity |].
      intros q' c. now destruct ((r <? rows - 1) && (c <? cols - 1))%Z.
    + rewrite symmetries_fold; [reflexivity |].
      intros q size.
      now destruct (KolamGenerator.diamond_dots rows cols (rows / 2)
                      (cols / 2) size).
    + reflexivity.
  - intros rings segments. cbv zeta.
    unfold KolamGenerator.generate_mandala_kolam. cbv zeta.
    apply analyzed_fresh.
    rewrite symmetries_fold; [reflexivity |].
    intros q ring. rewrite symmetries_fold; [reflexivity |].
    intros q' spoke. reflexivity.
  - intros complexity. cbv zeta.
    unfold KolamGenerator.generate_sikku_kolam. cbv zeta.
    apply analyzed_fresh.
    rewrite symmetries_fold; [| intros q i; reflexivity].
    rewrite symmetries_fold; [reflexivity | intros q i; reflexivity].
  - intros num_petals layers. cbv zeta.
    unfold KolamGenerator.generate_flower_kolam. cbv zeta.
    apply analyzed_fresh. cbn [KolamPattern.add_curve KolamPattern.symmetries].
    rewrite symmetries_fold; [reflexivity | intros q i; reflexivity].
Qed.

End GeneratorSymmetries.

(** ** The tags of the classifier *)

Section Tags.

Variable self : PatternRecognizer.t.

(** X22: the tag list is never empty and has no repetition; it is
    ["simple"] exactly for curves with fewer than 10 points.  For a curve of
    10 points or more, each of "circular", "spiral", "petal" and "linear" is
    listed exactly when its test passes, and "complex" is listed exactly
    when no test passes. *)
Theorem detect_curve_types_tags (points : list Point2D.t) :
  let tags := PatternRecognizer.detect_curve_types self points in
  tags <> []
  /\ NoDup tags
  /\ ((length points < 10)%nat <-> tags = ["simple"%string])
  /\ ((10 <= length points)%nat ->
        (In "circular"%string tags
         <-> PatternRecognizer._is_circular_pattern self points = true)
        /\ (In "spiral"%string tags
            <-> PatternRecognizer._is_spiral_pattern self points = true)
        /\ (In "petal"%string tags
            <-> PatternRecognizer._is_petal_pattern self points = true)
        /\ (In "linear"%string tags
            <-> PatternRecognizer._has_linear_segments self points = true)
        /\ (In "complex"%string tags
            <-> PatternRecognizer._is_circular_pattern self points = false
                /\ PatternRecognizer._is_spiral_pattern self points = false
                /\ PatternRecognizer._is_petal_pattern self points = false
                /\ PatternRecognizer._has_linear_segments self points
                   = false)).
Proof.
  cbv zeta. unfold PatternRecognizer.detect_curve_types.
  destruct (Nat.ltb_spec (length points) 10) as [Hlt | Hge].
  - split; [discriminate |]. split; [repeat constructor; intros [] |].
    split; [tauto | lia].
  - destruct (PatternRecognizer._is_circular_pattern self points) eqn:Ec;
    destruct (PatternRecognizer._is_spiral_pattern self points) eqn:Es;
    destruct (PatternRecognizer._is_petal_pattern self points) eqn:Ep;
    destruct (PatternRecognizer._has_linear_segments self points) eqn:El;
    cbn [app];
    (split; [discriminate |]);
    (split; [repeat constructor; cbn [In]; intuition discriminate |]);
    (split; [split; [lia | discriminate] |]);
    intros _; cbn [In];
    repeat split; intros; intuition (discriminate || auto).
Qed.

End Tags.

(** ** Straight lines *)

Section StraightLines.

Variable self : PatternRecognizer.t.

Lemma sum_map_eq {A : Type} (f h : A -> R) (l : list A) :
  (forall a, In a l -> f a = h a) -> sum (map f l) = sum (map h l).
Proof. intros H. now rewrite (map_ext_in f h l H). Qed.

Lemma linear_segment_vertical (points : list Point2D.t) (k : R) :
  (forall p, In p points -> Point2D.x p = k) ->
  PatternRecognizer._is_linear_segment self points = true.
Proof.
  intros Hx. unfold PatternRecognizer._is_linear_segment.
  destruct (length points <? 3)%nat; [reflexivity |]. cbv zeta.
  rewrite (sum_map_eq Point2D.x (fun _ => k) points Hx).
  rewrite (sum_map_eq (fun p => Point2D.x p * Point2D.x p) (fun _ => k * k))
    by (intros p Hp; now rewrite (Hx p Hp)).
  rewrite !sum_map_const.
  replace (len points * (k * k * len points)
           - k * len points * (k * len points)) with 0 by ring.
  rewrite Rabs_R0.
  replace (ltb 0 1e-10) with true; [reflexivity |].
  symmetry. apply ltb_true_iff. lra.
Qed.

Lemma linear_segment_on_line (points : list Point2D.t) (a b : R) :
  (forall p, In p points -> Point2D.y p = a * Point2D.x p + b) ->
  PatternRecognizer._is_linear_segment self points = true.
Proof.
  intros Hy. unfold PatternRecognizer._is_linear_segment.
  destruct (Nat.ltb_spec (length points) 3) as [_ | Hlen]; [reflexivity |].
  cbv zeta.
  assert (Hn : 3 <= len points).
  { unfold len. replace 3 with (INR 3) by (simpl; ring). now apply le_INR. }
  set (n := len points) in *.
  set (Sx := sum (map Point2D.x points)).
  set (Sxx := sum (map (fun p => Point2D.x p * Point2D.x p) points)).
  assert (ESy : sum (map Point2D.y points) = a * Sx + b * n).
  { rewrite (sum_map_eq Point2D.y (fun p => a * Point2D.x p + b) points Hy).
    rewrite (sum_map_plus (fun p => a * Point2D.x p) (fun _ => b)).
    now rewrite sum_map_scal, sum_map_const. }
  assert (ESxy : sum (map (fun p => Point2D.x p * Point2D.y p) points)
                 = a * Sxx + b * Sx).
  { rewrite (sum_map_eq (fun p => Point2D.x p * Point2D.y p)
               (fun p => a * (Point2D.x p * Point2D.x p) + b * Point2D.x p))
      by (intros p Hp; rewrite (Hy p Hp); ring).
    rewrite (sum_map_plus (fun p => a * (Point2D.x p * Point2D.x p))
                          (fun p => b * Point2D.x p)).
    now rewrite !sum_map_scal. }
  rewrite ESy, ESxy.
  destruct (ltb (Rabs (n * Sxx - Sx * Sx)) 1e-10) eqn:Ed; [reflexivity |].
  apply ltb_false_iff in Ed.
  assert (Hd : n * Sxx - Sx * Sx <> 0).
  { intros H0. rewrite H0, Rabs_R0 in Ed. lra. }
  replace ((n * (a * Sxx + b * Sx) - Sx * (a * Sx + b * n))
           / (n * Sxx - Sx * Sx)) with a by (field; exact Hd).
  replace ((a * Sx + b * n - a * Sx) / n) with b by (field; lra).
  match goal with
  | |- (if ltb ?tot _ then true else gtb (1 - ?res / ?tot) _) = true =>
      assert (Eres : res = 0)
  end.
  { rewrite (sum_map_eq _ (fun _ => 0)).
    - rewrite sum_map_const. ring.
    - intros p Hp. rewrite (Hy p Hp). ring. }
  rewrite Eres.
  match goal with
  | |- (if ?c then _ else _) = true => destruct c; [reflexivity |]
  end.
  unfold gtb. apply ltb_true_iff. unfold Rdiv. rewrite Rmult_0_l. lra.
Qed.

Lemma linear_segment_collinear (points : list Point2D.t) :
  Spec.collinear points ->
  PatternRecognizer._is_linear_segment self points = true.
Proof.
  intros [[a [b H]] | [k H]].
  - now apply (linear_segment_on_line points a b).
  - now apply (linear_segment_vertical points k).
Qed.

(** Over the reals a segment whose points all lie on one straight line,
    vertical or not, is accepted as linear, whatever the number of points.
    (On a vertical line the denominator of the fit is exactly zero here;
    the float code computes it with cancellation and may miss the
    [1e-10] threshold.) *)
Theorem collinear_segment_is_linear (points : list Point2D.t) :
  Spec.collinear points ->
  PatternRecognizer._is_linear_segment self points = true.
Proof. apply linear_segment_collinear. Qed.

Lemma collinear_sub (points sub : list Point2D.t) :
  incl sub points -> Spec.collinear points -> Spec.collinear sub.
Proof.
  intros Hincl [[a [b H]] | [k H]].
  - left. exists a, b. intros p Hp. apply H, Hincl, Hp.
  - right. exists k. intros p Hp. apply H, Hincl, Hp.
Qed.

Lemma in_firstn_list {A : Type} (k : nat) (l : list A) (a : A) :
  In a (firstn k l) -> In a l.
Proof.
  intros H. rewrite <- (firstn_skipn k l). apply in_or_app. now left.
Qed.

Lemma in_skipn_list {A : Type} (k : nat) (l : list A) (a : A) :
  In a (skipn k l) -> In a l.
Proof.
  intros H. rewrite <- (firstn_skipn k l). apply in_or_app. now right.
Qed.

Lemma count_fold_monotone (test : Z -> bool) (l : list Z) (acc : Z) :
  (acc <= fold_left (fun (c : Z) (i : Z) => if test i then (c + 1)%Z else c)
                    l acc)%Z.
Proof.
  revert acc. induction l as [| i l IH]; intros acc; cbn [fold_left]; [lia |].
  destruct (test i); [| apply IH].
  specialize (IH (acc + 1)%Z). lia.
Qed.

Lemma straight_has_linear_segments (points : list Point2D.t) :
  Spec.collinear points -> (6 <= length points)%nat ->
  PatternRecognizer._has_linear_segments self points = true.
Proof.
  intros Hcol Hlen. unfold PatternRecognizer._has_linear_segments.
  destruct (Nat.ltb_spec (length points) 6) as [Hlt | _]; [lia |].
  cbv zeta. apply Z.ltb_lt. unfold range.
  destruct (Z.to_nat (Z.of_nat (length points) - 5)) as [| m] eqn:Em; [lia |].
  cbn [seq map fold_left].
  assert (Hfirst : PatternRecognizer._is_linear_segment self
                     (firstn (Z.to_nat 5) (skipn (Z.to_nat (Z.of_nat 0)) points))
                   = true).
  { apply linear_segment_collinear.
    apply (collinear_sub points); [| exact Hcol].
    intros p Hp. apply in_firstn_list in Hp. now apply in_skipn_list in Hp. }
  rewrite Hfirst.
  pose proof (count_fold_monotone
                (fun i => PatternRecognizer._is_linear_segment self
                            (firstn (Z.to_nat 5) (skipn (Z.to_nat i) points)))
                (map Z.of_nat (seq 1 m)) (0 + 1)%Z) as Hmono.
  cbv beta in Hmono. lia.
Qed.

End StraightLines.

Lemma collinear_segment_is_linear_witness :
  Spec.collinear [Point2D.mk 0 1; Point2D.mk 1 3; Point2D.mk 2 5]
  /\ PatternRecognizer._is_linear_segment PatternRecognizer.__init__
       [Point2D.mk 0 1; Point2D.mk 1 3; Point2D.mk 2 5] = true.
Proof.
  assert (H : Spec.collinear
                [Point2D.mk 0 1; Point2D.mk 1 3; Point2D.mk 2 5]).
  { left. exists 2, 1. intros p [<- | [<- | [<- | []]]];
      cbn [Point2D.x Point2D.y]; ring. }
  split; [exact H |].
  apply (collinear_segment_is_linear PatternRecognizer.__init__ _ H).
Defined.

(** Over the reals a curve of at least 6 points that all lie on one
    straight line has linear segments; with at least 10 points it is
    tagged "linear". *)
Theorem straight_curve_tagged_linear (self : PatternRecognizer.t)
    (points : list Point2D.t) :
  Spec.collinear points -> (6 <= length points)%nat ->
  PatternRecognizer._has_linear_segments self points = true
  /\ ((10 <= length points)%nat ->
        In "linear"%string
           (PatternRecognizer.detect_curve_types self points)).
Proof.
  intros Hcol Hlen.
  pose proof (straight_has_linear_segments self points Hcol Hlen) as Hlin.
  split; [exact Hlin |]. intros H10.
  unfold PatternRecognizer.detect_curve_types.
  destruct (Nat.ltb_spec (length points) 10) as [Hlt | _]; [lia |].
  rewrite Hlin.
  destruct (PatternRecognizer._is_circular_pattern self points);
    destruct (PatternRecognizer._is_spiral_pattern self points);
    destruct (PatternRecognizer._is_petal_pattern self points);
    cbn [app In]; tauto.
Qed.

Lemma straight_curve_tagged_linear_witness :
  Spec.collinear
    [Point2D.mk 0 0; Point2D.mk 1 0; Point2D.mk 2 0;
     Point2D.mk 3 0; Point2D.mk 4 0; Point2D.mk 5 0]
  /\ (6 <= 6)%nat
  /\ PatternRecognizer._has_linear_segments PatternRecognizer.__init__
       [Point2D.mk 0 0; Point2D.mk 1 0; Point2D.mk 2 0;
        Point2D.mk 3 0; Point2D.mk 4 0; Point2D.mk 5 0] = true.
Proof.
  assert (H : Spec.collinear
                [Point2D.mk 0 0; Point2D.mk 1 0; Point2D.mk 2 0;
                 Point2D.mk 3 0; Point2D.mk 4 0; Point2D.mk 5 0]).
  { left. exists 0, 0.
    intros p [<- | [<- | [<- | [<- | [<- | [<- | []]]]]]];
      cbn [Point2D.x Point2D.y]; ring. }
  split; [exact H |]. split; [apply le_n |].
  apply (straight_curve_tagged_linear PatternRecognizer.__init__ _ H).
  apply le_n.
Defined.

(** ** The curves the generators assemble *)

Section GeneratedCurves.

Variable self : KolamGenerator.t.

(** A loop whose rounds append curves appends, in order, the curves of all
    its rounds. *)
Lemma curves_fold_gen {A : Type}
    (step : KolamPattern.t -> A -> KolamPattern.t)
    (g : A -> list (list Point2D.t)) (l : list A) (p : KolamPattern.t) :
  (forall q a, In a l ->
     KolamPattern.curves (step q a) = KolamPattern.curves q ++ g a) ->
  KolamPattern.curves (fold_left step l p)
  = KolamPattern.curves p ++ flat_map g l.
Proof.
  revert p. induction l as [| a l IH]; intros p H; cbn [fold_left flat_map].
  - now rewrite app_nil_r.
  - rewrite IH by (intros q b Hb; apply H; now right).
    rewrite (H p a (or_introl eq_refl)). now rewrite app_assoc.
Qed.

(** X25: the basic dot-loop variant holds
    [floor((rows-1)/2) * floor((cols-1)/2)] curves, none when either
    factor is not positive. *)
Theorem pulli_basic_count (rows cols : Z) :
  length (KolamPattern.curves
            (KolamGenerator.generate_pulli_kolam self rows cols "basic"))
  = (Z.to_nat ((rows - 1) / 2) * Z.to_nat ((cols - 1) / 2))%nat.
Proof.
  rewrite pulli_basic_curves, length_map. unfold Spec.basic_anchors.
  rewrite length_prod, !range3_length.
  f_equal; f_equal; f_equal; lia.
Qed.

(** The four guards of the diamond variant hold for every size it runs
    through. *)
Lemma diamond_dots_full (rows cols size : Z) :
  (1 <= size < Z.min rows cols / 2)%Z ->
  KolamGenerator.diamond_dots rows cols (rows / 2) (cols / 2) size
  = [(rows / 2 - size, cols / 2); (rows / 2, cols / 2 + size);
     (rows / 2 + size, cols / 2); (rows / 2, cols / 2 - size)]%Z.
Proof.
  intros Hs.
  assert (Hr : (Z.min rows cols / 2 <= rows / 2)%Z)
    by (apply Z.div_le_mono; lia).
  assert (Hc : (Z.min rows cols / 2 <= cols / 2)%Z)
    by (apply Z.div_le_mono; lia).
  pose proof (Z.mul_div_le rows 2 ltac:(lia)).
  pose proof (Z.mul_div_le cols 2 ltac:(lia)).
  unfold KolamGenerator.diamond_dots.
  replace (rows / 2 - size >=? 0)%Z with true by lia.
  replace (cols / 2 + size <? cols)%Z with true by lia.
  replace (rows / 2 + size <? rows)%Z with true by lia.
  replace (cols / 2 - size >=? 0)%Z with true by lia.
  reflexivity.
Qed.

(** X26: the diamond variant holds one closed ring for each size from 1
    to [min(rows, cols) // 2 - 1]; the ring of a size visits the cells above,
    right of, below and left of the center at that distance and returns to
    the first; all five cells lie in the grid, so each ring has 100
    points. *)
Theorem pulli_diamond_rings (rows cols : Z) :
  let p := KolamGenerator.generate_pulli_kolam self rows cols "diamond" in
  let cg := CurveGenerator.mk (DotGrid.new rows cols 2) in
  let ring := fun size =>
    [(rows / 2 - size, cols / 2); (rows / 2, cols / 2 + size);
     (rows / 2 + size, cols / 2); (rows / 2, cols / 2 - size);
     (rows / 2 - size, cols / 2)]%Z in
  KolamPattern.curves p
  = map (fun size =>
           CurveGenerator.generate_loop_around_dots cg (ring size) 0.3)
        (range3 1 (Z.min rows cols / 2) 1)
  /\ length (KolamPattern.curves p) = Z.to_nat (Z.min rows cols / 2 - 1)
  /\ Forall (fun curve => length curve = 100%nat) (KolamPattern.curves p).
Proof.
  cbv zeta.
  assert (E : KolamPattern.curves
                (KolamGenerator.generate_pulli_kolam self rows cols "diamond")
              = map (fun size =>
                       CurveGenerator.generate_loop_around_dots
                         (CurveGenerator.mk (DotGrid.new rows cols 2))
                         [(rows / 2 - size, cols / 2);
                          (rows / 2, cols / 2 + size);
                          (rows / 2 + size, cols / 2);
                          (rows / 2, cols / 2 - size);
                          (rows / 2 - size, cols / 2)]%Z 0.3)
                    (range3 1 (Z.min rows cols / 2) 1)).
  { unfold KolamGenerator.generate_pulli_kolam. cbv zeta.
    rewrite curves_analyze_symmetries.
    change (String.eqb "diamond" "basic") with false.
    change (String.eqb "diamond" "diamond") with true. cbv iota.
    rewrite (curves_fold_gen _
               (fun size =>
                  [CurveGenerator.generate_loop_around_dots
                     (CurveGenerator.mk (DotGrid.new rows cols 2))
                     [(rows / 2 - size, cols / 2);
                      (rows / 2, cols / 2 + size);
                      (rows / 2 + size, cols / 2);
                      (rows / 2, cols / 2 - size);
                      (rows / 2 - size, cols / 2)]%Z 0.3])).
    - cbn [KolamPattern.curves KolamPattern.set_grid KolamPattern.__init__ app].
      rewrite flat_map_concat_map.
      induction (range3 1 (Z.min rows cols / 2) 1) as [| a l IH];
        [reflexivity |].
      cbn [map concat app]. now rewrite IH.
    - intros q size Hsize. apply range3_step1 in Hsize.
      now rewrite diamond_dots_full by lia. }
  split; [exact E |]. rewrite E. split.
  - rewrite length_map, range3_length, Z.div_1_r. f_equal. lia.
  - apply Forall_forall. intros curve Hc. apply in_map_iff in Hc.
    destruct Hc as [size [<- Hsize]]. apply range3_step1 in Hsize.
    assert (Hr : (Z.min rows cols / 2 <= rows / 2)%Z)
      by (apply Z.div_le_mono; lia).
    assert (Hcl : (Z.min rows cols / 2 <= cols / 2)%Z)
      by (apply Z.div_le_mono; lia).
    pose proof (Z.mul_div_le rows 2 ltac:(lia)).
    pose proof (Z.mul_div_le cols 2 ltac:(lia)).
    rewrite generate_loop_is_spec, spec_loop_length.
    cbn [filter]. unfold Spec.in_bounds. cbn [fst snd].
    rewrite !(get_dot_in_bounds rows cols 2) by lia. reflexivity.
Qed.

End GeneratedCurves.

(** ** The generators as assemblies of their pieces *)

Section Assemblies.

Variable self : KolamGenerator.t.

Lemma mandala_curves (rings segments : Z) :
  KolamPattern.curves
    (KolamGenerator.generate_mandala_kolam self rings segments)
  = flat_map
      (fun ring =>
         Parts.mandala_ring rings segments ring
         :: map (Parts.mandala_spoke rings segments ring) (range segments))
      (range3 1 (rings + 1) 1).
Proof.
  unfold KolamGenerator.generate_mandala_kolam. cbv zeta.
  rewrite curves_analyze_symmetries.
  rewrite (curves_fold_gen _
             (fun ring =>
                Parts.mandala_ring rings segments ring
                :: map (Parts.mandala_spoke rings segments ring)
                       (range segments))).
  - reflexivity.
  - intros q ring _.
    rewrite (curves_fold_gen _
               (fun spoke => [Parts.mandala_spoke rings segments ring spoke])).
    + cbn [KolamPattern.curves KolamPattern.add_curve].
      rewrite <- app_assoc. f_equal.
    + intros q' spoke _. reflexivity.
Qed.


Lemma flower_curves (num_petals layers : Z) :
  KolamPattern.curves
    (KolamGenerator.generate_flower_kolam self num_petals layers)
  = map (Parts.flower_petal num_petals layers) (range layers)
    ++ [Parts.flower_spiral layers].
Proof.
  unfold KolamGenerator.generate_flower_kolam. cbv zeta.
  rewrite curves_analyze_symmetries, curves_add_curve.
  rewrite (curves_fold_gen _
             (fun layer => [Parts.flower_petal num_petals layers layer]))
    by (intros; reflexivity).
  cbn [KolamPattern.curves KolamPattern.set_grid KolamPattern.__init__ app].
  reflexivity.
Qed.

End Assemblies.

(** ** Connectors, mandalas, flowers and knots *)

Section Connector.

Variable self : KolamGenerator.t.

Lemma connecting_curve_nth (start end_ : Point2D.t) (i : nat) :
  (i < 20)%nat ->
  nth_error (KolamGenerator._generate_connecting_curve self start end_) i
  = Some (Point2D.mk
            ((1 - INR i / 19) * Point2D.x start
             + INR i / 19 * Point2D.x end_)
            ((1 - INR i / 19) * Point2D.y start
             + INR i / 19 * Point2D.y end_
             + INR i / 19 * (1 - INR i / 19))).
Proof.
  intros Hi. unfold KolamGenerator._generate_connecting_curve. cbv zeta.
  rewrite nth_error_map, range_nth_error by (simpl; lia).
  cbn [option_map]. rewrite <- INR_IZR_INZ.
  change (IZR (20 - 1)) with 19. f_equal.
  f_equal; [field | replace 0.5 with (1 / 2) by lra; field].
Qed.

Lemma connecting_curve_first (start end_ : Point2D.t) :
  nth_error (KolamGenerator._generate_connecting_curve self start end_) 0
  = Some start.
Proof.
  rewrite connecting_curve_nth by lia. cbn [INR].
  destruct start as [sx sy]. cbn [Point2D.x Point2D.y].
  f_equal. f_equal; field.
Qed.

Lemma connecting_curve_last (start end_ : Point2D.t) :
  nth_error (KolamGenerator._generate_connecting_curve self start end_) 19
  = Some end_.
Proof.
  rewrite connecting_curve_nth by lia.
  replace (INR 19) with 19 by (simpl; ring).
  destruct end_ as [ex ey]. cbn [Point2D.x Point2D.y].
  f_equal. f_equal; field.
Qed.

(** X27: a connecting curve has 20 points, starts at [start] and ends at
    [end]; sample [i] is the point of the straight segment from [start] to
    [end] at parameter [t = i / 19], raised by [t * (1 - t)]. *)
Theorem connecting_curve_shape (start end_ : Point2D.t) :
  let curve := KolamGenerator._generate_connecting_curve self start end_ in
  length curve = 20%nat
  /\ nth_error curve 0 = Some start
  /\ nth_error curve 19 = Some end_
  /\ forall i, (i < 20)%nat ->
       nth_error curve i
       = Some (Point2D.mk
                 ((1 - INR i / 19) * Point2D.x start
                  + INR i / 19 * Point2D.x end_)
                 ((1 - INR i / 19) * Point2D.y start
                  + INR i / 19 * Point2D.y end_
                  + INR i / 19 * (1 - INR i / 19))).
Proof.
  cbv zeta. split; [| split; [| split]].
  - unfold KolamGenerator._generate_connecting_curve.
    now rewrite length_map, range_length.
  - apply connecting_curve_first.
  - apply connecting_curve_last.
  - apply connecting_curve_nth.
Qed.

End Connector.

Section Mandala.

Variable self : KolamGenerator.t.

Lemma mandala_ring_point (rings segments ring : Z) (q : Point2D.t) :
  (0 <= ring)%Z ->
  In q (Parts.mandala_ring rings segments ring) ->
  Point2D.distance_to q (Parts.mandala_center rings) = IZR ring * 0.8.
Proof.
  intros Hring Hq. unfold Parts.mandala_ring in Hq.
  apply in_map_iff in Hq. destruct Hq as [i [<- _]]. cbv zeta.
  rewrite distance_on_circle. apply Rabs_right.
  assert (0 <= IZR ring) by now apply IZR_le. lra.
Qed.

Lemma mandala_spoke_point (rings segments ring spoke : Z) (q : Point2D.t) :
  (0 <= ring)%Z ->
  In q (Parts.mandala_spoke rings segments ring spoke) ->
  Point2D.distance_to q (Parts.mandala_center rings) <= IZR ring * 0.8.
Proof.
  intros Hring Hq. unfold Parts.mandala_spoke in Hq.
  apply in_map_iff in Hq. destruct Hq as [t [<- Ht]]. cbv zeta.
  apply in_range in Ht.
  rewrite distance_on_circle.
  assert (0 <= IZR ring) by now apply IZR_le.
  assert (0 <= IZR t <= 9).
  { split; [apply IZR_le; lia | apply IZR_le; lia]. }
  rewrite Rabs_right by nra. nra.
Qed.

(** X28: the mandala holds, for each ring from 1 to [rings], one ring
    curve of [8 * segments] points followed by [segments] spokes of 10
    points: [rings * (1 + segments)] curves in all.  The points of the ring
    curve of ring [k] lie at distance [0.8 * k] from the center of the
    pattern, and no point of the pattern lies farther from it than
    [0.8 * rings]. *)
Theorem mandala_structure (rings segments : Z) :
  let p := KolamGenerator.generate_mandala_kolam self rings segments in
  KolamPattern.curves p
  = flat_map
      (fun ring =>
         Parts.mandala_ring rings segments ring
         :: map (Parts.mandala_spoke rings segments ring) (range segments))
      (range3 1 (rings + 1) 1)
  /\ length (KolamPattern.curves p)
     = (Z.to_nat rings * (1 + Z.to_nat segments))%nat
  /\ (forall ring spoke,
        length (Parts.mandala_ring rings segments ring)
        = Z.to_nat (segments * 8)
        /\ length (Parts.mandala_spoke rings segments ring spoke) = 10%nat)
  /\ (forall ring, (1 <= ring <= rings)%Z ->
        Forall (fun q =>
                  Point2D.distance_to q (Parts.mandala_center rings)
                  = IZR ring * 0.8)
               (Parts.mandala_ring rings segments ring))
  /\ Forall (fun q =>
               Point2D.distance_to q (Parts.mandala_center rings)
               <= IZR rings * 0.8)
            (concat (KolamPattern.curves p)).
Proof.
  cbv zeta. rewrite mandala_curves.
  split; [reflexivity |]. split; [| split; [| split]].
  - rewrite length_flat_map_sum.
    rewrite (map_ext _ (fun _ => (1 + Z.to_nat segments)%nat)).
    + rewrite list_sum_const, range3_length, Z.div_1_r.
      replace (Z.to_nat (rings + 1 - 1 + 1 - 1)) with (Z.to_nat rings) by lia.
      lia.
    + intros ring. cbn [length]. now rewrite length_map, range_length.
  - intros ring spoke. unfold Parts.mandala_ring, Parts.mandala_spoke.
    now rewrite !length_map, !range_length.
  - intros ring Hring. apply Forall_forall. intros q Hq.
    apply (mandala_ring_point rings segments ring); [lia | exact Hq].
  - apply Forall_forall. intros q Hq.
    apply in_concat in Hq. destruct Hq as [curve [Hcurve Hq]].
    apply in_flat_map in Hcurve. destruct Hcurve as [ring [Hring Hcurve]].
    apply range3_step1 in Hring.
    assert (Hle : IZR ring * 0.8 <= IZR rings * 0.8).
    { assert (IZR ring <= IZR rings) by (apply IZR_le; lia). lra. }
    destruct Hcurve as [<- | Hcurve].
    + rewrite (mandala_ring_point rings segments ring q) by (lia || exact Hq).
      exact Hle.
    + apply in_map_iff in Hcurve. destruct Hcurve as [spoke [<- _]].
      pose proof (mandala_spoke_point rings segments ring spoke q
                    ltac:(lia) Hq). lra.
Qed.

End Mandala.

Section FlowerAndKnot.

Variable self : KolamGenerator.t.

Lemma flower_spiral_length (layers : Z) :
  length (Parts.flower_spiral layers) = 150%nat.
Proof.
  unfold Parts.flower_spiral. rewrite spiral_length, int_nonneg by lra.
  rewrite (Zfloor_eq 150) by lra. reflexivity.
Qed.

Lemma flower_petal_length (num_petals layers layer : Z) :
  length (Parts.flower_petal num_petals layers layer) = 200%nat.
Proof. apply petal_length. Qed.

Lemma flower_points (num_petals layers : Z) :
  length (concat
            (map (Parts.flower_petal num_petals layers) (range layers)
             ++ [Parts.flower_spiral layers]))
  = (200 * Z.to_nat layers + 150)%nat.
Proof.
  rewrite concat_app, length_app. cbn [concat]. rewrite app_nil_r.
  rewrite flower_spiral_length.
  rewrite (concat_uniform_length _ 200).
  - rewrite length_map, range_length. lia.
  - apply Forall_forall. intros c Hc. apply in_map_iff in Hc.
    destruct Hc as [layer [<- _]]. apply flower_petal_length.
Qed.

(** X29: the flower pattern holds one petal curve of 200 points per layer
    followed by the center spiral of 150 points, [200 * layers + 150] points
    in all; it always has points, so its bounding box is always returned,
    also for zero or negative layer counts. *)
Theorem flower_structure (num_petals layers : Z) :
  let p := KolamGenerator.generate_flower_kolam self num_petals layers in
  KolamPattern.curves p
  = map (Parts.flower_petal num_petals layers) (range layers)
    ++ [Parts.flower_spiral layers]
  /\ length (KolamPattern.curves p) = (Z.to_nat layers + 1)%nat
  /\ length (Parts.flower_spiral layers) = 150%nat
  /\ (forall layer,
        length (Parts.flower_petal num_petals layers layer) = 200%nat)
  /\ length (concat (KolamPattern.curves p))
     = (200 * Z.to_nat layers + 150)%nat
  /\ exists lo hi, KolamPattern.get_bounding_box p = Ok (lo, hi).
Proof.
  cbv zeta. rewrite flower_curves.
  split; [reflexivity |]. split; [| split; [| split; [| split]]].
  - rewrite length_app, length_map, range_length. cbn [length]. lia.
  - apply flower_spiral_length.
  - intros layer. apply flower_petal_length.
  - apply flower_points.
  - destruct (get_bounding_box_some_point
                (KolamGenerator.generate_flower_kolam self num_petals layers))
      as [lo [hi [E _]]].
    + rewrite flower_curves. intros H.
      apply (f_equal (@length Point2D.t)) in H.
      rewrite flower_points in H. cbn [length] in H. lia.
    + now exists lo, hi.
Qed.




End FlowerAndKnot.

(** ** The rays of the star *)

Section Rays.

Variables (n : Z) (spacing : R).

Let g := DotGrid.new n n spacing.

Let lattice (row col : Z) : Point2D.t :=
  Point2D.mk (IZR col * spacing) (IZR row * spacing).

Let inside (row col : Z) : Prop := (0 <= row < n)%Z /\ (0 <= col < n)%Z.

Lemma get_dot_cases (row col : Z) :
  (inside row col /\ DotGrid.get_dot g row col = Some (lattice row col))
  \/ (~ inside row col /\ DotGrid.get_dot g row col = None).
Proof.
  unfold inside.
  destruct (Z_le_dec 0 row), (Z_lt_dec row n),
           (Z_le_dec 0 col), (Z_lt_dec col n);
    try (right; split; [lia | apply get_dot_out_of_bounds; lia]).
  left. split; [lia |]. apply get_dot_in_bounds; lia.
Qed.

(** What a finished ray holds: the dots of the cells reached by 1, 2, ...,
    [K] steps, all inside the grid, the cell of step [K + 1] being the
    first one outside. *)
Lemma ray_result (fuel : nat) (r c dr dc : Z) (acc l : list Point2D.t) :
  KolamGenerator.ray fuel g r c dr dc acc = Some l ->
  exists K : nat,
    l = acc ++ map (fun k => lattice (r + Z.of_nat k * dr)
                                     (c + Z.of_nat k * dc)) (seq 1 K)
    /\ (forall k, (1 <= k <= K)%nat ->
          inside (r + Z.of_nat k * dr) (c + Z.of_nat k * dc))
    /\ ~ inside (r + Z.of_nat (S K) * dr) (c + Z.of_nat (S K) * dc).
Proof.
  revert r c acc. induction fuel as [| fuel IH]; intros r c acc H;
    [discriminate H |].
  cbn [KolamGenerator.ray] in H. cbv zeta in H.
  destruct (get_dot_cases (r + dr) (c + dc)) as [[Hin E] | [Hout E]];
    rewrite E in H.
  - apply IH in H. destruct H as [K [El [Hall Hnext]]].
    exists (S K). split; [| split].
    + rewrite El, <- app_assoc. f_equal. cbn [seq map app].
      f_equal; [f_equal; lia |].
      rewrite <- (seq_shift K 1), map_map. apply map_ext. intros k.
      f_equal; lia.
    + intros k Hk. destruct (Nat.eq_dec k 1) as [-> | Hk1].
      * replace (r + Z.of_nat 1 * dr)%Z with (r + dr)%Z by lia.
        replace (c + Z.of_nat 1 * dc)%Z with (c + dc)%Z by lia. exact Hin.
      * specialize (Hall (k - 1)%nat ltac:(lia)).
        replace (r + Z.of_nat k * dr)%Z
          with (r + dr + Z.of_nat (k - 1) * dr)%Z by lia.
        replace (c + Z.of_nat k * dc)%Z
          with (c + dc + Z.of_nat (k - 1) * dc)%Z by lia.
        exact Hall.
    + replace (r + Z.of_nat (S (S K)) * dr)%Z
        with (r + dr + Z.of_nat (S K) * dr)%Z by lia.
      replace (c + Z.of_nat (S (S K)) * dc)%Z
        with (c + dc + Z.of_nat (S K) * dc)%Z by lia.
      exact Hnext.
  - inversion H; subst l. exists 0%nat. split; [| split].
    + cbn [seq map]. now rewrite app_nil_r.
    + intros k Hk. lia.
    + replace (r + Z.of_nat 1 * dr)%Z with (r + dr)%Z by lia.
      replace (c + Z.of_nat 1 * dc)%Z with (c + dc)%Z by lia. exact Hout.
Qed.

(** More fuel does not change a finished ray. *)
Lemma ray_more_fuel (fuel fuel' : nat) (r c dr dc : Z)
    (acc l : list Point2D.t) :
  (fuel <= fuel')%nat ->
  KolamGenerator.ray fuel g r c dr dc acc = Some l ->
  KolamGenerator.ray fuel' g r c dr dc acc = Some l.
Proof.
  revert fuel' r c acc. induction fuel as [| fuel IH];
    intros fuel' r c acc Hle H; [discriminate H |].
  destruct fuel' as [| fuel']; [lia |].
  cbn [KolamGenerator.ray] in *. cbv zeta in *.
  destruct (DotGrid.get_dot g (r + dr) (c + dc)); [| exact H].
  apply (IH fuel'); [lia | exact H].
Qed.

(** The number of rounds a ray can still make inside the grid. *)
Let rounds (r c dr dc : Z) : Z :=
  if (dr =? 1)%Z then n - r
  else if (dr =? -1)%Z then r + 1
       else if (dc =? 1)%Z then n - c else c + 1.

(** In a direction other than [(0, 0)] the loop is left after at most
    [rounds] rounds. *)
Lemma ray_finishes (fuel : nat) (r c dr dc : Z) (acc : list Point2D.t) :
  (-1 <= dr <= 1)%Z -> (-1 <= dc <= 1)%Z -> (dr <> 0 \/ dc <> 0)%Z ->
  (Z.max 1 (rounds r c dr dc) <= Z.of_nat fuel)%Z ->
  exists l, KolamGenerator.ray fuel g r c dr dc acc = Some l.
Proof.
  intros Hdr Hdc Hd. revert r c acc.
  induction fuel as [| fuel IH]; intros r c acc Hfuel; [lia |].
  cbn [KolamGenerator.ray]. cbv zeta.
  destruct (get_dot_cases (r + dr) (c + dc)) as [[[Hr Hc] E] | [_ E]];
    rewrite E; [| now eexists].
  apply IH. unfold rounds in *.
  destruct (dr =? 1)%Z eqn:E1; [apply Z.eqb_eq in E1; lia |].
  destruct (dr =? -1)%Z eqn:E2; [apply Z.eqb_eq in E2; lia |].
  apply Z.eqb_neq in E1, E2.
  destruct (dc =? 1)%Z eqn:E3; [apply Z.eqb_eq in E3; lia |].
  apply Z.eqb_neq in E3. lia.
Qed.

End Rays.

(** ** The star of the wireframe generator *)

Section Star.

Variable self : KolamGenerator.t.
Variable n : Z.

Let g := DotGrid.new n n 1.0.
Let center : Point2D.t := Point2D.mk (IZR (n / 2) * 1.0) (IZR (n / 2) * 1.0).

(** The fold over the eight directions, once every ray is known to
    finish. *)
Lemma star_fold (rayf : Z * Z -> option (list Point2D.t))
    (f : Z * Z -> list Point2D.t) (l : list (Z * Z)) (p : KolamPattern.t) :
  (forall d, In d l -> rayf d = Some (f d)) ->
  fold_left
    (fun (state : option KolamPattern.t) (d : Z * Z) =>
       match state with
       | None => None
       | Some pattern =>
           match rayf d with
           | None => None
           | Some line_points =>
               Some (if (1 <? length line_points)%nat
                     then KolamPattern.add_curve pattern line_points
                     else pattern)
           end
       end)
    l (Some p)
  = Some (fold_left
            (fun pattern d =>
               if (1 <? length (f d))%nat
               then KolamPattern.add_curve pattern (f d) else pattern)
            l p).
Proof.
  revert p. induction l as [| d l IH]; intros p H; [reflexivity |].
  cbn [fold_left]. rewrite (H d (or_introl eq_refl)).
  apply IH. intros d' Hd'. apply H. now right.
Qed.

Lemma direction_bounds (d : Z * Z) :
  In d KolamGenerator.directions ->
  (-1 <= fst d <= 1)%Z /\ (-1 <= snd d <= 1)%Z
  /\ (fst d <> 0 \/ snd d <> 0)%Z.
Proof.
  unfold KolamGenerator.directions. cbn [In].
  intros [<- | [<- | [<- | [<- | [<- | [<- | [<- | [<- | []]]]]]]]];
    cbn [fst snd]; lia.
Qed.

Hypothesis center_inside : (0 <= n / 2 < n)%Z.

Lemma star_ray_finishes (fuel : nat) (d : Z * Z) :
  (Z.to_nat n <= fuel)%nat -> In d KolamGenerator.directions ->
  exists l,
    KolamGenerator.ray fuel g (n / 2) (n / 2) (fst d) (snd d) [center]
    = Some l.
Proof.
  intros Hfuel Hd. destruct (direction_bounds d Hd) as [Hdr [Hdc Hne]].
  apply ray_finishes; try assumption.
  destruct (fst d =? 1)%Z, (fst d =? -1)%Z, (snd d =? 1)%Z; lia.
Qed.

End Star.

Section StarPattern.

Variable self : KolamGenerator.t.
Variable n : Z.

Let g := DotGrid.new n n 1.0.
Let center : Point2D.t := Point2D.mk (IZR (n / 2) * 1.0) (IZR (n / 2) * 1.0).

(** The ray in direction [d], computed with [n] rounds of fuel. *)
Let line (d : Z * Z) : list Point2D.t :=
  match KolamGenerator.ray (Z.to_nat n) g (n / 2) (n / 2) (fst d) (snd d)
                           [center] with
  | Some l => l
  | None => []
  end.

(** The directions that are tried: all eight when the center cell has a
    dot, none otherwise. *)
Let tried : list (Z * Z) :=
  match DotGrid.get_dot g (n / 2) (n / 2) with
  | Some _ => KolamGenerator.directions
  | None => []
  end.

Let pattern0 : KolamPattern.t :=
  KolamPattern.set_grid
    (KolamPattern.__init__
       ("Kambi Kolam " ++ str n ++ "x" ++ str n)%string KAMBI_KOLAM)
    n n 1.0.

Lemma half_inside : (1 <= n)%Z -> (0 <= n / 2 < n)%Z.
Proof.
  intros Hn. split.
  - apply Z.div_pos; lia.
  - apply Z.div_lt_upper_bound; lia.
Qed.

Lemma half_outside : (n <= 0)%Z -> ~ ((0 <= n / 2 < n)%Z /\ (0 <= n / 2 < n)%Z).
Proof. intros Hn [H _]. lia. Qed.

Lemma line_is_ray (fuel : nat) (d : Z * Z) :
  (1 <= n)%Z -> (Z.to_nat n <= fuel)%nat ->
  In d KolamGenerator.directions ->
  KolamGenerator.ray fuel g (n / 2) (n / 2) (fst d) (snd d) [center]
  = Some (line d).
Proof.
  intros Hn Hfuel Hd.
  destruct (star_ray_finishes n (half_inside Hn) (Z.to_nat n) d
              (le_n _) Hd) as [l Hl].
  unfold line. fold g center in Hl |- *. rewrite Hl.
  apply (ray_more_fuel n 1.0 (Z.to_nat n) fuel); [exact Hfuel | exact Hl].
Qed.

(** With at least [n] rounds of fuel the generator returns, and what it
    returns does not depend on the fuel. *)
Lemma kambi_star_value (fuel : nat) :
  (Z.to_nat n <= fuel)%nat ->
  KolamGenerator.generate_kambi_kolam fuel self n "star"
  = Some (KolamPattern.analyze_symmetries
            (fold_left
               (fun pattern d =>
                  if (1 <? length (line d))%nat
                  then KolamPattern.add_curve pattern (line d) else pattern)
               tried pattern0)).
Proof.
  intros Hfuel. unfold KolamGenerator.generate_kambi_kolam. cbv zeta.
  change (String.eqb "star" "geometric") with false.
  change (String.eqb "star" "star") with true. cbv iota.
  fold g pattern0. unfold tried.
  destruct (Z_le_dec n 0) as [Hn | Hn].
  - unfold g.
    rewrite (get_dot_out_of_bounds n n 1.0 (n / 2) (n / 2) (half_outside Hn)).
    reflexivity.
  - assert (Hn1 : (1 <= n)%Z) by lia.
    pose proof (half_inside Hn1) as Hin.
    unfold g. rewrite (get_dot_in_bounds n n 1.0 (n / 2) (n / 2) Hin Hin).
    fold g center. cbn [option_map]. f_equal.
    rewrite (star_fold
               (fun d => KolamGenerator.ray fuel g (n / 2) (n / 2)
                                            (fst d) (snd d) [center])
               line).
    + reflexivity.
    + intros d Hd. now apply line_is_ray.
Qed.

Lemma kambi_star_curves (fuel : nat) :
  (Z.to_nat n <= fuel)%nat ->
  option_map KolamPattern.curves
    (KolamGenerator.generate_kambi_kolam fuel self n "star")
  = Some (map line (filter (fun d => (1 <? length (line d))%nat) tried)).
Proof.
  intros Hfuel. rewrite (kambi_star_value fuel Hfuel). cbn [option_map].
  rewrite curves_analyze_symmetries.
  now rewrite (curves_fold_add line (fun d => (1 <? length (line d))%nat)).
Qed.

(** The shape of a ray that made it into the pattern. *)
Lemma line_shape (d : Z * Z) :
  (1 <= n)%Z -> In d KolamGenerator.directions ->
  exists K : nat,
    line d
    = map (fun k => Point2D.mk (IZR (n / 2 + Z.of_nat k * snd d) * 1.0)
                               (IZR (n / 2 + Z.of_nat k * fst d) * 1.0))
          (seq 0 (S K))
    /\ (forall k, (k <= K)%nat ->
          (0 <= n / 2 + Z.of_nat k * fst d < n)%Z
          /\ (0 <= n / 2 + Z.of_nat k * snd d < n)%Z)
    /\ ~ ((0 <= n / 2 + Z.of_nat (S K) * fst d < n)%Z
          /\ (0 <= n / 2 + Z.of_nat (S K) * snd d < n)%Z).
Proof.
  intros Hn Hd.
  pose proof (line_is_ray (Z.to_nat n) d Hn (le_n _) Hd) as Hray.
  apply ray_result in Hray. destruct Hray as [K [El [Hall Hnext]]].
  exists K. split; [| split].
  - rewrite El. cbn [seq map app]. f_equal.
    unfold center. f_equal; f_equal; f_equal; lia.
  - intros k Hk. destruct k as [| k].
    + pose proof (half_inside Hn). cbn [Z.of_nat]. lia.
    + apply Hall. lia.
  - exact Hnext.
Qed.

Lemma tried_some_dot (d : Z * Z) : In d tried -> (1 <= n)%Z.
Proof.
  unfold tried, g. intros Hd.
  destruct (Z_le_dec n 0) as [Hn | Hn]; [| lia].
  rewrite (get_dot_out_of_bounds n n 1.0 (n / 2) (n / 2) (half_outside Hn))
    in Hd.
  contradiction.
Qed.

Lemma tried_all : (1 <= n)%Z -> tried = KolamGenerator.directions.
Proof.
  intros Hn. unfold tried, g. pose proof (half_inside Hn) as Hin.
  now rewrite (get_dot_in_bounds n n 1.0 (n / 2) (n / 2) Hin Hin).
Qed.

(** X4: [generate_kambi_kolam] with [line_style = "star"]
    returns once the ray loop is given at least [grid_size] rounds, and the
    pattern is the same however many more rounds it is given.  Every curve
    of the pattern is a ray: it starts at the dot of cell
    [(grid_size / 2, grid_size / 2)], follows one of the eight directions
    [(dr, dc)] cell by cell, has at least two points, visits only cells of
    the grid and stops at the last cell before the grid is left.  There are
    at most eight curves, and exactly eight from [grid_size = 3] on. *)
Theorem kambi_star_rays (fuel : nat) :
  (Z.to_nat n <= fuel)%nat ->
  exists p : KolamPattern.t,
    KolamGenerator.generate_kambi_kolam fuel self n "star" = Some p
    /\ (forall fuel' : nat, (fuel <= fuel')%nat ->
          KolamGenerator.generate_kambi_kolam fuel' self n "star" = Some p)
    /\ Forall
         (fun curve =>
            exists (dr dc : Z) (K : nat),
              In (dr, dc) KolamGenerator.directions
              /\ (1 <= K)%nat
              /\ curve
                 = map (fun k =>
                          Point2D.mk (IZR (n / 2 + Z.of_nat k * dc) * 1.0)
                                     (IZR (n / 2 + Z.of_nat k * dr) * 1.0))
                       (seq 0 (S K))
              /\ (forall k, (k <= K)%nat ->
                    (0 <= n / 2 + Z.of_nat k * dr < n)%Z
                    /\ (0 <= n / 2 + Z.of_nat k * dc < n)%Z)
              /\ ~ ((0 <= n / 2 + Z.of_nat (S K) * dr < n)%Z
                    /\ (0 <= n / 2 + Z.of_nat (S K) * dc < n)%Z))
         (KolamPattern.curves p)
    /\ (length (KolamPattern.curves p) <= 8)%nat
    /\ ((3 <= n)%Z -> length (KolamPattern.curves p) = 8%nat).
Proof.
  intros Hfuel. eexists.
  split; [apply (kambi_star_value fuel Hfuel) |].
  split; [intros fuel' Hle; apply kambi_star_value; lia |].
  rewrite curves_analyze_symmetries.
  rewrite (curves_fold_add line (fun d => (1 <? length (line d))%nat)).
  change (KolamPattern.curves pattern0) with (@nil (list Point2D.t)).
  cbn [app].
  split; [| split].
  - apply Forall_forall. intros curve Hin.
    apply in_map_iff in Hin. destruct Hin as [d [E Hd]].
    apply filter_In in Hd. destruct Hd as [Hd Hlen].
    pose proof (tried_some_dot d Hd) as Hn.
    rewrite (tried_all Hn) in Hd.
    destruct (line_shape d Hn Hd) as [K [El [Hall Hnext]]].
    destruct d as [dr dc]. cbn [fst snd] in *.
    exists dr, dc, K. split; [exact Hd |].
    split; [| split; [| split]]; try assumption.
    + apply Nat.ltb_lt in Hlen. rewrite El, length_map, length_seq in Hlen.
      lia.
    + now rewrite <- E.
  - rewrite length_map.
    etransitivity; [apply filter_length_le |].
    destruct (Z_le_dec n 0) as [Hn | Hn].
    + unfold tried, g.
      rewrite (get_dot_out_of_bounds n n 1.0 (n / 2) (n / 2)
                 (half_outside Hn)).
      cbn [length]. lia.
    + rewrite tried_all by lia. cbn [KolamGenerator.directions length]. lia.
  - intros Hn. assert (Hn1 : (1 <= n)%Z) by lia.
    rewrite (tried_all Hn1), filter_all, length_map; [reflexivity |].
    intros d Hd. apply Nat.ltb_lt.
    destruct (line_shape d Hn1 Hd) as [K [El [_ Hnext]]].
    rewrite El, length_map, length_seq.
    destruct K as [| K]; [| lia].
    exfalso. apply Hnext.
    destruct (direction_bounds d Hd) as [Hdr [Hdc _]].
    assert (1 <= n / 2)%Z by (apply Z.div_le_lower_bound; lia).
    assert (n / 2 + 1 < n)%Z.
    { pose proof (Z.div_lt_upper_bound n 2 (n - 1)). lia. }
    change (Z.of_nat 1) with 1%Z. lia.
Qed.

End StarPattern.

Lemma kambi_star_rays_witness :
  (Z.to_nat 5 <= 5)%nat
  /\ exists p : KolamPattern.t,
       KolamGenerator.generate_kambi_kolam 5 KolamGenerator.__init__ 5 "star"
       = Some p
       /\ length (KolamPattern.curves p) = 8%nat.
Proof.
  split; [vm_compute; lia |].
  destruct (kambi_star_rays KolamGenerator.__init__ 5 5)
    as [p [Hp [_ [_ [_ H8]]]]]; [vm_compute; lia |].
  exists p. split; [exact Hp | apply H8; lia].
Defined.

(** ** The wireframe generator, geometric style *)

Section Windows.

Lemma map_seq_from {B : Type} (f : nat -> B) (s len : nat) :
  map f (seq s len) = map (fun k => f (s + k)%nat) (seq 0 len).
Proof.
  revert s. induction len as [| len IH]; intros s; [reflexivity |].
  cbn [seq map]. f_equal; [f_equal; lia |].
  rewrite (IH (S s)), <- (seq_shift len 0), map_map.
  apply map_ext. intros k. f_equal. lia.
Qed.

Lemma range3_split (s a e : Z) :
  (s <= a <= e)%Z -> range3 s e 1 = range3 s a 1 ++ range3 a e 1.
Proof.
  intros H. unfold range3. rewrite !Z.div_1_r.
  replace (Z.to_nat (e - s + 1 - 1))
    with (Z.to_nat (a - s + 1 - 1) + Z.to_nat (e - a + 1 - 1))%nat by lia.
  rewrite seq_app, map_app. f_equal.
  rewrite map_seq_from. apply map_ext. intros k. lia.
Qed.

Lemma range3_step1_empty (a b : Z) : (b <= a)%Z -> range3 a b 1 = [].
Proof.
  intros H. unfold range3. rewrite Z.div_1_r.
  replace (Z.to_nat (b - a + 1 - 1)) with 0%nat by lia. reflexivity.
Qed.

Lemma range_range3 (n : Z) : range n = range3 0 n 1.
Proof.
  unfold range, range3. rewrite Z.div_1_r.
  replace (n - 0 + 1 - 1)%Z with n by lia.
  apply map_ext. intros k. lia.
Qed.

Lemma flat_map_eq_in {A B : Type} (f h : A -> list B) (l : list A) :
  (forall a, In a l -> f a = h a) -> flat_map f l = flat_map h l.
Proof.
  induction l as [| a l IH]; intros H; [reflexivity |].
  cbn [flat_map]. rewrite (H a (or_introl eq_refl)), IH; [reflexivity |].
  intros b Hb. apply H. now right.
Qed.

Lemma flat_map_nil_in {A B : Type} (f : A -> list B) (l : list A) :
  (forall a, In a l -> f a = []) -> flat_map f l = [].
Proof.
  induction l as [| a l IH]; intros H; [reflexivity |].
  cbn [flat_map]. rewrite (H a (or_introl eq_refl)), IH; [reflexivity |].
  intros b Hb. apply H. now right.
Qed.

Lemma filter_none {A : Type} (cond : A -> bool) (l : list A) :
  (forall a, In a l -> cond a = false) -> filter cond l = [].
Proof.
  induction l as [| a l IH]; intros H; [reflexivity |].
  cbn [filter]. rewrite (H a (or_introl eq_refl)). apply IH.
  intros b Hb. apply H. now right.
Qed.

(** A loop over [range(n)] that keeps one value for each index of a window
    [a <= i < b] and nothing elsewhere collects the window in order. *)
Lemma flat_map_window {B : Type} (f : Z -> list B) (h : Z -> B)
    (n a b : Z) :
  (0 <= a <= b)%Z -> (b <= n)%Z ->
  (forall i, (0 <= i < n)%Z ->
     f i = if ((a <=? i) && (i <? b))%Z then [h i] else []) ->
  flat_map f (range n) = map h (range3 a b 1).
Proof.
  intros Hab Hbn Hf.
  rewrite range_range3, (range3_split 0 a n), (range3_split a b n) by lia.
  rewrite !flat_map_app.
  rewrite (flat_map_nil_in f (range3 0 a 1)).
  - rewrite (flat_map_nil_in f (range3 b n 1)).
    + rewrite app_nil_r. cbn [app].
      rewrite (flat_map_eq_in f (fun i => [h i])); [reflexivity |].
      intros i Hi. apply range3_step1 in Hi. rewrite Hf by lia.
      replace ((a <=? i) && (i <? b))%Z with true by lia. reflexivity.
    + intros i Hi. apply range3_step1 in Hi. rewrite Hf by lia.
      replace ((a <=? i) && (i <? b))%Z with false by lia. reflexivity.
  - intros i Hi. apply range3_step1 in Hi. rewrite Hf by lia.
    replace ((a <=? i) && (i <? b))%Z with false by lia. reflexivity.
Qed.

(** Keeping the numbers of a window out of a longer run of consecutive
    numbers gives the window. *)
Lemma filter_window (s e a b : Z) :
  (s <= a)%Z -> (b <= e)%Z ->
  filter (fun i => ((a <=? i) && (i <? b))%Z) (range3 s e 1)
  = range3 a b 1.
Proof.
  intros Hs He. destruct (Z_lt_dec b a) as [Hba | Hba].
  - rewrite (range3_step1_empty a b) by lia. apply filter_none.
    intros i _. lia.
  - rewrite (range3_split s a e), (range3_split a b e) by lia.
    rewrite !filter_app.
    rewrite (filter_none _ (range3 s a 1)).
    + rewrite (filter_none _ (range3 b e 1)).
      * rewrite app_nil_r. cbn [app]. apply filter_all.
        intros i Hi. apply range3_step1 in Hi. lia.
      * intros i Hi. apply range3_step1 in Hi. lia.
    + intros i Hi. apply range3_step1 in Hi. lia.
Qed.

(** The loop [if line_points: pattern.add_curve(line_points)] appends, in
    order, the lines that are not empty. *)
Lemma curves_fold_add_nonempty {A : Type} (f : A -> list Point2D.t)
    (l : list A) (p : KolamPattern.t) :
  KolamPattern.curves
    (fold_left (fun p a => match f a with
                           | [] => p
                           | _ :: _ => KolamPattern.add_curve p (f a)
                           end)
               l p)
  = KolamPattern.curves p
    ++ map f (filter (fun a => match f a with [] => false | _ :: _ => true end)
                     l).
Proof.
  revert p. induction l as [| a l IH]; intros p; cbn [fold_left filter].
  - now rewrite app_nil_r.
  - rewrite IH. destruct (f a) eqn:E; [reflexivity |].
    rewrite curves_add_curve, <- app_assoc. cbn [map app]. now rewrite E.
Qed.

End Windows.

Section Wireframe.

Variable self : KolamGenerator.t.
Variable n : Z.

Let g := DotGrid.new n n 1.0.
Let lattice (r c : Z) : Point2D.t := Point2D.mk (IZR c * 1.0) (IZR r * 1.0).

Lemma kambi_row_full (r : Z) :
  (0 <= r < n)%Z ->
  KolamGenerator.kambi_row g n r = map (fun c => lattice r c) (range n).
Proof.
  intros Hr. unfold KolamGenerator.kambi_row.
  rewrite (flat_map_eq_in _ (fun c => [lattice r c])); [reflexivity |].
  intros c Hc. apply in_range in Hc. unfold g.
  now rewrite (get_dot_in_bounds n n 1.0 r c Hr Hc).
Qed.

Lemma kambi_column_full (c : Z) :
  (0 <= c < n)%Z ->
  KolamGenerator.kambi_column g n c = map (fun r => lattice r c) (range n).
Proof.
  intros Hc. unfold KolamGenerator.kambi_column.
  rewrite (flat_map_eq_in _ (fun r => [lattice r c])); [reflexivity |].
  intros r Hr. apply in_range in Hr. unfold g.
  now rewrite (get_dot_in_bounds n n 1.0 r c Hr Hc).
Qed.

Lemma kambi_diagonal_window (o : Z) :
  (- (n - 1) <= o < n)%Z ->
  KolamGenerator.kambi_diagonal g n o
  = map (fun r => lattice r (r + o))
        (range3 (Z.max 0 (- o)) (Z.min n (n - o)) 1).
Proof.
  intros Ho. unfold KolamGenerator.kambi_diagonal. cbv zeta.
  apply flat_map_window; [lia | lia |].
  intros i Hi.
  destruct ((0 <=? i + o) && (i + o <? n))%Z eqn:E.
  - replace ((Z.max 0 (- o) <=? i) && (i <? Z.min n (n - o)))%Z
      with true by lia.
    unfold g. rewrite (get_dot_in_bounds n n 1.0 i (i + o)) by lia.
    reflexivity.
  - replace ((Z.max 0 (- o) <=? i) && (i <? Z.min n (n - o)))%Z
      with false by lia.
    reflexivity.
Qed.

Lemma kambi_diagonal_length (o : Z) :
  (- (n - 1) <= o < n)%Z ->
  length (KolamGenerator.kambi_diagonal g n o) = Z.to_nat (n - Z.abs o).
Proof.
  intros Ho. rewrite (kambi_diagonal_window o Ho), length_map, range3_length.
  rewrite Z.div_1_r. lia.
Qed.

Lemma range_nonempty_match {B : Type} (h : Z -> B) :
  (1 <= n)%Z ->
  match map h (range n) with [] => false | _ :: _ => true end = true.
Proof.
  intros Hn. destruct (range n) eqn:E; [| reflexivity].
  apply (f_equal (@length Z)) in E. rewrite range_length in E.
  cbn [length] in E. lia.
Qed.

(** X19: [generate_kambi_kolam] with
    [line_style = "geometric"] makes, in this order: one curve for every
    second row [0, 2, 4, ...], holding the [grid_size] dots of the row from
    left to right; one curve for every second column, holding the dots of
    the column from top to bottom; and one curve for each diagonal
    [col = row + offset] with [- (grid_size - 2) <= offset <= grid_size - 2],
    holding its dots by increasing row.  The two one-dot diagonals at the
    corners are left out, so there are
    [2 * ceil(grid_size / 2) + (2 * grid_size - 3)] curves (the second term
    read as [0] below [grid_size = 2]), and none for a non-positive
    size.  The ray loop is not entered: the result does not depend on the
    fuel. *)
Theorem kambi_geometric_lines (fuel : nat) :
  exists p : KolamPattern.t,
    KolamGenerator.generate_kambi_kolam fuel self n "geometric" = Some p
    /\ KolamPattern.curves p
       = map (fun r =>
                map (fun c => Point2D.mk (IZR c * 1.0) (IZR r * 1.0))
                    (range n))
             (range3 0 n 2)
         ++ map (fun c =>
                   map (fun r => Point2D.mk (IZR c * 1.0) (IZR r * 1.0))
                       (range n))
                (range3 0 n 2)
         ++ map (fun o =>
                   map (fun r =>
                          Point2D.mk (IZR (r + o) * 1.0) (IZR r * 1.0))
                       (range3 (Z.max 0 (- o)) (Z.min n (n - o)) 1))
                (range3 (- (n - 2)) (n - 1) 1)
    /\ length (KolamPattern.curves p)
       = (2 * Z.to_nat ((n + 1) / 2) + Z.to_nat (2 * n - 3))%nat.
Proof.
  eexists. split.
  { unfold KolamGenerator.generate_kambi_kolam. cbv zeta.
    change (String.eqb "geometric" "geometric") with true. cbv iota.
    cbn [option_map]. reflexivity. }
  fold g.
  match goal with
  | |- ?A = ?B /\ _ => assert (H : A = B)
  end.
  { rewrite curves_analyze_symmetries.
    rewrite (curves_fold_add
               (KolamGenerator.kambi_diagonal g n)
               (fun o =>
                  (1 <? length (KolamGenerator.kambi_diagonal g n o))%nat)).
    rewrite (curves_fold_add_nonempty (KolamGenerator.kambi_column g n)).
    rewrite (curves_fold_add_nonempty (KolamGenerator.kambi_row g n)).
    cbn [KolamPattern.curves KolamPattern.set_grid KolamPattern.__init__ app].
    rewrite <- app_assoc. f_equal; [| f_equal].
    - rewrite filter_all.
      + apply map_ext_in. intros r Hr. apply in_range3_step2 in Hr.
        apply kambi_row_full. lia.
      + intros r Hr. apply in_range3_step2 in Hr.
        rewrite kambi_row_full by lia. apply range_nonempty_match. lia.
    - rewrite filter_all.
      + apply map_ext_in. intros c Hc. apply in_range3_step2 in Hc.
        apply kambi_column_full. lia.
      + intros c Hc. apply in_range3_step2 in Hc.
        rewrite kambi_column_full by lia. apply range_nonempty_match. lia.
    - rewrite (filter_ext_in _
                 (fun o => ((- (n - 2) <=? o) && (o <? n - 1))%Z)).
      + rewrite filter_window by lia.
        apply map_ext_in. intros o Ho. apply range3_step1 in Ho.
        apply kambi_diagonal_window. lia.
      + intros o Ho. apply range3_step1 in Ho.
        rewrite kambi_diagonal_length by lia.
        destruct (Nat.ltb_spec 1 (Z.to_nat (n - Z.abs o))); lia. }
  split; [exact H |].
  rewrite H, !length_app, !length_map, !range3_length, Z.div_1_r.
  replace (n - 0 + 2 - 1)%Z with (n + 1)%Z by lia. lia.
Qed.

End Wireframe.
